(** * Evita y Dispara: a shallow embedding of the simulation core

    The Python classes of the package [juego] (Vector2D, Figura, Proyectil,
    Jugador, Enemigo, ControlJuego) are embedded as records and functions,
    one module per class, with the method names of the source.

    Modelling conventions.
    - A Python [float] is a real number of [R]: arithmetic is exact and
      rounding is not modelled.  The concrete inputs used below are small
      integers and halves, eighths and the constants of the source, on
      which rounding does not change the outcomes stated.
    - A Python [int] is a [Z].
    - A method that mutates [self] is a function returning the new object;
      a method that also returns a value returns a pair.
    - [raise] is the constructor [Raise] of the error type [Resultado].
    - [isinstance] guards on arguments are discharged by typing.
    - Enemy objects are shared between [ControlJuego.enemigos] and
      [ControlJuego.enemigo]; they live in a store indexed by object
      identity, see module [ControlJuego]. *)

From Stdlib Require Import Reals Lra Lia ZArith List Bool.
Import ListNotations.

Open Scope R_scope.

(** ** Exceptions *)

Inductive Excepcion : Type := ValueError | TypeError.

Inductive Resultado (A : Type) : Type :=
| Ok (a : A)
| Raise (e : Excepcion).

Arguments Ok {A} a.
Arguments Raise {A} e.

Definition bind {A B : Type} (m : Resultado A) (k : A -> Resultado B)
  : Resultado B :=
  match m with
  | Ok a => k a
  | Raise e => Raise e
  end.

Notation "x <- m ;; k" := (bind m (fun x => k))
  (at level 61, m at next level, right associativity).

(** ** Comparisons of floats, as booleans *)

Definition Rle_b (a b : R) : bool := if Rle_dec a b then true else false.
Definition Rlt_b (a b : R) : bool := if Rlt_dec a b then true else false.

(** [int(r)] of a float: truncation toward zero. *)
Definition int_de_float (r : R) : Z :=
  if Rle_dec 0 r then Int_part r else (- Int_part (- r))%Z.

(** ** pygame: the part of [pygame.Surface] the core reads *)

Module pygame.

Record Surface : Type := mkSurface { get_width : Z; get_height : Z }.

End pygame.

(** ** vector2d.py *)

Module Vector2D.

Record t : Type := mk { x : R; y : R }.

(** [__add__] *)
Definition add (self other : t) : t := mk (x self + x other) (y self + y other).

(** [__sub__] *)
Definition sub (self other : t) : t := mk (x self - x other) (y self - y other).

(** [__mul__] *)
Definition mul (self : t) (scalar : R) : t := mk (x self * scalar) (y self * scalar).

Definition magnitud (self : t) : R := sqrt (x self ^ 2 + y self ^ 2).

Definition normalizar (self : t) : t :=
  let mag := magnitud self in
  if Rlt_b 0 mag then mk (x self / mag) (y self / mag) else mk 0 0.

End Vector2D.

(** ** figura.py *)

Module Figura.

Definition Color : Type := (Z * Z * Z)%type.

Record t : Type := mk {
  pantalla : pygame.Surface;
  posicion : Vector2D.t;
  color : Color;
  radio : Z;
  activo : bool
}.

(** [__init__] *)
Definition init (pantalla : pygame.Surface) (x y : R) (color : Color)
  (radio : Z) : t :=
  mk pantalla (Vector2D.mk x y) color radio true.

Definition con_posicion (p : Vector2D.t) (self : t) : t :=
  mk (pantalla self) p (color self) (radio self) (activo self).

Definition con_color (c : Color) (self : t) : t :=
  mk (pantalla self) (posicion self) c (radio self) (activo self).

Definition con_activo (b : bool) (self : t) : t :=
  mk (pantalla self) (posicion self) (color self) (radio self) b.

Definition colision (self otro : t) : bool :=
  if negb (activo self && activo otro) then false
  else
    let distancia :=
      Vector2D.magnitud (Vector2D.sub (posicion self) (posicion otro)) in
    Rle_b distancia (IZR (radio self + radio otro)).

Definition mantener_en_pantalla (self : t) : t :=
  let ancho_pantalla := pygame.get_width (pantalla self) in
  let alto_pantalla := pygame.get_height (pantalla self) in
  let x1 := Rmax (IZR (radio self)) (Vector2D.x (posicion self)) in
  let x2 := Rmin (IZR (ancho_pantalla - radio self)) x1 in
  let y1 := Rmax (IZR (radio self)) (Vector2D.y (posicion self)) in
  let y2 := Rmin (IZR (alto_pantalla - radio self)) y1 in
  con_posicion (Vector2D.mk x2 y2) self.

End Figura.

(** The local [distancia] of [Figura.colision]: the distance between the
    centres. *)
Definition distancia (self otro : Figura.t) : R :=
  Vector2D.magnitud
    (Vector2D.sub (Figura.posicion self) (Figura.posicion otro)).

(** Subclasses of [Figura] carry their base object; [colision] is inherited
    and applies to any two of them. *)
Class EsFigura (A : Type) : Type := figura : A -> Figura.t.

#[export] Instance Figura_EsFigura : EsFigura Figura.t := fun f => f.

Definition colision {A B : Type} `{EsFigura A} `{EsFigura B}
  (self : A) (otro : B) : bool :=
  Figura.colision (figura self) (figura otro).

(** ** proyectil.py *)

Module Proyectil.

Record t : Type := mk {
  base : Figura.t;
  velocidad : R;
  direccion : Vector2D.t;
  tiempo_vida : R
}.

Definition con_base (f : Figura.t) (self : t) : t :=
  mk f (velocidad self) (direccion self) (tiempo_vida self).

Definition con_tiempo_vida (v : R) (self : t) : t :=
  mk (base self) (velocidad self) (direccion self) v.

Definition activo (self : t) : bool := Figura.activo (base self).
Definition posicion (self : t) : Vector2D.t := Figura.posicion (base self).
Definition radio (self : t) : Z := Figura.radio (base self).

(** [proyectil.activo = False] *)
Definition desactivar (self : t) : t :=
  con_base (Figura.con_activo false (base self)) self.

(** Default of the parameter [velocidad] of [__init__]. *)
Definition velocidad_por_defecto : R := 300.

(** [__init__] *)
Definition init (pantalla : pygame.Surface) (x y : R)
  (direccion : Vector2D.t) (velocidad : R) : Resultado t :=
  if Rle_b velocidad 0 then Raise ValueError
  else
    Ok (mk (Figura.init pantalla x y (255, 255, 0)%Z 5)
           velocidad
           (Vector2D.normalizar direccion)
           2).

(** [_verificar_desactivacion] *)
Definition verificar_desactivacion (self : t) : t :=
  if negb (activo self) then self
  else
    let ancho_pantalla := pygame.get_width (Figura.pantalla (base self)) in
    let alto_pantalla := pygame.get_height (Figura.pantalla (base self)) in
    let fuera_de_pantalla :=
      Rlt_b (Vector2D.x (posicion self)) (IZR (- radio self))
      || Rlt_b (IZR (ancho_pantalla + radio self)) (Vector2D.x (posicion self))
      || Rlt_b (Vector2D.y (posicion self)) (IZR (- radio self))
      || Rlt_b (IZR (alto_pantalla + radio self)) (Vector2D.y (posicion self)) in
    let tiempo_agotado := Rle_b (tiempo_vida self) 0 in
    if fuera_de_pantalla || tiempo_agotado then desactivar self else self.

Definition actualizar (dt : R) (self : t) : Resultado t :=
  if Rle_b dt 0 then Raise ValueError
  else if negb (activo self) then Ok self
  else
    let movimiento := Vector2D.mul (direccion self) (velocidad self * dt) in
    let self1 :=
      con_base (Figura.con_posicion (Vector2D.add (posicion self) movimiento)
                                    (base self)) self in
    let self2 := con_tiempo_vida (tiempo_vida self1 - dt) self1 in
    Ok (verificar_desactivacion self2).

End Proyectil.

#[export] Instance Proyectil_EsFigura : EsFigura Proyectil.t := Proyectil.base.

(** ** jugador.py *)

Module Jugador.

Record t : Type := mk {
  base : Figura.t;
  velocidad_movimiento : R;
  ultimo_disparo : R;
  cooldown_disparo : R;
  proyectiles : list Proyectil.t
}.

Definition con_base (f : Figura.t) (self : t) : t :=
  mk f (velocidad_movimiento self) (ultimo_disparo self)
     (cooldown_disparo self) (proyectiles self).

Definition con_ultimo_disparo (u : R) (self : t) : t :=
  mk (base self) (velocidad_movimiento self) u
     (cooldown_disparo self) (proyectiles self).

Definition con_proyectiles (ps : list Proyectil.t) (self : t) : t :=
  mk (base self) (velocidad_movimiento self) (ultimo_disparo self)
     (cooldown_disparo self) ps.

Definition activo (self : t) : bool := Figura.activo (base self).
Definition posicion (self : t) : Vector2D.t := Figura.posicion (base self).

(** [__init__] *)
Definition init (pantalla : pygame.Surface) (x y : R) (color : Figura.Color)
  : t :=
  mk (Figura.init pantalla x y color 20) 0.1 0.0 0.3 [].

(** [_mover_hacia_mouse]; [pos_mouse] is what [pygame.mouse.get_pos()]
    returns. *)
Definition mover_hacia_mouse (pos_mouse : Z * Z) (self : t) : t :=
  let objetivo := Vector2D.mk (IZR (fst pos_mouse)) (IZR (snd pos_mouse)) in
  let diferencia := Vector2D.sub objetivo (posicion self) in
  con_base
    (Figura.con_posicion
       (Vector2D.add (posicion self)
                     (Vector2D.mul diferencia (velocidad_movimiento self)))
       (base self))
    self.

(** The loop of [_actualizar_proyectiles] over the copy of the list: each
    projectile is updated, and removed from the list when it is inactive
    afterwards (the objects of the list are pairwise distinct, so
    [list.remove] removes that very one). *)
Fixpoint actualizar_lista (dt : R) (ps : list Proyectil.t)
  : Resultado (list Proyectil.t) :=
  match ps with
  | [] => Ok []
  | proyectil :: resto =>
      proyectil' <- Proyectil.actualizar dt proyectil ;;
      resto' <- actualizar_lista dt resto ;;
      Ok (if Proyectil.activo proyectil' then proyectil' :: resto'
          else resto')
  end.

(** [_actualizar_proyectiles] *)
Definition actualizar_proyectiles (dt : R) (self : t) : Resultado t :=
  ps <- actualizar_lista dt (proyectiles self) ;;
  Ok (con_proyectiles ps self).

Definition actualizar (dt : R) (pos_mouse : Z * Z) (self : t) : Resultado t :=
  if Rle_b dt 0 then Raise ValueError
  else if negb (activo self) then Ok self
  else
    let self1 := mover_hacia_mouse pos_mouse self in
    let self2 := con_base (Figura.mantener_en_pantalla (base self1)) self1 in
    let self3 := con_ultimo_disparo (ultimo_disparo self2 + dt) self2 in
    actualizar_proyectiles dt self3.

Definition disparar (objetivo_pos : R * R) (self : t) : Resultado (bool * t) :=
  if Rlt_b (ultimo_disparo self) (cooldown_disparo self) then Ok (false, self)
  else
    let direccion :=
      Vector2D.mk (fst objetivo_pos - Vector2D.x (posicion self))
                  (snd objetivo_pos - Vector2D.y (posicion self)) in
    proyectil <-
      Proyectil.init (Figura.pantalla (base self))
                     (Vector2D.x (posicion self)) (Vector2D.y (posicion self))
                     direccion Proyectil.velocidad_por_defecto ;;
    let self1 := con_proyectiles (proyectiles self ++ [proyectil]) self in
    let self2 := con_ultimo_disparo 0.0 self1 in
    Ok (true, self2).

(** [obtener_estado_disparo] *)
Definition obtener_estado_disparo (self : t) : bool * R :=
  let puede_disparar := Rle_b (cooldown_disparo self) (ultimo_disparo self) in
  let tiempo_restante := Rmax 0.0 (cooldown_disparo self - ultimo_disparo self) in
  (puede_disparar, tiempo_restante).

End Jugador.

#[export] Instance Jugador_EsFigura : EsFigura Jugador.t := Jugador.base.

(** ** enemigo.py *)

(** A reference to a shared object is the identity of that object; the
    object it denotes is read from the store of whoever owns it. *)
Definition Ref : Type := nat.

Module Enemigo.

Record t : Type := mk {
  base : Figura.t;
  velocidad : R;
  objetivo : option Ref;
  vida : Z;
  vida_maxima : Z;
  tiempo_invulnerable : R;
  color_original : Figura.Color;
  (** [rect.y], which is also [rect.top]; the session passes integers. *)
  rect_y : R
}.

Definition con_base (f : Figura.t) (self : t) : t :=
  mk f (velocidad self) (objetivo self) (vida self) (vida_maxima self)
     (tiempo_invulnerable self) (color_original self) (rect_y self).

Definition con_objetivo (o : option Ref) (self : t) : t :=
  mk (base self) (velocidad self) o (vida self) (vida_maxima self)
     (tiempo_invulnerable self) (color_original self) (rect_y self).

Definition con_vida (v : Z) (self : t) : t :=
  mk (base self) (velocidad self) (objetivo self) v (vida_maxima self)
     (tiempo_invulnerable self) (color_original self) (rect_y self).

Definition con_tiempo_invulnerable (ti : R) (self : t) : t :=
  mk (base self) (velocidad self) (objetivo self) (vida self)
     (vida_maxima self) ti (color_original self) (rect_y self).

Definition con_rect_y (ry : R) (self : t) : t :=
  mk (base self) (velocidad self) (objetivo self) (vida self)
     (vida_maxima self) (tiempo_invulnerable self) (color_original self) ry.

Definition activo (self : t) : bool := Figura.activo (base self).
Definition posicion (self : t) : Vector2D.t := Figura.posicion (base self).

(** [__init__] *)
Definition init (pantalla : pygame.Surface) (x y : R) (color : Figura.Color)
  (radio : Z) : Resultado t :=
  if (radio <=? 0)%Z then Raise ValueError
  else
    Ok (mk (Figura.init pantalla x y color radio) 100.0 None 3 3 0.0 color y).

Definition radio_por_defecto : Z := 20.

Definition establecer_objetivo (objetivo : Ref) (self : t) : t :=
  con_objetivo (Some objetivo) self.

(** [update], the sprite-style method that moves [rect] down. *)
Definition update (self : t) : t :=
  let self1 :=
    con_rect_y (rect_y self + IZR (int_de_float (velocidad self / 60))) self in
  if Rlt_b 600 (rect_y self1)
  then con_base (Figura.con_activo false (base self1)) self1
  else self1.

(** [_actualizar_invulnerabilidad] *)
Definition actualizar_invulnerabilidad (dt : R) (self : t) : t :=
  let '(c0, c1, c2) := color_original self in
  if Rlt_b 0 (tiempo_invulnerable self) then
    let self1 := con_tiempo_invulnerable (tiempo_invulnerable self - dt) self in
    if (int_de_float (tiempo_invulnerable self1 * 10) mod 2 =? 0)%Z then
      con_base
        (Figura.con_color
           (Z.min 255 (c0 + 100), Z.min 255 (c1 + 100), Z.min 255 (c2 + 100))%Z
           (base self1))
        self1
    else con_base (Figura.con_color (color_original self1) (base self1)) self1
  else
    con_base
      (Figura.con_color
         (Z.max 0 (c0 - (3 - vida self) * 75),
          Z.max 0 (c1 - (3 - vida self) * 75),
          Z.max 0 (c2 - (3 - vida self) * 75))%Z
         (base self))
      self.

(** [_perseguir_objetivo]; [leer] dereferences [self.objetivo]. *)
Definition perseguir_objetivo (dt : R) (leer : Ref -> Figura.t) (self : t) : t :=
  match objetivo self with
  | Some r =>
      if Figura.activo (leer r) then
        let direccion :=
          Vector2D.sub (Figura.posicion (leer r)) (posicion self) in
        let magnitud := Vector2D.magnitud direccion in
        if Rlt_b 0 magnitud then
          let direccion_normalizada := Vector2D.normalizar direccion in
          let movimiento :=
            Vector2D.mul direccion_normalizada (velocidad self * dt) in
          con_base
            (Figura.con_posicion (Vector2D.add (posicion self) movimiento)
                                 (base self))
            self
        else self
      else self
  | None => self
  end.

Definition actualizar (dt : R) (leer : Ref -> Figura.t) (self : t)
  : Resultado t :=
  if Rle_b dt 0 then Raise ValueError
  else if negb (activo self) then Ok self
  else
    let self1 := actualizar_invulnerabilidad dt self in
    let self2 := perseguir_objetivo dt leer self1 in
    Ok (con_base (Figura.mantener_en_pantalla (base self2)) self2).

Definition recibir_dano (self : t) : bool * t :=
  if Rle_b (tiempo_invulnerable self) 0 then
    let self1 := con_vida (vida self - 1) self in
    let self2 := con_tiempo_invulnerable 0.5 self1 in
    let self3 :=
      if (vida self2 <=? 0)%Z
      then con_vida 0 (con_base (Figura.con_activo false (base self2)) self2)
      else self2 in
    (true, self3)
  else (false, self).

(** [obtener_estado_vida] *)
Definition obtener_estado_vida (self : t) : Z * Z * R :=
  let porcentaje_vida :=
    if (0 <? vida_maxima self)%Z
    then IZR (vida self) / IZR (vida_maxima self)
    else 0.0 in
  (vida self, vida_maxima self, porcentaje_vida).

End Enemigo.

#[export] Instance Enemigo_EsFigura : EsFigura Enemigo.t := Enemigo.base.

(** ** The module [random] *)

(** What the generator yields on one call of [respawnear_enemigo]: the
    entropy behind the two [random.randint] calls and the [random.choice]
    call. *)
Record Azar : Type := mkAzar { azar_x : Z; azar_y : Z; azar_radio : nat }.

(** [random.randint(a, b)]: some integer of [a..b], an error on an empty
    range. *)
Definition randint (a b : Z) (k : Z) : Resultado Z :=
  if (b <? a)%Z then Raise ValueError else Ok (a + k mod (b - a + 1))%Z.

(** [random.choice(seq)] on a non-empty list. *)
Definition choice (seq : list Z) (k : nat) : Z :=
  nth (k mod length seq) seq 0%Z.

(** ** control_juego.py *)

Module ControlJuego.

(** The enemy objects of a session live in [objetos], indexed by identity;
    [enemigos] and [enemigo] hold identities, so that a mutation made through
    one alias is seen through the other.  [siguiente] is the identity the
    next created enemy gets.  Every enemy's [objetivo] is the one player of
    the session, [ref_jugador]. *)
Record t : Type := mk {
  pantalla : pygame.Surface;
  puntos : Z;
  jugador : Jugador.t;
  objetos : Ref -> Enemigo.t;
  siguiente : Ref;
  enemigos : list Ref;
  enemigo : Ref;
  tiempo_enemigo : R;
  intervalo_enemigo : R;
  jugando : bool;
  tiempo_desde_ultimo_dano : R;
  cooldown_dano : R
}.

Definition ref_jugador : Ref := 0%nat.

Definition con_puntos (p : Z) (self : t) : t :=
  mk (pantalla self) p (jugador self) (objetos self) (siguiente self)
     (enemigos self) (enemigo self) (tiempo_enemigo self)
     (intervalo_enemigo self) (jugando self) (tiempo_desde_ultimo_dano self)
     (cooldown_dano self).

Definition con_jugador (j : Jugador.t) (self : t) : t :=
  mk (pantalla self) (puntos self) j (objetos self) (siguiente self)
     (enemigos self) (enemigo self) (tiempo_enemigo self)
     (intervalo_enemigo self) (jugando self) (tiempo_desde_ultimo_dano self)
     (cooldown_dano self).

Definition con_objetos (h : Ref -> Enemigo.t) (self : t) : t :=
  mk (pantalla self) (puntos self) (jugador self) h (siguiente self)
     (enemigos self) (enemigo self) (tiempo_enemigo self)
     (intervalo_enemigo self) (jugando self) (tiempo_desde_ultimo_dano self)
     (cooldown_dano self).

Definition con_siguiente (n : Ref) (self : t) : t :=
  mk (pantalla self) (puntos self) (jugador self) (objetos self) n
     (enemigos self) (enemigo self) (tiempo_enemigo self)
     (intervalo_enemigo self) (jugando self) (tiempo_desde_ultimo_dano self)
     (cooldown_dano self).

Definition con_enemigos (l : list Ref) (self : t) : t :=
  mk (pantalla self) (puntos self) (jugador self) (objetos self)
     (siguiente self) l (enemigo self) (tiempo_enemigo self)
     (intervalo_enemigo self) (jugando self) (tiempo_desde_ultimo_dano self)
     (cooldown_dano self).

Definition con_enemigo (r : Ref) (self : t) : t :=
  mk (pantalla self) (puntos self) (jugador self) (objetos self)
     (siguiente self) (enemigos self) r (tiempo_enemigo self)
     (intervalo_enemigo self) (jugando self) (tiempo_desde_ultimo_dano self)
     (cooldown_dano self).

Definition con_tiempo_enemigo (v : R) (self : t) : t :=
  mk (pantalla self) (puntos self) (jugador self) (objetos self)
     (siguiente self) (enemigos self) (enemigo self) v
     (intervalo_enemigo self) (jugando self) (tiempo_desde_ultimo_dano self)
     (cooldown_dano self).

Definition con_jugando (b : bool) (self : t) : t :=
  mk (pantalla self) (puntos self) (jugador self) (objetos self)
     (siguiente self) (enemigos self) (enemigo self) (tiempo_enemigo self)
     (intervalo_enemigo self) b (tiempo_desde_ultimo_dano self)
     (cooldown_dano self).

Definition con_tiempo_desde_ultimo_dano (v : R) (self : t) : t :=
  mk (pantalla self) (puntos self) (jugador self) (objetos self)
     (siguiente self) (enemigos self) (enemigo self) (tiempo_enemigo self)
     (intervalo_enemigo self) (jugando self) v (cooldown_dano self).

(** Reading and writing an enemy object through its identity. *)
Definition leer (self : t) (r : Ref) : Enemigo.t := objetos self r.

Definition escribir (r : Ref) (e : Enemigo.t) (self : t) : t :=
  con_objetos (fun r' => if Nat.eqb r' r then e else objetos self r') self.

(** What an enemy's [objetivo] reference denotes: the session's player. *)
Definition leer_objetivo (self : t) (_ : Ref) : Figura.t :=
  Jugador.base (jugador self).

(** [inicializar_juego] *)
Definition inicializar_juego (self : t) : Resultado t :=
  let width := pygame.get_width (pantalla self) in
  let height := pygame.get_height (pantalla self) in
  let self1 :=
    con_jugador
      (Jugador.init (pantalla self) (IZR (width / 4)) (IZR (height / 2))
                    (0, 255, 0)%Z)
      self in
  enemigo_inicial <-
    Enemigo.init (pantalla self1) (IZR (width / 2)) (IZR (height / 4))
                 (255, 0, 0)%Z Enemigo.radio_por_defecto ;;
  let enemigo_inicial := Enemigo.establecer_objetivo ref_jugador enemigo_inicial in
  let r := siguiente self1 in
  let self2 := con_siguiente (S r) (escribir r enemigo_inicial self1) in
  let self3 := con_enemigos (enemigos self2 ++ [r]) self2 in
  Ok (con_enemigo r self3).

(** [__init__].  Before [inicializar_juego] runs there is no player and no
    enemy object; the fields are filled with the objects it then
    overwrites. *)
Definition init (pantalla : pygame.Surface) : Resultado t :=
  let width := pygame.get_width pantalla in
  let height := pygame.get_height pantalla in
  relleno <-
    Enemigo.init pantalla (IZR (width / 2)) (IZR (height / 4)) (255, 0, 0)%Z
                 Enemigo.radio_por_defecto ;;
  inicializar_juego
    (mk pantalla 10
        (Jugador.init pantalla (IZR (width / 4)) (IZR (height / 2)) (0, 255, 0)%Z)
        (fun _ => relleno) 0%nat [] 0%nat 0.0 5.0 true 0.0 1.0).

(** [respawnear_enemigo] *)
Definition respawnear_enemigo (az : Azar) (self : t) : Resultado t :=
  let width := pygame.get_width (pantalla self) in
  let height := pygame.get_height (pantalla self) in
  x <- randint 50 (width - 50) (azar_x az) ;;
  y <- randint 50 (height - 50) (azar_y az) ;;
  nuevo <-
    Enemigo.init (pantalla self) (IZR x) (IZR y) (255, 0, 0)%Z
                 (choice [10; 15; 20; 25; 30]%Z (azar_radio az)) ;;
  let nuevo := Enemigo.establecer_objetivo ref_jugador nuevo in
  let r := siguiente self in
  let self1 := con_siguiente (S r) (escribir r nuevo self) in
  let self2 := con_enemigo r self1 in
  Ok (con_enemigos (enemigos self2 ++ [r]) self2).

(** Events of [pygame.event.get()]. *)
Inductive Evento : Type :=
| QUIT
| MOUSEBUTTONDOWN (button : Z) (pos : Z * Z)
| OtroEvento.

Fixpoint manejar_eventos (eventos : list Evento) (self : t) : Resultado t :=
  match eventos with
  | [] => Ok self
  | event :: resto =>
      self1 <-
        match event with
        | QUIT => Ok (con_jugando false self)
        | MOUSEBUTTONDOWN button pos =>
            if (button =? 1)%Z then
              r <- Jugador.disparar (IZR (fst pos), IZR (snd pos)) (jugador self) ;;
              Ok (con_jugador (snd r) self)
            else Ok self
        | OtroEvento => Ok self
        end ;;
      manejar_eventos resto self1
  end.

(** Step 2 of [actualizar]: [for enemigo in self.enemigos]. *)
Fixpoint actualizar_enemigos (dt : R) (ids : list Ref) (self : t)
  : Resultado t :=
  match ids with
  | [] => Ok self
  | r :: resto =>
      self1 <-
        (if Enemigo.activo (leer self r) then
           e <- Enemigo.actualizar dt (leer_objetivo self) (leer self r) ;;
           Ok (escribir r e self)
         else Ok self) ;;
      actualizar_enemigos dt resto self1
  end.

(** [if otro.recibir_dano(): self.puntos += 2], on the enemy object [r]. *)
Definition golpear (r : Ref) (self : t) : t :=
  let '(danado, e) := Enemigo.recibir_dano (leer self r) in
  let self1 := escribir r e self in
  if danado then con_puntos (puntos self1 + 2) self1 else self1.

(** A loop [for proyectil in self.jugador.proyectiles[:]].  The body gets
    the projectile object and the session and returns both; the projectile
    objects are written back into the player's list at the end.  No body
    reads the player's list. *)
Fixpoint para_cada_proyectil (cuerpo : Proyectil.t -> t -> Proyectil.t * t)
  (ps : list Proyectil.t) (self : t) : list Proyectil.t * t :=
  match ps with
  | [] => ([], self)
  | proyectil :: resto =>
      let '(proyectil1, self1) := cuerpo proyectil self in
      let '(resto1, self2) := para_cada_proyectil cuerpo resto self1 in
      (proyectil1 :: resto1, self2)
  end.

Definition sobre_proyectiles (cuerpo : Proyectil.t -> t -> Proyectil.t * t)
  (self : t) : t :=
  let '(ps, self1) :=
    para_cada_proyectil cuerpo (Jugador.proyectiles (jugador self)) self in
  con_jugador (Jugador.con_proyectiles ps (jugador self1)) self1.

(** [_verificar_colisiones_proyectiles] *)
Definition verificar_colisiones_proyectiles (self : t) : t :=
  sobre_proyectiles
    (fun proyectil self =>
       if colision proyectil (leer self (enemigo self)) then
         (Proyectil.desactivar proyectil, golpear (enemigo self) self)
       else (proyectil, self))
    self.

(** Step 3 of [actualizar], the inner loop [for enemigo in self.enemigos]:
    the assignment [proyectil.activo = False] is at the level of the loop
    body, after the [if]. *)
Fixpoint proyectil_contra_enemigos (ids : list Ref) (proyectil : Proyectil.t)
  (self : t) : Proyectil.t * t :=
  match ids with
  | [] => (proyectil, self)
  | r :: resto =>
      let self1 :=
        if colision proyectil (leer self r) then golpear r self else self in
      let proyectil1 := Proyectil.desactivar proyectil in
      proyectil_contra_enemigos resto proyectil1 self1
  end.

Definition colisiones_proyectiles_enemigos (self : t) : t :=
  sobre_proyectiles
    (fun proyectil self =>
       proyectil_contra_enemigos (enemigos self) proyectil self)
    self.

(** [if self.jugador.colision(e) and tiempo >= cooldown: ...], on the enemy
    object [r]. *)
Definition dano_por_contacto (r : Ref) (self : t) : t :=
  if colision (jugador self) (leer self r)
     && Rle_b (cooldown_dano self) (tiempo_desde_ultimo_dano self)
  then con_tiempo_desde_ultimo_dano 0.0 (con_puntos (puntos self - 2) self)
  else self.

(** [_verificar_colision_jugador_enemigo] *)
Definition verificar_colision_jugador_enemigo (self : t) : t :=
  dano_por_contacto (enemigo self) self.

(** Step 4 of [actualizar]: [for enemigo in self.enemigos]. *)
Fixpoint colisiones_jugador_enemigos (ids : list Ref) (self : t) : t :=
  match ids with
  | [] => self
  | r :: resto => colisiones_jugador_enemigos resto (dano_por_contacto r self)
  end.

(** Steps 1 to 3 of [actualizar], up to the player-enemy collisions. *)
Definition hasta_proyectiles (dt : R) (self : t) : Resultado t :=
  let self1 :=
    con_tiempo_desde_ultimo_dano (tiempo_desde_ultimo_dano self + dt) self in
  self2 <- actualizar_enemigos dt (enemigos self1) self1 ;;
  let self3 := verificar_colisiones_proyectiles self2 in
  Ok (colisiones_proyectiles_enemigos self3).

(** Step 4 of [actualizar]: the helper on [self.enemigo], then the loop. *)
Definition contacto (self : t) : t :=
  let self1 := verificar_colision_jugador_enemigo self in
  colisiones_jugador_enemigos (enemigos self1) self1.

(** Steps 5 and 6 and the rest of [actualizar]. *)
Definition desde_respawn (dt : R) (az1 az2 : Azar) (self : t) : Resultado t :=
  self1 <-
    (if negb (Enemigo.activo (leer self (enemigo self)))
     then respawnear_enemigo az1 self else Ok self) ;;
  let self2 :=
    if (puntos self1 <=? 0)%Z
    then con_puntos 0 (con_jugando false self1)
    else self1 in
  let self3 :=
    con_enemigos
      (filter (fun r => Enemigo.activo (leer self2 r)) (enemigos self2))
      self2 in
  let self4 := con_tiempo_enemigo (tiempo_enemigo self3 + dt) self3 in
  if Rle_b (intervalo_enemigo self4) (tiempo_enemigo self4) then
    self5 <- respawnear_enemigo az2 self4 ;;
    Ok (con_tiempo_enemigo 0.0 self5)
  else Ok self4.

(** [actualizar]; [az1] is what the random generator yields to the
    [respawnear_enemigo] of step 5, [az2] to the one of the spawn interval. *)
Definition actualizar (dt : R) (az1 az2 : Azar) (self : t) : Resultado t :=
  if Rle_b dt 0 then Raise ValueError
  else if negb (jugando self) then Ok self
  else
    self1 <- hasta_proyectiles dt self ;;
    desde_respawn dt az1 az2 (contacto self1).

End ControlJuego.

(** * Sequences of calls *)

(** ** Calls on an enemy object *)

Inductive LlamadaEnemigo : Type :=
| LlamarRecibirDano
| LlamarActualizar (dt : R) (objetivo_ahora : Figura.t)
| LlamarEstablecerObjetivo (objetivo : Ref)
| LlamarUpdate.

(** One call; a call that raises leaves the object as it was (every [raise]
    of the class precedes the first assignment). *)
Definition llamar_enemigo (c : LlamadaEnemigo) (e : Enemigo.t) : Enemigo.t :=
  match c with
  | LlamarRecibirDano => snd (Enemigo.recibir_dano e)
  | LlamarActualizar dt objetivo_ahora =>
      match Enemigo.actualizar dt (fun _ => objetivo_ahora) e with
      | Ok e' => e'
      | Raise _ => e
      end
  | LlamarEstablecerObjetivo objetivo => Enemigo.establecer_objetivo objetivo e
  | LlamarUpdate => Enemigo.update e
  end.

Definition llamar_enemigo_varias (cs : list LlamadaEnemigo) (e : Enemigo.t)
  : Enemigo.t :=
  fold_left (fun e c => llamar_enemigo c e) cs e.

(** The invariant of the hit points: they are in range, and an enemy
    without hit points is inactive and stays invulnerable. *)
Definition vida_en_rango (e : Enemigo.t) : Prop :=
  (0 <= Enemigo.vida e <= Enemigo.vida_maxima e)%Z /\
  (Enemigo.vida e = 0%Z ->
   Enemigo.activo e = false /\ 0 < Enemigo.tiempo_invulnerable e).

(** The call is not an [actualizar] with a frame time above [D]. *)
Definition dt_acotado (D : R) (c : LlamadaEnemigo) : Prop :=
  match c with
  | LlamarActualizar dt _ => dt <= D
  | _ => True
  end.

(** ** Calls on a player object *)

Inductive LlamadaJugador : Type :=
| LlamarActualizarJugador (dt : R) (pos_mouse : Z * Z)
| LlamarDisparar (objetivo_pos : R * R).

(** One call: the object afterwards, and what [disparar] returned. *)
Definition llamar_jugador (c : LlamadaJugador) (j : Jugador.t)
  : Jugador.t * option bool :=
  match c with
  | LlamarActualizarJugador dt pos_mouse =>
      match Jugador.actualizar dt pos_mouse j with
      | Ok j' => (j', None)
      | Raise _ => (j, None)
      end
  | LlamarDisparar objetivo_pos =>
      match Jugador.disparar objetivo_pos j with
      | Ok (r, j') => (j', Some r)
      | Raise _ => (j, None)
      end
  end.

(** A sequence of calls: the object afterwards and the results of the
    [disparar] calls, in order. *)
Fixpoint llamar_jugador_varias (cs : list LlamadaJugador) (j : Jugador.t)
  : Jugador.t * list bool :=
  match cs with
  | [] => (j, [])
  | c :: resto =>
      let '(j1, r) := llamar_jugador c j in
      let '(j2, rs) := llamar_jugador_varias resto j1 in
      (j2, match r with Some b => b :: rs | None => rs end)
  end.

(** The update time a sequence of calls puts on the player: the [dt] of
    the [actualizar] calls that do not raise. *)
Fixpoint tiempo_de_actualizacion (cs : list LlamadaJugador) : R :=
  match cs with
  | [] => 0
  | LlamarActualizarJugador dt _ :: resto =>
      (if Rle_b dt 0 then 0 else dt) + tiempo_de_actualizacion resto
  | LlamarDisparar _ :: resto => tiempo_de_actualizacion resto
  end.

(** ** Sessions *)

(** The sessions a run of the program goes through: the constructed one,
    and those reached by [manejar_eventos] and [actualizar]. *)
Inductive alcanzable (pantalla : pygame.Surface) : ControlJuego.t -> Prop :=
| alcanzable_init s :
    ControlJuego.init pantalla = Ok s -> alcanzable pantalla s
| alcanzable_eventos s eventos s' :
    alcanzable pantalla s ->
    ControlJuego.manejar_eventos eventos s = Ok s' ->
    alcanzable pantalla s'
| alcanzable_actualizar s dt az1 az2 s' :
    alcanzable pantalla s ->
    ControlJuego.actualizar dt az1 az2 s = Ok s' ->
    alcanzable pantalla s'.

(** ** Frames of the steps of [actualizar] *)

(** A projectile object that was at most deactivated. *)
Definition quiza_desactivado (p' p : Proyectil.t) : Prop :=
  p' = p \/ p' = Proyectil.desactivar p.

(** A session in which at most the enemy objects and the score changed. *)
Definition solo_objetos_y_puntos (s s' : ControlJuego.t) : Prop :=
  exists h pt,
    s' = ControlJuego.mk
           (ControlJuego.pantalla s) pt (ControlJuego.jugador s) h
           (ControlJuego.siguiente s) (ControlJuego.enemigos s)
           (ControlJuego.enemigo s) (ControlJuego.tiempo_enemigo s)
           (ControlJuego.intervalo_enemigo s) (ControlJuego.jugando s)
           (ControlJuego.tiempo_desde_ultimo_dano s)
           (ControlJuego.cooldown_dano s).

(** The session after one deduction for contact. *)
Definition descontado (s : ControlJuego.t) : ControlJuego.t :=
  ControlJuego.con_tiempo_desde_ultimo_dano 0.0
    (ControlJuego.con_puntos (ControlJuego.puntos s - 2) s).

(** The screen is large enough for [respawnear_enemigo] to draw a
    position. *)
Definition pantalla_suficiente (p : pygame.Surface) : Prop :=
  (100 <= pygame.get_width p)%Z /\ (100 <= pygame.get_height p)%Z.

(** ** Positions on the screen *)

(** The centre of the figure is at least [radio] away from every edge of
    its screen: where [mantener_en_pantalla] puts it. *)
Definition dentro_de_pantalla (f : Figura.t) : Prop :=
  IZR (Figura.radio f) <= Vector2D.x (Figura.posicion f)
    <= IZR (pygame.get_width (Figura.pantalla f) - Figura.radio f) /\
  IZR (Figura.radio f) <= Vector2D.y (Figura.posicion f)
    <= IZR (pygame.get_height (Figura.pantalla f) - Figura.radio f).

(** The screen of the figure is at least as wide and as high as the
    figure. *)
Definition cabe_en_pantalla (f : Figura.t) : Prop :=
  (2 * Figura.radio f <= pygame.get_width (Figura.pantalla f))%Z /\
  (2 * Figura.radio f <= pygame.get_height (Figura.pantalla f))%Z.

(** The projectile is within the screen widened by its radius on every
    side: where [_verificar_desactivacion] leaves it active. *)
Definition en_pantalla_ampliada (p : Proyectil.t) : Prop :=
  IZR (- Proyectil.radio p) <= Vector2D.x (Proyectil.posicion p)
    <= IZR (pygame.get_width (Figura.pantalla (Proyectil.base p))
            + Proyectil.radio p) /\
  IZR (- Proyectil.radio p) <= Vector2D.y (Proyectil.posicion p)
    <= IZR (pygame.get_height (Figura.pantalla (Proyectil.base p))
            + Proyectil.radio p).

(** ** Colours *)

(** Every channel is a byte. *)
Definition color_valido (c : Figura.Color) : Prop :=
  let '(c0, c1, c2) := c in
  (0 <= c0 <= 255 /\ 0 <= c1 <= 255 /\ 0 <= c2 <= 255)%Z.

(** ** Enemies and events of a session *)

(** The enemy object [respawnear_enemigo] creates at [(x, y)] with the
    radius [radio]: as constructed, with the player as its target. *)
Definition enemigo_de_respawn (pantalla : pygame.Surface) (x y radio : Z)
  : Enemigo.t :=
  Enemigo.establecer_objetivo ControlJuego.ref_jugador
    (Enemigo.mk (Figura.init pantalla (IZR x) (IZR y) (255, 0, 0)%Z radio)
                100.0 None 3 3 0.0 (255, 0, 0)%Z (IZR y)).

(** An enemy that was never hit. *)
Definition enemigo_intacto (e : Enemigo.t) : Prop :=
  Enemigo.activo e = true /\ Enemigo.vida e = 3%Z /\
  Enemigo.tiempo_invulnerable e = 0.

Definition es_QUIT (event : ControlJuego.Evento) : bool :=
  match event with ControlJuego.QUIT => true | _ => false end.

Definition es_clic_izquierdo (event : ControlJuego.Evento) : bool :=
  match event with
  | ControlJuego.MOUSEBUTTONDOWN button _ => (button =? 1)%Z
  | _ => false
  end.

(** The number of active projectiles of a list. *)
Definition cuantos_activos (ps : list Proyectil.t) : Z :=
  Z.of_nat (length (filter Proyectil.activo ps)).

(** ** The player of a session *)

(** The player [inicializar_juego] creates on the screen. *)
Definition jugador_inicial (pantalla : pygame.Surface) : Jugador.t :=
  Jugador.init pantalla (IZR (pygame.get_width pantalla / 4))
               (IZR (pygame.get_height pantalla / 2)) (0, 255, 0)%Z.

(** ** The sessions the program reaches *)

(** What [__init__] establishes and [manejar_eventos] and [actualizar]
    keep: the player is the one created, no enemy object was ever hit, the
    tracked enemy is the last of [enemigos], the score is an even number
    from 0 to 10 that is positive while the session runs, and the spawn
    timer is below the interval of 5 seconds. *)
Definition invariante_de_sesion (pantalla : pygame.Surface)
  (s : ControlJuego.t) : Prop :=
  ControlJuego.jugador s = jugador_inicial pantalla /\
  (forall r, enemigo_intacto (ControlJuego.leer s r)) /\
  (exists l, ControlJuego.enemigos s = l ++ [ControlJuego.enemigo s]) /\
  (0 <= ControlJuego.puntos s <= 10)%Z /\
  Z.even (ControlJuego.puntos s) = true /\
  (ControlJuego.jugando s = true -> (0 < ControlJuego.puntos s)%Z) /\
  ControlJuego.cooldown_dano s = 1 /\
  ControlJuego.intervalo_enemigo s = 5 /\
  0 <= ControlJuego.tiempo_enemigo s < 5.

(** * Sample objects *)

Module Ejemplo.

Definition pantalla : pygame.Surface := pygame.mkSurface 800 600.

Definition rojo : Figura.Color := (255, 0, 0)%Z.
Definition verde : Figura.Color := (0, 255, 0)%Z.

(** A circle of radius 20 on the horizontal axis. *)
Definition circulo (x : R) : Figura.t := Figura.init pantalla x 0 rojo 20.

Definition circulo_inactivo : Figura.t := Figura.con_activo false (circulo 0).

(** A player as constructed, and the same player half a second of update
    later, the cursor resting on it. *)
Definition jugador_nuevo : Jugador.t := Jugador.init pantalla 200 300 verde.

Definition jugador_listo : Jugador.t :=
  Jugador.mk (Figura.init pantalla 200 300 verde 20) 0.1 0.5 0.3 [].

(** Fire attempts around two short updates. *)
Definition llamadas_tempranas : list LlamadaJugador :=
  [ LlamarDisparar (500, 300);
    LlamarActualizarJugador 0.125 (200, 300)%Z;
    LlamarDisparar (500, 300);
    LlamarActualizarJugador 0.125 (200, 300)%Z;
    LlamarDisparar (500, 300) ].

(** Three hits on an enemy, one second apart. *)
Definition llamadas_de_dano : list LlamadaEnemigo :=
  [ LlamarRecibirDano;
    LlamarActualizar 1 (circulo 0);
    LlamarRecibirDano;
    LlamarActualizar 1 (circulo 0);
    LlamarRecibirDano ].

(** An enemy as constructed, and the same enemy after one hit. *)
Definition enemigo_nuevo : Enemigo.t :=
  Enemigo.mk (Figura.init pantalla 400 150 rojo 20) 100.0 None 3 3 0.0 rojo 150.

Definition enemigo_herido : Enemigo.t := snd (Enemigo.recibir_dano enemigo_nuevo).

(** The session as constructed on the 800 x 600 screen. *)
Definition enemigo_inicial : Enemigo.t :=
  Enemigo.establecer_objetivo ControlJuego.ref_jugador enemigo_nuevo.

Definition sesion_nueva : ControlJuego.t :=
  ControlJuego.mk pantalla 10 jugador_nuevo
    (fun r => if Nat.eqb r 0 then enemigo_inicial else enemigo_nuevo)
    1%nat [0%nat] 0%nat 0.0 5.0 true 0.0 1.0.

(** The projectile fired from (200, 300) at (0, 300), the player that fired
    it, and the session with that player. *)
Definition proyectil_lejano : Proyectil.t :=
  Proyectil.mk (Figura.init pantalla 200 300 (255, 255, 0)%Z 5)
               Proyectil.velocidad_por_defecto
               (Vector2D.normalizar (Vector2D.mk (0 - 200) (300 - 300)))
               2.

Definition jugador_armado : Jugador.t :=
  Jugador.mk (Figura.init pantalla 200 300 verde 20) 0.1 0.0 0.3
             [proyectil_lejano].

Definition sesion_armada : ControlJuego.t :=
  ControlJuego.con_jugador jugador_armado sesion_nueva.

Definition azar : Azar := mkAzar 0 0 0.

(** The enemy of the new session after half a second of pursuit, and the
    armed session at the collision steps of a frame with [dt = 0.5]. *)
Definition enemigo_cercano : Enemigo.t :=
  Enemigo.con_base
    (Figura.con_posicion (Vector2D.mk 360 180) (Enemigo.base enemigo_inicial))
    enemigo_inicial.

Definition sesion_en_colisiones : ControlJuego.t :=
  ControlJuego.escribir 0%nat enemigo_cercano
    (ControlJuego.con_tiempo_desde_ultimo_dano (0.0 + 0.5) sesion_armada).

(** The enemy of the new session put on the player, and the session with
    that enemy and a given score. *)
Definition enemigo_encima : Enemigo.t :=
  Enemigo.con_base
    (Figura.con_posicion (Vector2D.mk 200 300) (Enemigo.base enemigo_inicial))
    enemigo_inicial.

Definition sesion_en_contacto (puntos : Z) : ControlJuego.t :=
  ControlJuego.escribir 0%nat enemigo_encima
    (ControlJuego.con_puntos puntos sesion_nueva).

End Ejemplo.

(** * Properties *)

(** ** The boolean comparisons *)

Lemma Rle_b_true (a b : R) : Rle_b a b = true <-> a <= b.
Proof.
  unfold Rle_b. destruct (Rle_dec a b); split; intros; try easy; lra.
Qed.

Lemma Rle_b_false (a b : R) : Rle_b a b = false <-> b < a.
Proof.
  unfold Rle_b. destruct (Rle_dec a b); split; intros; try easy; lra.
Qed.

Lemma Rlt_b_true (a b : R) : Rlt_b a b = true <-> a < b.
Proof.
  unfold Rlt_b. destruct (Rlt_dec a b); split; intros; try easy; lra.
Qed.

Lemma Rlt_b_false (a b : R) : Rlt_b a b = false <-> b <= a.
Proof.
  unfold Rlt_b. destruct (Rlt_dec a b); split; intros; try easy; lra.
Qed.

(** Deciding a comparison between concrete numbers. *)
Ltac comparar :=
  repeat first
    [ rewrite (proj2 (Rle_b_true _ _)) by lra
    | rewrite (proj2 (Rle_b_false _ _)) by lra
    | rewrite (proj2 (Rlt_b_true _ _)) by lra
    | rewrite (proj2 (Rlt_b_false _ _)) by lra ].

(** The square root of a number given as a square. *)
Lemma sqrt_de_cuadrado (a c : R) : 0 <= c -> a = c * c -> sqrt a = c.
Proof. intros Hc ->. now apply sqrt_square. Qed.

(** ** Vectors *)

Lemma magnitud_sub_sym (a b : Vector2D.t) :
  Vector2D.magnitud (Vector2D.sub a b) = Vector2D.magnitud (Vector2D.sub b a).
Proof.
  unfold Vector2D.magnitud, Vector2D.sub; simpl. f_equal. ring.
Qed.

Lemma magnitud_no_negativa (v : Vector2D.t) : 0 <= Vector2D.magnitud v.
Proof. apply sqrt_pos. Qed.

Lemma magnitud_cero (v : Vector2D.t) :
  Vector2D.magnitud v = 0 <-> Vector2D.x v = 0 /\ Vector2D.y v = 0.
Proof.
  unfold Vector2D.magnitud. split.
  - intros H. apply sqrt_eq_0 in H; [nra | nra].
  - intros [-> ->]. replace (0 ^ 2 + 0 ^ 2) with 0 by ring. apply sqrt_0.
Qed.

Lemma magnitud_normalizar (v : Vector2D.t) :
  0 < Vector2D.magnitud v ->
  Vector2D.magnitud (Vector2D.normalizar v) = 1.
Proof.
  intros Hm. unfold Vector2D.normalizar.
  rewrite (proj2 (Rlt_b_true _ _) Hm).
  destruct v as [vx vy].
  unfold Vector2D.magnitud in *; cbn [Vector2D.x Vector2D.y] in *.
  assert (Hs : 0 <= vx ^ 2 + vy ^ 2) by nra.
  pose proof (sqrt_sqrt _ Hs) as Hq.
  remember (sqrt (vx ^ 2 + vy ^ 2)) as m eqn:Em.
  apply sqrt_de_cuadrado; [lra|].
  replace ((vx / m) ^ 2 + (vy / m) ^ 2)
    with ((vx ^ 2 + vy ^ 2) / (m * m)) by (field; lra).
  rewrite Hq. field. nra.
Qed.

Lemma normalizar_cero (v : Vector2D.t) :
  Vector2D.magnitud v = 0 ->
  Vector2D.normalizar v = Vector2D.mk 0 0.
Proof.
  intros Hm. unfold Vector2D.normalizar.
  now rewrite (proj2 (Rlt_b_false _ _)) by lra.
Qed.

(** ** Collision (C8) *)

Lemma Figura_colision_spec (a b : Figura.t) :
  Figura.colision a b = true <->
  Figura.activo a = true /\ Figura.activo b = true /\
  distancia a b <= IZR (Figura.radio a) + IZR (Figura.radio b).
Proof.
  unfold Figura.colision, distancia.
  destruct (Figura.activo a), (Figura.activo b); simpl;
    try (split; [discriminate | intros (? & ? & _); discriminate]).
  rewrite Rle_b_true, plus_IZR. tauto.
Qed.

(** C8: collision is symmetric; it holds exactly when both figures are
    active and the distance between the centres is at most the sum of the
    radii, the boundary included (two circles of radius 20 collide at
    distance 40 and do not at distance 40.01); an inactive figure collides
    with nothing, itself included. *)
Theorem colision_simetrica_e_inclusiva :
  (forall (A B : Type) (FA : EsFigura A) (FB : EsFigura B) (a : A) (b : B),
      colision a b = colision b a) /\
  (forall (A B : Type) (FA : EsFigura A) (FB : EsFigura B) (a : A) (b : B),
      colision a b = true <->
      Figura.activo (figura a) = true /\ Figura.activo (figura b) = true /\
      distancia (figura a) (figura b)
        <= IZR (Figura.radio (figura a)) + IZR (Figura.radio (figura b))) /\
  (forall (A B : Type) (FA : EsFigura A) (FB : EsFigura B) (a : A) (b : B),
      Figura.activo (figura a) = true -> Figura.activo (figura b) = true ->
      Figura.radio (figura a) = 20%Z -> Figura.radio (figura b) = 20%Z ->
      (distancia (figura a) (figura b) = 40 -> colision a b = true) /\
      (distancia (figura a) (figura b) = 40.01 -> colision a b = false)) /\
  (forall (A B : Type) (FA : EsFigura A) (FB : EsFigura B) (a : A) (b : B),
      Figura.activo (figura a) = false ->
      colision a b = false /\ colision b a = false /\ colision a a = false).
Proof.
  split; [|split; [|split]]; intros A B FA FB a b.
  - unfold colision, Figura.colision.
    rewrite (andb_comm (Figura.activo (figura b))).
    rewrite (magnitud_sub_sym (Figura.posicion (figura b))).
    now rewrite (Z.add_comm (Figura.radio (figura b))).
  - apply Figura_colision_spec.
  - intros Ha Hb Ra Rb. split; intros Hd.
    + apply Figura_colision_spec. rewrite Ra, Rb, Hd. repeat split; auto. lra.
    + apply not_true_is_false. intros Hc.
      apply Figura_colision_spec in Hc. rewrite Ra, Rb, Hd in Hc. lra.
  - intros Ha. unfold colision, Figura.colision. rewrite Ha.
    now rewrite andb_false_r.
Qed.

Lemma colision_simetrica_e_inclusiva_testigo :
  Figura.colision (Ejemplo.circulo 0) (Ejemplo.circulo 40) = true /\
  Figura.colision (Ejemplo.circulo 40) (Ejemplo.circulo 0) = true /\
  Figura.colision (Ejemplo.circulo 0) (Ejemplo.circulo 40.01) = false /\
  Figura.colision Ejemplo.circulo_inactivo Ejemplo.circulo_inactivo = false.
Proof.
  destruct colision_simetrica_e_inclusiva as (Hsim & _ & Hborde & Hinactivo).
  assert (H40 : distancia (Ejemplo.circulo 0) (Ejemplo.circulo 40) = 40).
  { unfold distancia, Vector2D.magnitud; simpl.
    apply sqrt_de_cuadrado; lra. }
  assert (H4001 : distancia (Ejemplo.circulo 0) (Ejemplo.circulo 40.01) = 40.01).
  { unfold distancia, Vector2D.magnitud; simpl.
    apply sqrt_de_cuadrado; lra. }
  pose proof (Hborde _ _ _ _ (Ejemplo.circulo 0) (Ejemplo.circulo 40)
                eq_refl eq_refl eq_refl eq_refl) as [Hsi _].
  pose proof (Hborde _ _ _ _ (Ejemplo.circulo 0) (Ejemplo.circulo 40.01)
                eq_refl eq_refl eq_refl eq_refl) as [_ Hno].
  split; [exact (Hsi H40)|].
  split; [rewrite <- (Hsi H40); symmetry; apply (Hsim _ _ _ _ (Ejemplo.circulo 0))|].
  split; [exact (Hno H4001)|].
  exact (proj1 (Hinactivo _ _ _ _ Ejemplo.circulo_inactivo
                  Ejemplo.circulo_inactivo eq_refl)).
Defined.

(** ** Projectiles *)

Lemma Proyectil_init_por_defecto (pantalla : pygame.Surface) (x y : R)
  (d : Vector2D.t) :
  Proyectil.init pantalla x y d Proyectil.velocidad_por_defecto
  = Ok (Proyectil.mk (Figura.init pantalla x y (255, 255, 0)%Z 5)
                     Proyectil.velocidad_por_defecto
                     (Vector2D.normalizar d) 2).
Proof.
  unfold Proyectil.init, Proyectil.velocidad_por_defecto. now comparar.
Qed.

Lemma verificar_desactivacion_direccion (p : Proyectil.t) :
  Proyectil.direccion (Proyectil.verificar_desactivacion p)
  = Proyectil.direccion p.
Proof.
  unfold Proyectil.verificar_desactivacion.
  destruct (negb (Proyectil.activo p)); [reflexivity|].
  match goal with |- context [if ?c then _ else _] => destruct c end;
    reflexivity.
Qed.

Lemma Proyectil_actualizar_direccion (dt : R) (p p' : Proyectil.t) :
  Proyectil.actualizar dt p = Ok p' ->
  Proyectil.direccion p' = Proyectil.direccion p.
Proof.
  unfold Proyectil.actualizar.
  destruct (Rle_b dt 0); [discriminate|].
  destruct (negb (Proyectil.activo p)); intros [= <-]; [reflexivity|].
  now rewrite verificar_desactivacion_direccion.
Qed.

Lemma Proyectil_actualizar_total (dt : R) (p : Proyectil.t) :
  0 < dt -> exists p', Proyectil.actualizar dt p = Ok p'.
Proof.
  intros Hdt. unfold Proyectil.actualizar. comparar.
  destruct (negb (Proyectil.activo p)); eauto.
Qed.

(** ** The player *)

Lemma actualizar_lista_total (dt : R) (ps : list Proyectil.t) :
  0 < dt -> exists ps', Jugador.actualizar_lista dt ps = Ok ps'.
Proof.
  intros Hdt. induction ps as [|p ps [ps' IH]]; simpl; [eauto|].
  destruct (Proyectil_actualizar_total dt p Hdt) as [p' ->]. simpl.
  rewrite IH. simpl. eauto.
Qed.

Lemma actualizar_lista_direccion (dt : R) (ps ps' : list Proyectil.t) :
  Jugador.actualizar_lista dt ps = Ok ps' ->
  forall p', In p' ps' ->
  exists p, In p ps /\ Proyectil.actualizar dt p = Ok p'.
Proof.
  revert ps'. induction ps as [|p ps IH]; simpl; intros ps'.
  - intros [= <-] p' [].
  - destruct (Proyectil.actualizar dt p) as [q|] eqn:Eq; [|discriminate].
    simpl. destruct (Jugador.actualizar_lista dt ps) as [qs|]; [|discriminate].
    simpl. intros [= <-] p' Hin.
    assert (Hcasos : p' = q \/ In p' qs).
    { destruct (Proyectil.activo q); simpl in Hin; intuition. }
    destruct Hcasos as [-> | Hqs]; [eauto|].
    destruct (IH qs eq_refl p' Hqs) as (p0 & Hp0 & Ep0). eauto.
Qed.

Lemma Jugador_actualizar_total (dt : R) (pos_mouse : Z * Z) (j : Jugador.t) :
  0 < dt -> exists j', Jugador.actualizar dt pos_mouse j = Ok j'.
Proof.
  intros Hdt. unfold Jugador.actualizar, Jugador.actualizar_proyectiles.
  comparar. destruct (negb (Jugador.activo j)); [eauto|]. simpl.
  destruct (actualizar_lista_total dt (Jugador.proyectiles j) Hdt) as [ps ->].
  simpl. eauto.
Qed.

(** What [actualizar] does to the shot timer and to the constants. *)
Lemma Jugador_actualizar_ultimo_disparo (dt : R) (pos_mouse : Z * Z)
  (j j' : Jugador.t) :
  Jugador.actualizar dt pos_mouse j = Ok j' ->
  0 < dt /\
  Jugador.cooldown_disparo j' = Jugador.cooldown_disparo j /\
  Jugador.ultimo_disparo j'
  = (if Jugador.activo j then Jugador.ultimo_disparo j + dt
     else Jugador.ultimo_disparo j) /\
  (Jugador.proyectiles j = [] -> Jugador.proyectiles j' = []).
Proof.
  unfold Jugador.actualizar, Jugador.actualizar_proyectiles.
  destruct (Rle_b dt 0) eqn:Edt; [discriminate|].
  apply Rle_b_false in Edt.
  destruct (Jugador.activo j); simpl.
  - destruct (Jugador.actualizar_lista dt (Jugador.proyectiles j))
      as [ps|] eqn:Eps; [|discriminate].
    simpl. intros [= <-]. simpl. repeat split; auto.
    intros Hnil. rewrite Hnil in Eps. simpl in Eps. congruence.
  - intros [= <-]. repeat split; auto.
Qed.

Lemma tiempo_de_actualizacion_no_negativo (cs : list LlamadaJugador) :
  0 <= tiempo_de_actualizacion cs.
Proof.
  induction cs as [|[dt m|o] cs IH]; simpl; [lra| |assumption].
  destruct (Rle_b dt 0) eqn:E; [lra|]. apply Rle_b_false in E. lra.
Qed.

(** Clamping a coordinate that is already inside the screen. *)
Lemma Rmin_Rmax_dentro (lo hi v : R) :
  lo <= v -> v <= hi -> Rmin hi (Rmax lo v) = v.
Proof.
  intros H1 H2. rewrite Rmax_right by assumption. now apply Rmin_right.
Qed.

Lemma jugador_listo_alcanzado :
  Jugador.actualizar 0.5 (200, 300)%Z Ejemplo.jugador_nuevo
  = Ok Ejemplo.jugador_listo.
Proof.
  unfold Jugador.actualizar. comparar. simpl.
  unfold Ejemplo.jugador_listo, Jugador.actualizar_proyectiles,
    Figura.mantener_en_pantalla, Jugador.con_proyectiles,
    Figura.con_posicion, Figura.init; simpl.
  rewrite !Rmin_Rmax_dentro by (simpl; lra).
  do 3 f_equal; [f_equal; f_equal; lra | lra].
Qed.

(** ** Firing (C9) *)

Lemma disparar_en_cooldown (j : Jugador.t) (objetivo_pos : R * R) :
  Jugador.ultimo_disparo j < Jugador.cooldown_disparo j ->
  Jugador.disparar objetivo_pos j = Ok (false, j).
Proof. intros H. unfold Jugador.disparar. now comparar. Qed.

Lemma disparar_listo (j : Jugador.t) (objetivo_pos : R * R) :
  Jugador.cooldown_disparo j <= Jugador.ultimo_disparo j ->
  exists proyectil j',
    Jugador.disparar objetivo_pos j = Ok (true, j') /\
    Jugador.proyectiles j' = Jugador.proyectiles j ++ [proyectil] /\
    Jugador.ultimo_disparo j' = 0 /\
    Jugador.base j' = Jugador.base j /\
    Jugador.cooldown_disparo j' = Jugador.cooldown_disparo j /\
    Jugador.velocidad_movimiento j' = Jugador.velocidad_movimiento j /\
    Proyectil.posicion proyectil = Jugador.posicion j /\
    Proyectil.activo proyectil = true /\
    Proyectil.direccion proyectil
    = Vector2D.normalizar
        (Vector2D.sub (Vector2D.mk (fst objetivo_pos) (snd objetivo_pos))
                      (Jugador.posicion j)).
Proof.
  intros H. unfold Jugador.disparar.
  comparar. rewrite Proyectil_init_por_defecto. simpl.
  eexists _, _. split; [reflexivity|]. simpl.
  repeat split; try reflexivity; try lra.
  destruct (Jugador.posicion j); reflexivity.
Qed.

(** C9: [disparar] returns [False] and changes nothing while
    [ultimo_disparo < cooldown_disparo]; otherwise it creates one projectile
    at the player's position, aimed at the target, appends it to
    [proyectiles], resets [ultimo_disparo] to 0 and returns [True].  It
    never raises. *)
Theorem disparar_respeta_cooldown (j : Jugador.t) (objetivo_pos : R * R) :
  (Jugador.ultimo_disparo j < Jugador.cooldown_disparo j ->
   Jugador.disparar objetivo_pos j = Ok (false, j)) /\
  (Jugador.cooldown_disparo j <= Jugador.ultimo_disparo j ->
   exists proyectil j',
     Jugador.disparar objetivo_pos j = Ok (true, j') /\
     Jugador.proyectiles j' = Jugador.proyectiles j ++ [proyectil] /\
     Jugador.ultimo_disparo j' = 0 /\
     Jugador.base j' = Jugador.base j /\
     Jugador.cooldown_disparo j' = Jugador.cooldown_disparo j /\
     Jugador.velocidad_movimiento j' = Jugador.velocidad_movimiento j /\
     Proyectil.posicion proyectil = Jugador.posicion j /\
     Proyectil.activo proyectil = true /\
     Proyectil.direccion proyectil
     = Vector2D.normalizar
         (Vector2D.sub (Vector2D.mk (fst objetivo_pos) (snd objetivo_pos))
                       (Jugador.posicion j))).
Proof.
  split; [apply disparar_en_cooldown | apply disparar_listo].
Qed.

Lemma disparar_respeta_cooldown_testigo :
  Jugador.disparar (500, 300) Ejemplo.jugador_nuevo
  = Ok (false, Ejemplo.jugador_nuevo) /\
  exists proyectil j',
    Jugador.disparar (500, 300) Ejemplo.jugador_listo = Ok (true, j') /\
    Jugador.proyectiles j' = [proyectil] /\
    Jugador.ultimo_disparo j' = 0 /\
    Proyectil.posicion proyectil = Vector2D.mk 200 300.
Proof.
  split.
  - apply (proj1 (disparar_respeta_cooldown Ejemplo.jugador_nuevo (500, 300))).
    simpl. lra.
  - destruct (proj2 (disparar_respeta_cooldown Ejemplo.jugador_listo (500, 300)))
      as (p & j' & E & Hps & Hu & _ & _ & _ & Hpos & _).
    + simpl. lra.
    + exists p, j'. auto.
Defined.

(** ** A new player cannot fire (C10) *)

Lemma jugador_sin_tiempo_no_dispara (cs : list LlamadaJugador) :
  forall j : Jugador.t,
    Jugador.proyectiles j = [] ->
    Jugador.ultimo_disparo j + tiempo_de_actualizacion cs
      < Jugador.cooldown_disparo j ->
    Forall (fun r => r = false) (snd (llamar_jugador_varias cs j)) /\
    Jugador.proyectiles (fst (llamar_jugador_varias cs j)) = [].
Proof.
  induction cs as [|c cs IH]; intros j Hps Ht; simpl.
  - auto.
  - pose proof (tiempo_de_actualizacion_no_negativo cs) as Hpos.
    destruct c as [dt m|o]; simpl in *.
    + destruct (Jugador.actualizar dt m j) as [j1|] eqn:E.
      * apply Jugador_actualizar_ultimo_disparo in E.
        destruct E as (Hdt & Hc & Hu & Hnil).
        rewrite (proj2 (Rle_b_false dt 0) Hdt) in Ht.
        specialize (IH j1 (Hnil Hps)).
        destruct (llamar_jugador_varias cs j1) as [j2 rs]. simpl in *.
        apply IH. rewrite Hc, Hu. destruct (Jugador.activo j); lra.
      * specialize (IH j Hps).
        destruct (llamar_jugador_varias cs j) as [j2 rs]. simpl in *.
        apply IH. destruct (Rle_b dt 0) eqn:Edt; [lra|].
        apply Rle_b_false in Edt. lra.
    + rewrite (disparar_en_cooldown j o) by lra.
      specialize (IH j Hps).
      destruct (llamar_jugador_varias cs j) as [j2 rs]. simpl in *.
      destruct IH as [Hrs Hj2]; [lra|]. split; auto.
Qed.

(** C10: a player as constructed has [ultimo_disparo = 0.0] and
    [cooldown_disparo = 0.3]; as long as the update time put on it stays
    below 0.3 s, every [disparar] returns [False] and no projectile is
    appended. *)
Theorem jugador_nuevo_no_dispara (pantalla : pygame.Surface) (x y : R)
  (color : Figura.Color) (cs : list LlamadaJugador) :
  Jugador.ultimo_disparo (Jugador.init pantalla x y color) = 0 /\
  Jugador.cooldown_disparo (Jugador.init pantalla x y color) = 0.3 /\
  (tiempo_de_actualizacion cs < 0.3 ->
   Forall (fun r => r = false)
          (snd (llamar_jugador_varias cs (Jugador.init pantalla x y color))) /\
   Jugador.proyectiles
     (fst (llamar_jugador_varias cs (Jugador.init pantalla x y color))) = []).
Proof.
  split; [simpl; lra|]. split; [reflexivity|].
  intros Ht. apply jugador_sin_tiempo_no_dispara; [reflexivity|].
  simpl. lra.
Qed.

Lemma jugador_nuevo_no_dispara_testigo :
  tiempo_de_actualizacion Ejemplo.llamadas_tempranas < 0.3 /\
  Forall (fun r => r = false)
    (snd (llamar_jugador_varias Ejemplo.llamadas_tempranas
            Ejemplo.jugador_nuevo)) /\
  Jugador.proyectiles
    (fst (llamar_jugador_varias Ejemplo.llamadas_tempranas
            Ejemplo.jugador_nuevo)) = [].
Proof.
  assert (Ht : tiempo_de_actualizacion Ejemplo.llamadas_tempranas < 0.3).
  { simpl. comparar. lra. }
  split; [exact Ht|].
  exact (proj2 (proj2 (jugador_nuevo_no_dispara Ejemplo.pantalla 200 300
                         Ejemplo.verde Ejemplo.llamadas_tempranas)) Ht).
Defined.

(** ** Enemies: damage (C4) *)

Lemma recibir_dano_invulnerable (e : Enemigo.t) :
  0 < Enemigo.tiempo_invulnerable e ->
  Enemigo.recibir_dano e = (false, e).
Proof. intros H. unfold Enemigo.recibir_dano. now comparar. Qed.

Lemma recibir_dano_vulnerable (e : Enemigo.t) :
  Enemigo.tiempo_invulnerable e <= 0 ->
  exists e',
    Enemigo.recibir_dano e = (true, e') /\
    Enemigo.tiempo_invulnerable e' = 0.5 /\
    Enemigo.vida_maxima e' = Enemigo.vida_maxima e /\
    Enemigo.vida e' = Z.max 0 (Enemigo.vida e - 1) /\
    Enemigo.activo e'
    = (if (Enemigo.vida e - 1 <=? 0)%Z then false else Enemigo.activo e).
Proof.
  intros H. unfold Enemigo.recibir_dano. comparar. simpl.
  eexists. split; [reflexivity|].
  destruct (Enemigo.vida e - 1 <=? 0)%Z eqn:E; simpl;
    repeat split; try reflexivity.
  - apply Z.leb_le in E. lia.
  - apply Z.leb_gt in E. lia.
Qed.

Lemma recibir_dano_vida_en_rango (e : Enemigo.t) :
  vida_en_rango e -> vida_en_rango (snd (Enemigo.recibir_dano e)).
Proof.
  intros [Hr Ha].
  destruct (Rle_dec (Enemigo.tiempo_invulnerable e) 0) as [Ht|Ht].
  - destruct (recibir_dano_vulnerable e Ht) as (e' & -> & Hti & Hm & Hv & Hact).
    cbn [snd]. unfold vida_en_rango. rewrite Hm, Hv, Hact, Hti.
    destruct (Enemigo.vida e - 1 <=? 0)%Z eqn:E.
    + split; [lia|]. intros _. split; [reflexivity | lra].
    + apply Z.leb_gt in E. split; lia.
  - rewrite recibir_dano_invulnerable by lra. now split.
Qed.

Lemma actualizar_invulnerabilidad_marco (dt : R) (e : Enemigo.t) :
  let e' := Enemigo.actualizar_invulnerabilidad dt e in
  Enemigo.vida e' = Enemigo.vida e /\
  Enemigo.vida_maxima e' = Enemigo.vida_maxima e /\
  Enemigo.activo e' = Enemigo.activo e /\
  Enemigo.objetivo e' = Enemigo.objetivo e /\
  Enemigo.tiempo_invulnerable e'
  = (if Rlt_b 0 (Enemigo.tiempo_invulnerable e)
     then Enemigo.tiempo_invulnerable e - dt
     else Enemigo.tiempo_invulnerable e).
Proof.
  unfold Enemigo.actualizar_invulnerabilidad.
  destruct (Enemigo.color_original e) as [[c0 c1] c2] eqn:Ec.
  destruct (Rlt_b 0 (Enemigo.tiempo_invulnerable e)).
  - match goal with |- context [if ?c then _ else _] => destruct c end;
      simpl; auto.
  - simpl; auto.
Qed.

Lemma perseguir_objetivo_marco (dt : R) (leer : Ref -> Figura.t)
  (e : Enemigo.t) :
  let e' := Enemigo.perseguir_objetivo dt leer e in
  Enemigo.vida e' = Enemigo.vida e /\
  Enemigo.vida_maxima e' = Enemigo.vida_maxima e /\
  Enemigo.activo e' = Enemigo.activo e /\
  Enemigo.tiempo_invulnerable e' = Enemigo.tiempo_invulnerable e.
Proof.
  unfold Enemigo.perseguir_objetivo.
  destruct (Enemigo.objetivo e); [|simpl; auto].
  destruct (Figura.activo (leer r)); [|simpl; auto].
  match goal with |- context [if ?c then _ else _] => destruct c end;
    simpl; auto.
Qed.

(** What [actualizar] leaves alone and what it does to the timer. *)
Lemma Enemigo_actualizar_marco (dt : R) (leer : Ref -> Figura.t)
  (e e' : Enemigo.t) :
  Enemigo.actualizar dt leer e = Ok e' ->
  0 < dt /\
  Enemigo.vida e' = Enemigo.vida e /\
  Enemigo.vida_maxima e' = Enemigo.vida_maxima e /\
  Enemigo.activo e' = Enemigo.activo e /\
  Enemigo.tiempo_invulnerable e'
  = (if Enemigo.activo e && Rlt_b 0 (Enemigo.tiempo_invulnerable e)
     then Enemigo.tiempo_invulnerable e - dt
     else Enemigo.tiempo_invulnerable e).
Proof.
  unfold Enemigo.actualizar.
  destruct (Rle_b dt 0) eqn:Edt; [discriminate|]. apply Rle_b_false in Edt.
  destruct (Enemigo.activo e) eqn:Ea; simpl; intros [= <-].
  - destruct (actualizar_invulnerabilidad_marco dt e) as (H1 & H2 & H3 & _ & H4).
    destruct (perseguir_objetivo_marco dt leer
                (Enemigo.actualizar_invulnerabilidad dt e))
      as (G1 & G2 & G3 & G4).
    simpl. unfold Enemigo.activo in *. simpl.
    repeat split; try congruence.
  - rewrite Ea. auto.
Qed.

Lemma Enemigo_actualizar_total (dt : R) (leer : Ref -> Figura.t)
  (e : Enemigo.t) :
  0 < dt -> exists e', Enemigo.actualizar dt leer e = Ok e'.
Proof.
  intros Hdt. unfold Enemigo.actualizar. comparar.
  destruct (negb (Enemigo.activo e)); eauto.
Qed.

Lemma llamar_enemigo_vida_en_rango (c : LlamadaEnemigo) (e : Enemigo.t) :
  vida_en_rango e -> vida_en_rango (llamar_enemigo c e).
Proof.
  intros He. destruct c as [|dt o|o|]; simpl.
  - now apply recibir_dano_vida_en_rango.
  - destruct (Enemigo.actualizar dt (fun _ => o) e) as [e'|] eqn:E; [|assumption].
    apply Enemigo_actualizar_marco in E. destruct E as (_ & Hv & Hm & Ha & Ht).
    destruct He as [Hr Hi]. unfold vida_en_rango. rewrite Hv, Hm, Ha, Ht.
    split; [exact Hr|]. intros H0. destruct (Hi H0) as [Hina Hpos].
    rewrite Hina. auto.
  - exact He.
  - destruct He as [Hr Hi]. unfold Enemigo.update.
    match goal with |- context [if ?c then _ else _] => destruct c end;
      split; cbn; auto.
    intros H0. destruct (Hi H0) as [_ Hpos]. auto.
Qed.

Lemma llamar_enemigo_varias_vida_en_rango (cs : list LlamadaEnemigo) :
  forall e, vida_en_rango e -> vida_en_rango (llamar_enemigo_varias cs e).
Proof.
  unfold llamar_enemigo_varias.
  induction cs as [|c cs IH]; intros e He; simpl; [assumption|].
  apply IH. now apply llamar_enemigo_vida_en_rango.
Qed.

Lemma Enemigo_init_vida_en_rango (pantalla : pygame.Surface) (x y : R)
  (color : Figura.Color) (radio : Z) (e : Enemigo.t) :
  Enemigo.init pantalla x y color radio = Ok e ->
  vida_en_rango e /\ Enemigo.tiempo_invulnerable e = 0.
Proof.
  unfold Enemigo.init. destruct (radio <=? 0)%Z; [discriminate|].
  intros [= <-]. unfold vida_en_rango; cbn.
  repeat split; try lia; try lra; discriminate.
Qed.

(** A hit on a vulnerable enemy with hit points to spare, then a second of
    update: one hit point less, vulnerable again. *)
Lemma golpe_y_espera (o : Figura.t) (e : Enemigo.t) :
  Enemigo.activo e = true ->
  Enemigo.tiempo_invulnerable e <= 0 ->
  (1 < Enemigo.vida e)%Z ->
  let e' := llamar_enemigo (LlamarActualizar 1 o)
              (llamar_enemigo LlamarRecibirDano e) in
  Enemigo.activo e' = true /\
  Enemigo.tiempo_invulnerable e' <= 0 /\
  Enemigo.vida e' = (Enemigo.vida e - 1)%Z.
Proof.
  intros Ha Ht Hv. cbn [llamar_enemigo].
  destruct (recibir_dano_vulnerable e Ht) as (e1 & -> & T1 & _ & V1 & A1).
  cbn [snd].
  destruct (Enemigo_actualizar_total 1 (fun _ => o) e1) as [e2 E2]; [lra|].
  rewrite E2. apply Enemigo_actualizar_marco in E2.
  destruct E2 as (_ & V2 & _ & A2 & T2).
  assert (El : (Enemigo.vida e - 1 <=? 0)%Z = false) by (apply Z.leb_gt; lia).
  rewrite El, Ha in A1.
  rewrite A1, T1, (proj2 (Rlt_b_true 0 0.5)) in T2 by lra. cbn in T2.
  rewrite A2, A1, T2, V2, V1. repeat split; [lra | lia].
Qed.

Lemma enemigo_herido_estado :
  Enemigo.recibir_dano Ejemplo.enemigo_nuevo = (true, Ejemplo.enemigo_herido) /\
  Enemigo.tiempo_invulnerable Ejemplo.enemigo_herido = 0.5 /\
  Enemigo.activo Ejemplo.enemigo_herido = true /\
  Enemigo.vida Ejemplo.enemigo_herido = 2%Z.
Proof.
  assert (Hn : Enemigo.tiempo_invulnerable Ejemplo.enemigo_nuevo <= 0)
    by (cbn; lra).
  destruct (recibir_dano_vulnerable _ Hn) as (e1 & E & Hti & _ & Hv & Ha).
  assert (Eh : Ejemplo.enemigo_herido = e1)
    by (unfold Ejemplo.enemigo_herido; now rewrite E).
  rewrite Eh. repeat split; auto.
Qed.

(** C4: [recibir_dano] returns [False] and changes nothing while
    [tiempo_invulnerable > 0]; otherwise it returns [True], takes one hit
    point, sets [tiempo_invulnerable] to 0.5 and, when the hit points reach
    0, deactivates the enemy and keeps [vida] at 0.  A call right after a
    successful one returns [False].  For every constructed enemy and every
    sequence of calls, [0 <= vida <= vida_maxima] and [vida = 0] implies
    [activo = False]; and a vulnerable one has a hit point left, so that
    the hit takes exactly one. *)
Theorem recibir_dano_correcto :
  (forall e : Enemigo.t,
      0 < Enemigo.tiempo_invulnerable e ->
      Enemigo.recibir_dano e = (false, e)) /\
  (forall e : Enemigo.t,
      Enemigo.tiempo_invulnerable e <= 0 ->
      exists e',
        Enemigo.recibir_dano e = (true, e') /\
        Enemigo.tiempo_invulnerable e' = 0.5 /\
        Enemigo.vida_maxima e' = Enemigo.vida_maxima e /\
        ((1 <= Enemigo.vida e)%Z ->
         Enemigo.vida e' = (Enemigo.vida e - 1)%Z) /\
        ((1 < Enemigo.vida e)%Z -> Enemigo.activo e' = Enemigo.activo e) /\
        ((Enemigo.vida e <= 1)%Z ->
         Enemigo.vida e' = 0%Z /\ Enemigo.activo e' = false) /\
        Enemigo.recibir_dano e' = (false, e')) /\
  (forall (pantalla : pygame.Surface) (x y : R) (color : Figura.Color)
          (radio : Z) (e0 : Enemigo.t) (cs : list LlamadaEnemigo),
      Enemigo.init pantalla x y color radio = Ok e0 ->
      (0 <= Enemigo.vida (llamar_enemigo_varias cs e0)
         <= Enemigo.vida_maxima (llamar_enemigo_varias cs e0))%Z /\
      (Enemigo.vida (llamar_enemigo_varias cs e0) = 0%Z ->
       Enemigo.activo (llamar_enemigo_varias cs e0) = false) /\
      (Enemigo.tiempo_invulnerable (llamar_enemigo_varias cs e0) <= 0 ->
       (1 <= Enemigo.vida (llamar_enemigo_varias cs e0))%Z)).
Proof.
  split; [exact recibir_dano_invulnerable|]. split.
  - intros e Ht.
    destruct (recibir_dano_vulnerable e Ht) as (e' & E & Hti & Hm & Hv & Ha).
    exists e'. rewrite Hv, Ha. repeat split; auto.
    + lia.
    + intros Hvida.
      destruct (Enemigo.vida e - 1 <=? 0)%Z eqn:El; [|reflexivity].
      apply Z.leb_le in El. lia.
    + lia.
    + destruct (Enemigo.vida e - 1 <=? 0)%Z eqn:El; [reflexivity|].
      apply Z.leb_gt in El. lia.
    + apply recibir_dano_invulnerable. lra.
  - intros pantalla x y color radio e0 cs Hinit.
    apply Enemigo_init_vida_en_rango in Hinit.
    destruct (llamar_enemigo_varias_vida_en_rango cs e0 (proj1 Hinit))
      as [Hr Hi].
    split; [exact Hr|]. split; [intros H0; now apply Hi|].
    intros Ht.
    destruct (Z.eq_dec (Enemigo.vida (llamar_enemigo_varias cs e0)) 0)
      as [H0|H0]; [|lia].
    destruct (Hi H0) as [_ Hpos]. lra.
Qed.

Lemma recibir_dano_correcto_testigo :
  Enemigo.recibir_dano Ejemplo.enemigo_herido = (false, Ejemplo.enemigo_herido) /\
  (exists e',
      Enemigo.recibir_dano Ejemplo.enemigo_nuevo = (true, e') /\
      Enemigo.vida e' = 2%Z /\ Enemigo.activo e' = true) /\
  Enemigo.vida (llamar_enemigo_varias Ejemplo.llamadas_de_dano
                  Ejemplo.enemigo_nuevo) = 0%Z /\
  Enemigo.activo (llamar_enemigo_varias Ejemplo.llamadas_de_dano
                    Ejemplo.enemigo_nuevo) = false.
Proof.
  destruct recibir_dano_correcto as (Hinv & Hvul & Hsec).
  destruct enemigo_herido_estado as (Eh & Th & Ah & Vh).
  assert (Hinit : Enemigo.init Ejemplo.pantalla 400 150 Ejemplo.rojo 20
                  = Ok Ejemplo.enemigo_nuevo) by reflexivity.
  split; [apply Hinv; lra|].
  split; [exists Ejemplo.enemigo_herido; auto|].
  assert (Hcero : Enemigo.vida (llamar_enemigo_varias Ejemplo.llamadas_de_dano
                                  Ejemplo.enemigo_nuevo) = 0%Z).
  { unfold llamar_enemigo_varias, Ejemplo.llamadas_de_dano.
    cbn [fold_left].
    destruct (golpe_y_espera (Ejemplo.circulo 0) Ejemplo.enemigo_nuevo)
      as (A1 & T1 & V1); [reflexivity | cbn; lra | cbn; lia |].
    destruct (golpe_y_espera (Ejemplo.circulo 0) _ A1 T1) as (A2 & T2 & V2);
      [rewrite V1; cbn; lia|].
    set (e1 := llamar_enemigo (LlamarActualizar 1 (Ejemplo.circulo 0))
                 (llamar_enemigo LlamarRecibirDano Ejemplo.enemigo_nuevo)) in *.
    set (e2 := llamar_enemigo (LlamarActualizar 1 (Ejemplo.circulo 0))
                 (llamar_enemigo LlamarRecibirDano e1)) in *.
    change (Enemigo.vida (snd (Enemigo.recibir_dano e2)) = 0%Z).
    destruct (Hvul _ T2) as (e' & -> & _ & _ & _ & _ & Hfin & _).
    apply Hfin. rewrite V2, V1. cbn. lia. }
  split; [exact Hcero|].
  exact (proj1 (proj2 (Hsec _ _ _ _ _ _ Ejemplo.llamadas_de_dano Hinit)) Hcero).
Defined.

(** ** Enemies: the invulnerability timer (C6) *)

Lemma llamar_enemigo_tiempo_invulnerable (D : R) (c : LlamadaEnemigo)
  (e : Enemigo.t) :
  0 <= D -> dt_acotado D c ->
  - D <= Enemigo.tiempo_invulnerable e ->
  - D <= Enemigo.tiempo_invulnerable (llamar_enemigo c e).
Proof.
  intros HD Hc He. destruct c as [|dt o|o|]; simpl in *.
  - destruct (Rle_dec (Enemigo.tiempo_invulnerable e) 0) as [Ht|Ht].
    + destruct (recibir_dano_vulnerable e Ht) as (e' & E & T & _).
      rewrite E. cbn [snd]. rewrite T. lra.
    + rewrite recibir_dano_invulnerable by lra. exact He.
  - destruct (Enemigo.actualizar dt (fun _ => o) e) as [e'|] eqn:E; [|exact He].
    apply Enemigo_actualizar_marco in E. destruct E as (Hdt & _ & _ & _ & ->).
    destruct (Enemigo.activo e); simpl; [|exact He].
    destruct (Rlt_b 0 (Enemigo.tiempo_invulnerable e)) eqn:Et; [|exact He].
    apply Rlt_b_true in Et. lra.
  - exact He.
  - unfold Enemigo.update.
    match goal with |- context [if ?c then _ else _] => destruct c end;
      simpl; exact He.
Qed.

Lemma llamar_enemigo_varias_tiempo_invulnerable (D : R)
  (cs : list LlamadaEnemigo) :
  0 <= D -> Forall (dt_acotado D) cs ->
  forall e, - D <= Enemigo.tiempo_invulnerable e ->
            - D <= Enemigo.tiempo_invulnerable (llamar_enemigo_varias cs e).
Proof.
  intros HD Hcs. unfold llamar_enemigo_varias.
  induction Hcs as [|c cs Hc Hcs IH]; intros e He; simpl; [exact He|].
  apply IH. now apply llamar_enemigo_tiempo_invulnerable.
Qed.

(** C6, as the claim states it, fails: a constructed enemy is hit once and
    then updated with [dt = 1]; its [tiempo_invulnerable] ends at -0.5. *)
Lemma tiempo_invulnerable_negativo :
  Enemigo.init Ejemplo.pantalla 400 150 Ejemplo.rojo 20
  = Ok Ejemplo.enemigo_nuevo /\
  Enemigo.recibir_dano Ejemplo.enemigo_nuevo = (true, Ejemplo.enemigo_herido) /\
  exists e',
    Enemigo.actualizar 1 (fun _ => Ejemplo.circulo 0) Ejemplo.enemigo_herido
    = Ok e' /\
    Enemigo.tiempo_invulnerable e' = -0.5 /\
    ~ 0 <= Enemigo.tiempo_invulnerable e'.
Proof.
  split; [reflexivity|].
  destruct enemigo_herido_estado as (Eh & Th & Ah & _).
  split; [exact Eh|].
  destruct (Enemigo_actualizar_total 1 (fun _ => Ejemplo.circulo 0)
              Ejemplo.enemigo_herido) as [e' E']; [lra|].
  exists e'. split; [exact E'|].
  apply Enemigo_actualizar_marco in E'. destruct E' as (_ & _ & _ & _ & Ht).
  rewrite Th, Ah, (proj2 (Rlt_b_true 0 0.5)) in Ht by lra. cbn in Ht.
  rewrite Ht. split; lra.
Qed.

(** C6, amended: the update of an active enemy takes [dt] off
    [tiempo_invulnerable] exactly when it is above 0 beforehand, and the
    result, which is above [-dt], can be negative: there is no clamp at 0.
    Otherwise the update leaves it unchanged.  For a constructed enemy and
    frame times of at most [D], [tiempo_invulnerable >= -D] after every
    sequence of calls. *)
Theorem tiempo_invulnerable_sin_tope :
  (forall (dt : R) (leer : Ref -> Figura.t) (e e' : Enemigo.t),
      Enemigo.actualizar dt leer e = Ok e' ->
      (Enemigo.activo e = true -> 0 < Enemigo.tiempo_invulnerable e ->
       Enemigo.tiempo_invulnerable e' = Enemigo.tiempo_invulnerable e - dt /\
       - dt < Enemigo.tiempo_invulnerable e') /\
      (Enemigo.tiempo_invulnerable e <= 0 ->
       Enemigo.tiempo_invulnerable e' = Enemigo.tiempo_invulnerable e) /\
      (Enemigo.activo e = false ->
       Enemigo.tiempo_invulnerable e' = Enemigo.tiempo_invulnerable e)) /\
  (forall (pantalla : pygame.Surface) (x y : R) (color : Figura.Color)
          (radio : Z) (e0 : Enemigo.t) (D : R) (cs : list LlamadaEnemigo),
      Enemigo.init pantalla x y color radio = Ok e0 ->
      0 <= D -> Forall (dt_acotado D) cs ->
      - D <= Enemigo.tiempo_invulnerable (llamar_enemigo_varias cs e0)).
Proof.
  split.
  - intros dt leer e e' E.
    apply Enemigo_actualizar_marco in E. destruct E as (Hdt & _ & _ & _ & Ht).
    split; [|split].
    + intros Ha Hpos.
      rewrite Ht, Ha, (proj2 (Rlt_b_true _ _) Hpos). cbn [andb].
      split; [reflexivity | lra].
    + intros Hle. rewrite Ht, (proj2 (Rlt_b_false _ _) Hle).
      now rewrite andb_false_r.
    + intros Ha. now rewrite Ht, Ha.
  - intros pantalla x y color radio e0 D cs Hinit HD Hcs.
    apply llamar_enemigo_varias_tiempo_invulnerable; auto.
    apply Enemigo_init_vida_en_rango in Hinit. destruct Hinit as [_ ->]. lra.
Qed.


Lemma tiempo_invulnerable_sin_tope_testigo :
  (exists e',
      Enemigo.actualizar 1 (fun _ => Ejemplo.circulo 0) Ejemplo.enemigo_herido
      = Ok e' /\
      Enemigo.tiempo_invulnerable e'
      = Enemigo.tiempo_invulnerable Ejemplo.enemigo_herido - 1) /\
  - 1 <= Enemigo.tiempo_invulnerable
           (llamar_enemigo_varias Ejemplo.llamadas_de_dano
              Ejemplo.enemigo_nuevo).
Proof.
  destruct tiempo_invulnerable_sin_tope as [Hpaso Hsec].
  destruct enemigo_herido_estado as (_ & Th & Ah & _).
  split.
  - destruct (Enemigo_actualizar_total 1 (fun _ => Ejemplo.circulo 0)
                Ejemplo.enemigo_herido) as [e' E']; [lra|].
    exists e'. split; [exact E'|].
    apply (Hpaso _ _ _ _ E'); [exact Ah | lra].
  - apply (Hsec Ejemplo.pantalla 400 150 Ejemplo.rojo 20%Z
             Ejemplo.enemigo_nuevo 1 Ejemplo.llamadas_de_dano);
      [reflexivity | lra |].
    unfold Ejemplo.llamadas_de_dano.
    repeat constructor; cbn; lra.
Defined.

(** ** The session: what each step of [actualizar] touches *)

Lemma desactivar_idempotente (p : Proyectil.t) :
  Proyectil.desactivar (Proyectil.desactivar p) = Proyectil.desactivar p.
Proof. reflexivity. Qed.

Lemma quiza_desactivado_trans (p2 p1 p0 : Proyectil.t) :
  quiza_desactivado p2 p1 -> quiza_desactivado p1 p0 ->
  quiza_desactivado p2 p0.
Proof.
  unfold quiza_desactivado. intros [-> | ->] [-> | ->]; auto.
Qed.

Lemma solo_objetos_y_puntos_refl (s : ControlJuego.t) :
  solo_objetos_y_puntos s s.
Proof. destruct s. eexists _, _. reflexivity. Qed.

Lemma solo_objetos_y_puntos_trans (s0 s1 s2 : ControlJuego.t) :
  solo_objetos_y_puntos s0 s1 -> solo_objetos_y_puntos s1 s2 ->
  solo_objetos_y_puntos s0 s2.
Proof.
  intros (h1 & p1 & ->) (h2 & p2 & ->). eexists _, _. reflexivity.
Qed.

Lemma golpear_marco (r : Ref) (s : ControlJuego.t) :
  solo_objetos_y_puntos s (ControlJuego.golpear r s).
Proof.
  unfold ControlJuego.golpear.
  destruct (Enemigo.recibir_dano (ControlJuego.leer s r)) as [[|] e];
    eexists _, _; reflexivity.
Qed.

Lemma actualizar_enemigos_marco (dt : R) (ids : list Ref) :
  0 < dt ->
  forall s, exists s',
    ControlJuego.actualizar_enemigos dt ids s = Ok s' /\
    solo_objetos_y_puntos s s' /\
    ControlJuego.puntos s' = ControlJuego.puntos s.
Proof.
  intros Hdt. induction ids as [|r ids IH]; intros s; simpl.
  - exists s. split; [reflexivity|]. split; [apply solo_objetos_y_puntos_refl|reflexivity].
  - destruct (Enemigo.activo (ControlJuego.leer s r)).
    + destruct (Enemigo_actualizar_total dt (ControlJuego.leer_objetivo s)
                  (ControlJuego.leer s r) Hdt) as [e ->]. simpl.
      destruct (IH (ControlJuego.escribir r e s)) as (s' & -> & Hm & Hp).
      exists s'. split; [reflexivity|]. split; [|exact Hp].
      eapply solo_objetos_y_puntos_trans; [|exact Hm].
      eexists _, _. reflexivity.
    + simpl. apply IH.
Qed.

Section BucleDeProyectiles.

Variable cuerpo : Proyectil.t -> ControlJuego.t -> Proyectil.t * ControlJuego.t.

Hypothesis cuerpo_marco :
  forall p s,
    quiza_desactivado (fst (cuerpo p s)) p /\
    solo_objetos_y_puntos s (snd (cuerpo p s)).

Lemma para_cada_proyectil_marco (ps : list Proyectil.t) :
  forall s,
    Forall2 quiza_desactivado
            (fst (ControlJuego.para_cada_proyectil cuerpo ps s)) ps /\
    solo_objetos_y_puntos s (snd (ControlJuego.para_cada_proyectil cuerpo ps s)).
Proof.
  induction ps as [|p ps IH]; intros s; simpl.
  - split; [constructor | apply solo_objetos_y_puntos_refl].
  - destruct (cuerpo_marco p s) as [Hp Hs].
    destruct (cuerpo p s) as [p1 s1]. simpl in *.
    destruct (IH s1) as [Hps Hs1].
    destruct (ControlJuego.para_cada_proyectil cuerpo ps s1) as [ps1 s2].
    simpl in *. split; [now constructor|].
    eapply solo_objetos_y_puntos_trans; eassumption.
Qed.

Lemma sobre_proyectiles_marco (s : ControlJuego.t) :
  exists h pt ps,
    ControlJuego.sobre_proyectiles cuerpo s
    = ControlJuego.mk
        (ControlJuego.pantalla s) pt
        (Jugador.con_proyectiles ps (ControlJuego.jugador s)) h
        (ControlJuego.siguiente s) (ControlJuego.enemigos s)
        (ControlJuego.enemigo s) (ControlJuego.tiempo_enemigo s)
        (ControlJuego.intervalo_enemigo s) (ControlJuego.jugando s)
        (ControlJuego.tiempo_desde_ultimo_dano s)
        (ControlJuego.cooldown_dano s) /\
    Forall2 quiza_desactivado ps
            (Jugador.proyectiles (ControlJuego.jugador s)) /\
    ps = fst (ControlJuego.para_cada_proyectil cuerpo
                (Jugador.proyectiles (ControlJuego.jugador s)) s).
Proof.
  unfold ControlJuego.sobre_proyectiles.
  destruct (para_cada_proyectil_marco
              (Jugador.proyectiles (ControlJuego.jugador s)) s)
    as [Hps (h & pt & E)].
  destruct (ControlJuego.para_cada_proyectil cuerpo
              (Jugador.proyectiles (ControlJuego.jugador s)) s)
    as [ps s1].
  simpl in *. subst s1. exists h, pt, ps. auto.
Qed.

End BucleDeProyectiles.

Lemma cuerpo_verificar_marco (p : Proyectil.t) (s : ControlJuego.t) :
  let cuerpo :=
    fun proyectil self =>
      if colision proyectil (ControlJuego.leer self (ControlJuego.enemigo self))
      then (Proyectil.desactivar proyectil,
            ControlJuego.golpear (ControlJuego.enemigo self) self)
      else (proyectil, self) in
  quiza_desactivado (fst (cuerpo p s)) p /\
  solo_objetos_y_puntos s (snd (cuerpo p s)).
Proof.
  cbv beta zeta.
  destruct (colision p (ControlJuego.leer s (ControlJuego.enemigo s))); simpl.
  - split; [now right | apply golpear_marco].
  - split; [now left | apply solo_objetos_y_puntos_refl].
Qed.

Lemma proyectil_contra_enemigos_marco (ids : list Ref) :
  forall p s,
    fst (ControlJuego.proyectil_contra_enemigos ids p s)
    = match ids with [] => p | _ :: _ => Proyectil.desactivar p end /\
    solo_objetos_y_puntos s (snd (ControlJuego.proyectil_contra_enemigos ids p s)).
Proof.
  induction ids as [|r ids IH]; intros p s; simpl.
  - split; [reflexivity | apply solo_objetos_y_puntos_refl].
  - destruct (IH (Proyectil.desactivar p)
                (if colision p (ControlJuego.leer s r)
                 then ControlJuego.golpear r s else s)) as [Hp Hs].
    split.
    + rewrite Hp. now destruct ids.
    + eapply solo_objetos_y_puntos_trans; [|exact Hs].
      destruct (colision p (ControlJuego.leer s r));
        [apply golpear_marco | apply solo_objetos_y_puntos_refl].
Qed.

Lemma cuerpo_enemigos_marco (p : Proyectil.t) (s : ControlJuego.t) :
  let cuerpo :=
    fun proyectil self =>
      ControlJuego.proyectil_contra_enemigos (ControlJuego.enemigos self)
        proyectil self in
  quiza_desactivado (fst (cuerpo p s)) p /\
  solo_objetos_y_puntos s (snd (cuerpo p s)).
Proof.
  cbv beta zeta.
  destruct (proyectil_contra_enemigos_marco (ControlJuego.enemigos s) p s)
    as [-> Hs].
  split; [|exact Hs]. destruct (ControlJuego.enemigos s); [now left | now right].
Qed.

(** With at least one enemy in the list, the nested loop deactivates every
    projectile it visits. *)
Lemma para_cada_proyectil_desactiva (ps : list Proyectil.t) :
  forall s,
    ControlJuego.enemigos s <> [] ->
    fst (ControlJuego.para_cada_proyectil
           (fun proyectil self =>
              ControlJuego.proyectil_contra_enemigos
                (ControlJuego.enemigos self) proyectil self)
           ps s)
    = map Proyectil.desactivar ps.
Proof.
  induction ps as [|p ps IH]; intros s Hs; simpl; [reflexivity|].
  destruct (proyectil_contra_enemigos_marco (ControlJuego.enemigos s) p s)
    as [Hp (h & pt & E)].
  destruct (ControlJuego.proyectil_contra_enemigos
              (ControlJuego.enemigos s) p s) as [p1 s1].
  simpl in *. specialize (IH s1).
  destruct (ControlJuego.para_cada_proyectil _ ps s1) as [ps1 s2].
  simpl in *. rewrite IH by (subst s1; exact Hs).
  subst p1. destruct (ControlJuego.enemigos s); [congruence | reflexivity].
Qed.

Lemma Forall2_quiza_desactivado_trans (l2 l1 l0 : list Proyectil.t) :
  Forall2 quiza_desactivado l2 l1 -> Forall2 quiza_desactivado l1 l0 ->
  Forall2 quiza_desactivado l2 l0.
Proof.
  intros H21. revert l0.
  induction H21 as [|p2 p1 l2 l1 Hp H21 IH]; intros l0 H10;
    inversion H10; subst; constructor.
  - eapply quiza_desactivado_trans; eassumption.
  - now apply IH.
Qed.

Lemma map_desactivar_quiza (l1 l0 : list Proyectil.t) :
  Forall2 quiza_desactivado l1 l0 ->
  map Proyectil.desactivar l1 = map Proyectil.desactivar l0.
Proof.
  induction 1 as [|p1 p0 l1 l0 Hp _ IH]; simpl; [reflexivity|].
  rewrite IH. destruct Hp as [-> | ->]; reflexivity.
Qed.

(** Steps 1 to 3: the damage timer advances by [dt]; beyond that only the
    enemy objects, the score and the [activo] flag of projectiles change;
    with an enemy in the list, every projectile ends deactivated. *)
Lemma hasta_proyectiles_marco (dt : R) (s : ControlJuego.t) :
  0 < dt ->
  exists s1 h pt ps,
    ControlJuego.hasta_proyectiles dt s = Ok s1 /\
    s1 = ControlJuego.mk
           (ControlJuego.pantalla s) pt
           (Jugador.con_proyectiles ps (ControlJuego.jugador s)) h
           (ControlJuego.siguiente s) (ControlJuego.enemigos s)
           (ControlJuego.enemigo s) (ControlJuego.tiempo_enemigo s)
           (ControlJuego.intervalo_enemigo s) (ControlJuego.jugando s)
           (ControlJuego.tiempo_desde_ultimo_dano s + dt)
           (ControlJuego.cooldown_dano s) /\
    Forall2 quiza_desactivado ps
            (Jugador.proyectiles (ControlJuego.jugador s)) /\
    (ControlJuego.enemigos s <> [] ->
     ps = map Proyectil.desactivar
              (Jugador.proyectiles (ControlJuego.jugador s))).
Proof.
  intros Hdt. unfold ControlJuego.hasta_proyectiles.
  set (s0 := ControlJuego.con_tiempo_desde_ultimo_dano _ s).
  destruct (actualizar_enemigos_marco dt (ControlJuego.enemigos s0) Hdt s0)
    as (s2 & E2 & (h2 & pt2 & Es2) & _).
  rewrite E2. cbn [bind].
  unfold ControlJuego.verificar_colisiones_proyectiles.
  destruct (sobre_proyectiles_marco _ cuerpo_verificar_marco s2)
    as (h3 & pt3 & ps3 & E3 & F3 & _).
  rewrite E3. clear E3.
  unfold ControlJuego.colisiones_proyectiles_enemigos.
  match goal with
  | |- context [ControlJuego.sobre_proyectiles ?c ?s3] =>
      destruct (sobre_proyectiles_marco c cuerpo_enemigos_marco s3)
        as (h4 & pt4 & ps4 & E4 & F4 & Eps4);
      rewrite E4; clear E4
  end.
  cbn in F4, Eps4.
  subst s2. cbn in *.
  eexists _, h4, pt4, ps4. split; [reflexivity|].
  split; [reflexivity|]. split.
  - eapply Forall2_quiza_desactivado_trans; eassumption.
  - intros Hne. rewrite Eps4.
    rewrite para_cada_proyectil_desactiva by exact Hne.
    now apply map_desactivar_quiza.
Qed.

(** ** Contact damage *)

Lemma dano_por_contacto_casos (r : Ref) (s : ControlJuego.t) :
  ControlJuego.dano_por_contacto r s = s \/
  (ControlJuego.dano_por_contacto r s = descontado s /\
   ControlJuego.cooldown_dano s <= ControlJuego.tiempo_desde_ultimo_dano s /\
   colision (ControlJuego.jugador s) (ControlJuego.leer s r) = true).
Proof.
  unfold ControlJuego.dano_por_contacto.
  destruct (colision (ControlJuego.jugador s) (ControlJuego.leer s r));
    [|now left].
  destruct (Rle_b (ControlJuego.cooldown_dano s)
                  (ControlJuego.tiempo_desde_ultimo_dano s)) eqn:E;
    [|now left].
  right. apply Rle_b_true in E. auto.
Qed.

Lemma dano_por_contacto_descontado (r : Ref) (s : ControlJuego.t) :
  0 < ControlJuego.cooldown_dano s ->
  ControlJuego.dano_por_contacto r (descontado s) = descontado s.
Proof.
  intros Hc. unfold ControlJuego.dano_por_contacto.
  replace (Rle_b (ControlJuego.cooldown_dano (descontado s))
                 (ControlJuego.tiempo_desde_ultimo_dano (descontado s)))
    with false.
  - now rewrite andb_false_r.
  - symmetry. apply Rle_b_false. cbn. lra.
Qed.

Lemma colisiones_jugador_enemigos_descontado (ids : list Ref)
  (s : ControlJuego.t) :
  0 < ControlJuego.cooldown_dano s ->
  ControlJuego.colisiones_jugador_enemigos ids (descontado s) = descontado s.
Proof.
  intros Hc. induction ids as [|r ids IH]; simpl; [reflexivity|].
  now rewrite dano_por_contacto_descontado.
Qed.

Lemma colisiones_jugador_enemigos_casos (ids : list Ref) (s : ControlJuego.t) :
  0 < ControlJuego.cooldown_dano s ->
  ControlJuego.colisiones_jugador_enemigos ids s = s \/
  (ControlJuego.colisiones_jugador_enemigos ids s = descontado s /\
   ControlJuego.cooldown_dano s <= ControlJuego.tiempo_desde_ultimo_dano s /\
   exists r, In r ids /\
             colision (ControlJuego.jugador s) (ControlJuego.leer s r) = true).
Proof.
  intros Hc. induction ids as [|r ids IH]; simpl; [now left|].
  destruct (dano_por_contacto_casos r s) as [-> | (-> & Ht & Hcol)].
  - destruct IH as [IH | (E & Ht & r' & Hin & Hcol)]; [now left|].
    right. repeat split; auto. exists r'. auto.
  - right. rewrite colisiones_jugador_enemigos_descontado by exact Hc.
    repeat split; auto. exists r. auto.
Qed.

Lemma contacto_casos (s : ControlJuego.t) :
  0 < ControlJuego.cooldown_dano s ->
  ControlJuego.contacto s = s \/
  (ControlJuego.contacto s = descontado s /\
   ControlJuego.cooldown_dano s <= ControlJuego.tiempo_desde_ultimo_dano s /\
   exists r, (r = ControlJuego.enemigo s \/ In r (ControlJuego.enemigos s)) /\
             colision (ControlJuego.jugador s) (ControlJuego.leer s r) = true).
Proof.
  intros Hc. unfold ControlJuego.contacto,
    ControlJuego.verificar_colision_jugador_enemigo.
  destruct (dano_por_contacto_casos (ControlJuego.enemigo s) s)
    as [-> | (-> & Ht & Hcol)].
  - destruct (colisiones_jugador_enemigos_casos (ControlJuego.enemigos s) s Hc)
      as [E | (E & Ht & r & Hin & Hcol)]; [now left|].
    right. repeat split; auto. exists r. auto.
  - right. change (ControlJuego.enemigos (descontado s))
      with (ControlJuego.enemigos s).
    rewrite colisiones_jugador_enemigos_descontado by exact Hc.
    repeat split; auto. exists (ControlJuego.enemigo s). auto.
Qed.

(** ** Respawn and the end of the frame *)

Lemma choice_radio_positivo (k : nat) :
  (0 < choice [10; 15; 20; 25; 30] k)%Z.
Proof.
  unfold choice. cbn [length].
  pose proof (Nat.mod_upper_bound k 5 ltac:(discriminate)) as Hk.
  destruct (k mod 5)%nat as [|[|[|[|[|n]]]]]; cbn; lia.
Qed.

Lemma respawnear_enemigo_total (az : Azar) (s : ControlJuego.t) :
  pantalla_suficiente (ControlJuego.pantalla s) ->
  exists s', ControlJuego.respawnear_enemigo az s = Ok s'.
Proof.
  intros [Hw Hh]. unfold ControlJuego.respawnear_enemigo, randint, Enemigo.init.
  replace (pygame.get_width (ControlJuego.pantalla s) - 50 <? 50)%Z with false
    by (symmetry; apply Z.ltb_ge; lia).
  replace (pygame.get_height (ControlJuego.pantalla s) - 50 <? 50)%Z with false
    by (symmetry; apply Z.ltb_ge; lia).
  cbn [bind].
  pose proof (choice_radio_positivo (azar_radio az)) as Hr.
  replace (choice [10; 15; 20; 25; 30] (azar_radio az) <=? 0)%Z with false
    by (symmetry; apply Z.leb_gt; lia).
  cbn [bind]. eauto.
Qed.

Lemma respawnear_enemigo_marco (az : Azar) (s s' : ControlJuego.t) :
  ControlJuego.respawnear_enemigo az s = Ok s' ->
  ControlJuego.pantalla s' = ControlJuego.pantalla s /\
  ControlJuego.puntos s' = ControlJuego.puntos s /\
  ControlJuego.jugador s' = ControlJuego.jugador s /\
  ControlJuego.jugando s' = ControlJuego.jugando s /\
  ControlJuego.tiempo_desde_ultimo_dano s'
  = ControlJuego.tiempo_desde_ultimo_dano s /\
  ControlJuego.cooldown_dano s' = ControlJuego.cooldown_dano s /\
  ControlJuego.intervalo_enemigo s' = ControlJuego.intervalo_enemigo s /\
  ControlJuego.enemigos s' = ControlJuego.enemigos s ++ [ControlJuego.siguiente s] /\
  ControlJuego.enemigo s' = ControlJuego.siguiente s.
Proof.
  unfold ControlJuego.respawnear_enemigo.
  destruct (randint 50 _ (azar_x az)) as [x|]; [|discriminate].
  destruct (randint 50 _ (azar_y az)) as [y|]; [|discriminate].
  cbn [bind].
  destruct (Enemigo.init _ _ _ _ _) as [e|]; [|discriminate].
  cbn [bind]. intros [= <-]. cbn. repeat split; reflexivity.
Qed.

(** From step 5 on: the score is floored at 0, [jugando] falls exactly
    when the score was at or below 0, and the player is not touched. *)
Lemma desde_respawn_marco (dt : R) (az1 az2 : Azar) (s s' : ControlJuego.t) :
  ControlJuego.desde_respawn dt az1 az2 s = Ok s' ->
  ControlJuego.pantalla s' = ControlJuego.pantalla s /\
  ControlJuego.jugador s' = ControlJuego.jugador s /\
  ControlJuego.tiempo_desde_ultimo_dano s'
  = ControlJuego.tiempo_desde_ultimo_dano s /\
  ControlJuego.cooldown_dano s' = ControlJuego.cooldown_dano s /\
  ControlJuego.intervalo_enemigo s' = ControlJuego.intervalo_enemigo s /\
  ControlJuego.puntos s'
  = (if (ControlJuego.puntos s <=? 0)%Z then 0%Z else ControlJuego.puntos s) /\
  ControlJuego.jugando s'
  = (if (ControlJuego.puntos s <=? 0)%Z then false else ControlJuego.jugando s).
Proof.
  unfold ControlJuego.desde_respawn.
  set (r1 := if negb _ then _ else _).
  assert (H1 : forall s1, r1 = Ok s1 ->
             ControlJuego.pantalla s1 = ControlJuego.pantalla s /\
             ControlJuego.puntos s1 = ControlJuego.puntos s /\
             ControlJuego.jugador s1 = ControlJuego.jugador s /\
             ControlJuego.jugando s1 = ControlJuego.jugando s /\
             ControlJuego.tiempo_desde_ultimo_dano s1
             = ControlJuego.tiempo_desde_ultimo_dano s /\
             ControlJuego.cooldown_dano s1 = ControlJuego.cooldown_dano s /\
             ControlJuego.intervalo_enemigo s1 = ControlJuego.intervalo_enemigo s).
  { subst r1. intros s1.
    destruct (negb _).
    - intros E. apply respawnear_enemigo_marco in E. tauto.
    - intros [= <-]. tauto. }
  destruct r1 as [s1|]; [|discriminate]. cbn [bind].
  destruct (H1 s1 eq_refl) as (P1 & P2 & P3 & P4 & P5 & P6 & P7).
  rewrite <- P1, <- P2, <- P3, <- P4, <- P5, <- P6, <- P7. clear.
  destruct (ControlJuego.puntos s1 <=? 0)%Z;
    match goal with |- context [if ?c then _ else _] => destruct c end.
  all: try (destruct (ControlJuego.respawnear_enemigo _ _) as [s5|] eqn:E5;
            [|discriminate]; apply respawnear_enemigo_marco in E5;
            cbn in E5; cbn [bind]; intros [= <-]; cbn; tauto).
  all: intros [= <-]; cbn; tauto.
Qed.

Lemma desde_respawn_total (dt : R) (az1 az2 : Azar) (s : ControlJuego.t) :
  pantalla_suficiente (ControlJuego.pantalla s) ->
  exists s', ControlJuego.desde_respawn dt az1 az2 s = Ok s'.
Proof.
  intros Hp. unfold ControlJuego.desde_respawn.
  set (r1 := if negb _ then _ else _).
  assert (H1 : exists s1, r1 = Ok s1 /\
                          ControlJuego.pantalla s1 = ControlJuego.pantalla s).
  { subst r1. destruct (negb _).
    - destruct (respawnear_enemigo_total az1 s Hp) as [s1 E].
      exists s1. split; [exact E|].
      now apply respawnear_enemigo_marco in E.
    - eauto. }
  destruct H1 as (s1 & -> & Hp1). cbn [bind].
  match goal with |- context [if Rle_b ?a ?b then _ else _] =>
    destruct (Rle_b a b) end; [|eauto].
  match goal with |- context [ControlJuego.respawnear_enemigo az2 ?s4] =>
    destruct (respawnear_enemigo_total az2 s4) as [s5 ->] end.
  - destruct (ControlJuego.puntos s1 <=? 0)%Z; cbn; now rewrite Hp1.
  - cbn [bind]. eauto.
Qed.

Lemma contacto_marco (s : ControlJuego.t) :
  ControlJuego.pantalla (ControlJuego.contacto s) = ControlJuego.pantalla s /\
  ControlJuego.jugador (ControlJuego.contacto s) = ControlJuego.jugador s /\
  ControlJuego.cooldown_dano (ControlJuego.contacto s)
  = ControlJuego.cooldown_dano s /\
  ControlJuego.jugando (ControlJuego.contacto s) = ControlJuego.jugando s.
Proof.
  assert (Hd : forall r s0,
             ControlJuego.pantalla (ControlJuego.dano_por_contacto r s0)
             = ControlJuego.pantalla s0 /\
             ControlJuego.jugador (ControlJuego.dano_por_contacto r s0)
             = ControlJuego.jugador s0 /\
             ControlJuego.cooldown_dano (ControlJuego.dano_por_contacto r s0)
             = ControlJuego.cooldown_dano s0 /\
             ControlJuego.jugando (ControlJuego.dano_por_contacto r s0)
             = ControlJuego.jugando s0).
  { intros r s0.
    destruct (dano_por_contacto_casos r s0) as [-> | (-> & _)]; auto. }
  assert (Hl : forall ids s0,
             ControlJuego.pantalla (ControlJuego.colisiones_jugador_enemigos ids s0)
             = ControlJuego.pantalla s0 /\
             ControlJuego.jugador (ControlJuego.colisiones_jugador_enemigos ids s0)
             = ControlJuego.jugador s0 /\
             ControlJuego.cooldown_dano
               (ControlJuego.colisiones_jugador_enemigos ids s0)
             = ControlJuego.cooldown_dano s0 /\
             ControlJuego.jugando (ControlJuego.colisiones_jugador_enemigos ids s0)
             = ControlJuego.jugando s0).
  { induction ids as [|r ids IH]; intros s0; simpl; [auto|].
    destruct (IH (ControlJuego.dano_por_contacto r s0)) as (A & B & C & D).
    destruct (Hd r s0) as (A' & B' & C' & D').
    rewrite A, B, C, D. auto. }
  unfold ControlJuego.contacto, ControlJuego.verificar_colision_jugador_enemigo.
  destruct (Hl (ControlJuego.enemigos
                  (ControlJuego.dano_por_contacto (ControlJuego.enemigo s) s))
               (ControlJuego.dano_por_contacto (ControlJuego.enemigo s) s))
    as (A & B & C & D).
  destruct (Hd (ControlJuego.enemigo s) s) as (A' & B' & C' & D').
  rewrite A, B, C, D. auto.
Qed.

(** ** The whole of [actualizar] *)

Lemma actualizar_dt_no_positivo (dt : R) (az1 az2 : Azar) (s : ControlJuego.t) :
  dt <= 0 -> ControlJuego.actualizar dt az1 az2 s = Raise ValueError.
Proof. intros H. unfold ControlJuego.actualizar. now comparar. Qed.

Lemma actualizar_terminada (dt : R) (az1 az2 : Azar) (s : ControlJuego.t) :
  0 < dt -> ControlJuego.jugando s = false ->
  ControlJuego.actualizar dt az1 az2 s = Ok s.
Proof.
  intros H Hj. unfold ControlJuego.actualizar. comparar. now rewrite Hj.
Qed.

Lemma actualizar_descompuesto (dt : R) (az1 az2 : Azar) (s : ControlJuego.t) :
  0 < dt -> ControlJuego.jugando s = true ->
  ControlJuego.actualizar dt az1 az2 s
  = (s1 <- ControlJuego.hasta_proyectiles dt s ;;
     ControlJuego.desde_respawn dt az1 az2 (ControlJuego.contacto s1)).
Proof.
  intros H Hj. unfold ControlJuego.actualizar. comparar. now rewrite Hj.
Qed.

(** A call of [actualizar] that returns was made with [dt > 0]. *)
Lemma actualizar_Ok_dt (dt : R) (az1 az2 : Azar) (s s' : ControlJuego.t) :
  ControlJuego.actualizar dt az1 az2 s = Ok s' -> 0 < dt.
Proof.
  intros E. destruct (Rle_dec dt 0) as [H|H]; [|lra].
  rewrite actualizar_dt_no_positivo in E by exact H. discriminate.
Qed.

(** What a frame of a running session amounts to. *)
Lemma actualizar_en_curso (dt : R) (az1 az2 : Azar) (s s' : ControlJuego.t) :
  ControlJuego.jugando s = true ->
  ControlJuego.actualizar dt az1 az2 s = Ok s' ->
  exists s1 ps,
    ControlJuego.hasta_proyectiles dt s = Ok s1 /\
    ControlJuego.desde_respawn dt az1 az2 (ControlJuego.contacto s1) = Ok s' /\
    ControlJuego.cooldown_dano s1 = ControlJuego.cooldown_dano s /\
    ControlJuego.tiempo_desde_ultimo_dano s1
    = ControlJuego.tiempo_desde_ultimo_dano s + dt /\
    ControlJuego.pantalla s' = ControlJuego.pantalla s /\
    ControlJuego.cooldown_dano s' = ControlJuego.cooldown_dano s /\
    ControlJuego.jugador s' = Jugador.con_proyectiles ps (ControlJuego.jugador s) /\
    Forall2 quiza_desactivado ps
            (Jugador.proyectiles (ControlJuego.jugador s)) /\
    (ControlJuego.enemigos s <> [] ->
     ps = map Proyectil.desactivar
              (Jugador.proyectiles (ControlJuego.jugador s))) /\
    ControlJuego.puntos s'
    = (if (ControlJuego.puntos (ControlJuego.contacto s1) <=? 0)%Z
       then 0%Z else ControlJuego.puntos (ControlJuego.contacto s1)) /\
    ControlJuego.jugando s'
    = (if (ControlJuego.puntos (ControlJuego.contacto s1) <=? 0)%Z
       then false else true).
Proof.
  intros Hj E. pose proof (actualizar_Ok_dt _ _ _ _ _ E) as Hdt.
  rewrite actualizar_descompuesto in E by assumption.
  destruct (hasta_proyectiles_marco dt s Hdt)
    as (s1 & h & pt & ps & E1 & Es1 & Hps & Hne).
  rewrite E1 in E. cbn [bind] in E.
  pose proof (desde_respawn_marco _ _ _ _ _ E) as (P1 & P2 & _ & P4 & _ & P6 & P7).
  destruct (contacto_marco s1) as (C1 & C2 & C3 & C4).
  assert (F : ControlJuego.cooldown_dano s1 = ControlJuego.cooldown_dano s /\
              ControlJuego.tiempo_desde_ultimo_dano s1
              = ControlJuego.tiempo_desde_ultimo_dano s + dt /\
              ControlJuego.pantalla s1 = ControlJuego.pantalla s /\
              ControlJuego.jugador s1
              = Jugador.con_proyectiles ps (ControlJuego.jugador s) /\
              ControlJuego.jugando s1 = true)
    by (rewrite Es1; cbn; auto).
  destruct F as (F1 & F2 & F3 & F4 & F5).
  exists s1, ps. rewrite P1, P2, P4, P6, P7, C1, C2, C3, C4, F1, F3, F4, F5.
  repeat split; auto.
Qed.

Lemma actualizar_total (dt : R) (az1 az2 : Azar) (s : ControlJuego.t) :
  0 < dt -> pantalla_suficiente (ControlJuego.pantalla s) ->
  exists s', ControlJuego.actualizar dt az1 az2 s = Ok s'.
Proof.
  intros Hdt Hp. destruct (ControlJuego.jugando s) eqn:Hj.
  - rewrite actualizar_descompuesto by assumption.
    destruct (hasta_proyectiles_marco dt s Hdt)
      as (s1 & h & pt & ps & -> & Es1 & _). cbn [bind].
    apply desde_respawn_total.
    destruct (contacto_marco s1) as (-> & _). now rewrite Es1.
  - exists s. now apply actualizar_terminada.
Qed.

Lemma manejar_eventos_marco (eventos : list ControlJuego.Evento) :
  forall s s',
    ControlJuego.manejar_eventos eventos s = Ok s' ->
    ControlJuego.puntos s' = ControlJuego.puntos s /\
    ControlJuego.cooldown_dano s' = ControlJuego.cooldown_dano s /\
    ControlJuego.pantalla s' = ControlJuego.pantalla s /\
    (ControlJuego.jugando s = false -> ControlJuego.jugando s' = false).
Proof.
  induction eventos as [|ev eventos IH]; intros s s'; simpl.
  - intros [= <-]. auto.
  - destruct ev as [|button pos|]; cbn [bind].
    + intros E. apply IH in E. cbn in E. tauto.
    + destruct (button =? 1)%Z; cbn [bind]; [|now apply IH].
      destruct (Jugador.disparar _ _) as [r|]; [|discriminate]. cbn [bind].
      intros E. apply IH in E. cbn in E. tauto.
    + now apply IH.
Qed.

Lemma ControlJuego_init_estado (pantalla : pygame.Surface) :
  exists s,
    ControlJuego.init pantalla = Ok s /\
    ControlJuego.puntos s = 10%Z /\
    ControlJuego.jugando s = true /\
    ControlJuego.cooldown_dano s = 1 /\
    ControlJuego.pantalla s = pantalla.
Proof.
  unfold ControlJuego.init, ControlJuego.inicializar_juego, Enemigo.init.
  cbn. eexists. split; [reflexivity|]. cbn. repeat split. lra.
Qed.

Lemma alcanzable_invariante (pantalla : pygame.Surface) (s : ControlJuego.t) :
  alcanzable pantalla s ->
  (0 <= ControlJuego.puntos s)%Z /\
  ControlJuego.cooldown_dano s = 1 /\
  ControlJuego.pantalla s = pantalla.
Proof.
  induction 1 as [s E | s eventos s' _ IH E | s dt az1 az2 s' _ IH E].
  - destruct (ControlJuego_init_estado pantalla) as (s0 & E0 & P & _ & C & Hp).
    rewrite E in E0. injection E0 as <-. rewrite P. repeat split; auto. lia.
  - apply manejar_eventos_marco in E. destruct E as (-> & -> & -> & _).
    exact IH.
  - destruct (ControlJuego.jugando s) eqn:Hj.
    + destruct (actualizar_en_curso _ _ _ _ _ Hj E)
        as (s1 & ps & _ & _ & _ & _ & Hp & Hc & _ & _ & _ & Hpt & _).
      rewrite Hp, Hc, Hpt. repeat split; try tauto.
      destruct (ControlJuego.puntos (ControlJuego.contacto s1) <=? 0)%Z eqn:El;
        [lia | apply Z.leb_gt in El; lia].
    + rewrite actualizar_terminada in E
        by (auto; eapply actualizar_Ok_dt; eassumption).
      injection E as <-. exact IH.
Qed.

(** A loop over the projectiles of a player who has none does nothing. *)
Lemma sobre_proyectiles_sin_proyectiles
  (cuerpo : Proyectil.t -> ControlJuego.t -> Proyectil.t * ControlJuego.t)
  (s : ControlJuego.t) :
  Jugador.proyectiles (ControlJuego.jugador s) = [] ->
  ControlJuego.sobre_proyectiles cuerpo s = s.
Proof.
  intros H. unfold ControlJuego.sobre_proyectiles. rewrite H.
  cbn [ControlJuego.para_cada_proyectil].
  destruct s as [? ? j ? ? ? ? ? ? ? ? ?].
  cbn [ControlJuego.jugador] in H. destruct j.
  cbn [Jugador.proyectiles] in H. subst. reflexivity.
Qed.

Lemma hasta_proyectiles_sin_proyectiles (dt : R) (s : ControlJuego.t) :
  0 < dt ->
  Jugador.proyectiles (ControlJuego.jugador s) = [] ->
  ControlJuego.hasta_proyectiles dt s
  = ControlJuego.actualizar_enemigos dt (ControlJuego.enemigos s)
      (ControlJuego.con_tiempo_desde_ultimo_dano
         (ControlJuego.tiempo_desde_ultimo_dano s + dt) s).
Proof.
  intros Hdt Hp. unfold ControlJuego.hasta_proyectiles.
  set (s0 := ControlJuego.con_tiempo_desde_ultimo_dano _ s).
  change (ControlJuego.enemigos s0) with (ControlJuego.enemigos s).
  destruct (actualizar_enemigos_marco dt (ControlJuego.enemigos s) Hdt s0)
    as (s2 & E2 & (h & pt & Es2) & _).
  rewrite E2. cbn [bind].
  assert (Hp2 : Jugador.proyectiles (ControlJuego.jugador s2) = [])
    by (rewrite Es2; exact Hp).
  unfold ControlJuego.verificar_colisiones_proyectiles,
    ControlJuego.colisiones_proyectiles_enemigos.
  rewrite (sobre_proyectiles_sin_proyectiles _ s2 Hp2).
  now rewrite (sobre_proyectiles_sin_proyectiles _ s2 Hp2).
Qed.

(** ** The sample session *)

Lemma sesion_nueva_construida :
  ControlJuego.init Ejemplo.pantalla = Ok Ejemplo.sesion_nueva.
Proof. reflexivity. Qed.

Lemma jugador_armado_alcanzado :
  Jugador.disparar (0, 300) Ejemplo.jugador_listo
  = Ok (true, Ejemplo.jugador_armado).
Proof.
  unfold Jugador.disparar.
  replace (Rlt_b _ _) with false by (symmetry; apply Rlt_b_false; cbn; lra).
  rewrite Proyectil_init_por_defecto. reflexivity.
Qed.

Lemma magnitud_hacia_jugador :
  Vector2D.magnitud
    (Vector2D.sub (Vector2D.mk 200 300) (Vector2D.mk 400 150)) = 250.
Proof.
  unfold Vector2D.magnitud, Vector2D.sub. cbn [Vector2D.x Vector2D.y].
  apply sqrt_de_cuadrado; lra.
Qed.

Lemma enemigo_inicial_sin_tinte :
  Enemigo.actualizar_invulnerabilidad 0.5 Ejemplo.enemigo_inicial
  = Ejemplo.enemigo_inicial.
Proof.
  unfold Enemigo.actualizar_invulnerabilidad, Ejemplo.enemigo_inicial,
    Ejemplo.enemigo_nuevo, Enemigo.establecer_objetivo, Enemigo.con_objetivo.
  cbn [Enemigo.color_original Enemigo.tiempo_invulnerable Ejemplo.rojo
       Enemigo.base Enemigo.velocidad Enemigo.vida Enemigo.vida_maxima
       Enemigo.rect_y Enemigo.objetivo].
  replace (Rlt_b 0 0.0) with false by (symmetry; apply Rlt_b_false; lra).
  reflexivity.
Qed.

Lemma enemigo_inicial_persigue :
  Enemigo.perseguir_objetivo 0.5
    (fun _ => Jugador.base Ejemplo.jugador_armado) Ejemplo.enemigo_inicial
  = Ejemplo.enemigo_cercano.
Proof.
  unfold Enemigo.perseguir_objetivo.
  change (Enemigo.objetivo Ejemplo.enemigo_inicial)
    with (Some ControlJuego.ref_jugador).
  change (Figura.activo (Jugador.base Ejemplo.jugador_armado)) with true.
  change (Figura.posicion (Jugador.base Ejemplo.jugador_armado))
    with (Vector2D.mk 200 300).
  change (Enemigo.posicion Ejemplo.enemigo_inicial) with (Vector2D.mk 400 150).
  cbv iota beta zeta.
  rewrite magnitud_hacia_jugador.
  replace (Rlt_b 0 250) with true by (symmetry; apply Rlt_b_true; lra).
  unfold Vector2D.normalizar. rewrite magnitud_hacia_jugador.
  replace (Rlt_b 0 250) with true by (symmetry; apply Rlt_b_true; lra).
  change (Enemigo.velocidad Ejemplo.enemigo_inicial) with 100.0.
  unfold Ejemplo.enemigo_cercano, Enemigo.con_base, Figura.con_posicion,
    Vector2D.add, Vector2D.mul, Vector2D.sub.
  cbn [Vector2D.x Vector2D.y].
  do 2 f_equal. f_equal; lra.
Qed.

Lemma enemigo_inicial_actualizado :
  Enemigo.actualizar 0.5 (fun _ => Jugador.base Ejemplo.jugador_armado)
    Ejemplo.enemigo_inicial
  = Ok Ejemplo.enemigo_cercano.
Proof.
  unfold Enemigo.actualizar.
  replace (Rle_b 0.5 0) with false by (symmetry; apply Rle_b_false; lra).
  change (negb (Enemigo.activo Ejemplo.enemigo_inicial)) with false.
  cbv iota zeta.
  rewrite enemigo_inicial_sin_tinte, enemigo_inicial_persigue.
  unfold Figura.mantener_en_pantalla.
  change (Figura.posicion (Enemigo.base Ejemplo.enemigo_cercano))
    with (Vector2D.mk 360 180).
  change (Figura.radio (Enemigo.base Ejemplo.enemigo_cercano)) with 20%Z.
  change (Figura.pantalla (Enemigo.base Ejemplo.enemigo_cercano))
    with Ejemplo.pantalla.
  cbn [Vector2D.x Vector2D.y pygame.get_width pygame.get_height
       Ejemplo.pantalla].
  rewrite !Rmin_Rmax_dentro by (cbn; lra).
  reflexivity.
Qed.

(** Steps 1 and 2 of the frame on the armed session. *)
Lemma sesion_en_colisiones_alcanzada :
  ControlJuego.actualizar_enemigos 0.5
    (ControlJuego.enemigos Ejemplo.sesion_armada)
    (ControlJuego.con_tiempo_desde_ultimo_dano
       (ControlJuego.tiempo_desde_ultimo_dano Ejemplo.sesion_armada + 0.5)
       Ejemplo.sesion_armada)
  = Ok Ejemplo.sesion_en_colisiones.
Proof.
  change (ControlJuego.enemigos Ejemplo.sesion_armada) with [0%nat].
  cbn [ControlJuego.actualizar_enemigos].
  match goal with
  | |- context [ControlJuego.leer ?s 0%nat] =>
      change (ControlJuego.leer s 0%nat) with Ejemplo.enemigo_inicial;
      change (ControlJuego.leer_objetivo s)
        with (fun _ : Ref => Jugador.base Ejemplo.jugador_armado)
  end.
  change (Enemigo.activo Ejemplo.enemigo_inicial) with true. cbv iota.
  rewrite enemigo_inicial_actualizado. reflexivity.
Qed.

Lemma proyectil_lejano_no_colisiona :
  forall r, In r (ControlJuego.enemigos Ejemplo.sesion_en_colisiones) ->
            colision Ejemplo.proyectil_lejano
                     (ControlJuego.leer Ejemplo.sesion_en_colisiones r) = false.
Proof.
  intros r [<- | []].
  change (ControlJuego.leer Ejemplo.sesion_en_colisiones 0%nat)
    with Ejemplo.enemigo_cercano.
  unfold colision, Figura.colision.
  change (Figura.activo (figura Ejemplo.proyectil_lejano)) with true.
  change (Figura.activo (figura Ejemplo.enemigo_cercano)) with true.
  change (Figura.posicion (figura Ejemplo.proyectil_lejano))
    with (Vector2D.mk 200 300).
  change (Figura.posicion (figura Ejemplo.enemigo_cercano))
    with (Vector2D.mk 360 180).
  change (Figura.radio (figura Ejemplo.proyectil_lejano)) with 5%Z.
  change (Figura.radio (figura Ejemplo.enemigo_cercano)) with 20%Z.
  cbn [andb negb]. apply Rle_b_false.
  unfold Vector2D.magnitud, Vector2D.sub. cbn [Vector2D.x Vector2D.y].
  rewrite (sqrt_de_cuadrado _ 200) by lra. cbn. lra.
Qed.

(** Without a collision with the tracked enemy the helper changes
    nothing. *)
Lemma verificar_colisiones_proyectiles_sin_colision (s : ControlJuego.t) :
  (forall p, In p (Jugador.proyectiles (ControlJuego.jugador s)) ->
             colision p (ControlJuego.leer s (ControlJuego.enemigo s)) = false) ->
  ControlJuego.verificar_colisiones_proyectiles s = s.
Proof.
  intros Hno.
  unfold ControlJuego.verificar_colisiones_proyectiles,
    ControlJuego.sobre_proyectiles.
  set (cuerpo := fun proyectil self => _).
  assert (Hps : forall ps,
             (forall p, In p ps ->
                colision p (ControlJuego.leer s (ControlJuego.enemigo s)) = false) ->
             ControlJuego.para_cada_proyectil cuerpo ps s = (ps, s)).
  { induction ps as [|p ps IH]; intros Hin; cbn [ControlJuego.para_cada_proyectil];
      [reflexivity|].
    unfold cuerpo at 1. rewrite (Hin p) by now left.
    rewrite IH by (intros q Hq; apply Hin; now right). reflexivity. }
  rewrite (Hps _ Hno). destruct s as [? ? [? ? ? ? ?] ? ? ? ? ? ? ? ? ?].
  reflexivity.
Qed.

Lemma quiza_desactivado_cinematica (ps ps0 : list Proyectil.t) :
  Forall2 quiza_desactivado ps ps0 ->
  Forall2 (fun p' p =>
             Proyectil.posicion p' = Proyectil.posicion p /\
             Proyectil.tiempo_vida p' = Proyectil.tiempo_vida p /\
             Proyectil.direccion p' = Proyectil.direccion p)
          ps ps0.
Proof.
  induction 1 as [|p' p ps ps0 [-> | ->] _ IH]; constructor; auto.
Qed.

(** The enemy on the player stays there. *)
Lemma enemigo_encima_actualizado :
  Enemigo.actualizar 1 (fun _ => Jugador.base Ejemplo.jugador_nuevo)
    Ejemplo.enemigo_encima
  = Ok Ejemplo.enemigo_encima.
Proof.
  unfold Enemigo.actualizar.
  replace (Rle_b 1 0) with false by (symmetry; apply Rle_b_false; lra).
  change (negb (Enemigo.activo Ejemplo.enemigo_encima)) with false.
  cbv iota zeta.
  assert (H1 : Enemigo.actualizar_invulnerabilidad 1 Ejemplo.enemigo_encima
               = Ejemplo.enemigo_encima).
  { unfold Enemigo.actualizar_invulnerabilidad, Ejemplo.enemigo_encima,
      Ejemplo.enemigo_inicial, Ejemplo.enemigo_nuevo,
      Enemigo.establecer_objetivo, Enemigo.con_objetivo, Enemigo.con_base.
    cbn [Enemigo.color_original Enemigo.tiempo_invulnerable Ejemplo.rojo
         Enemigo.base Enemigo.velocidad Enemigo.vida Enemigo.vida_maxima
         Enemigo.rect_y Enemigo.objetivo].
    replace (Rlt_b 0 0.0) with false by (symmetry; apply Rlt_b_false; lra).
    reflexivity. }
  rewrite H1.
  assert (H2 : Enemigo.perseguir_objetivo 1
                 (fun _ => Jugador.base Ejemplo.jugador_nuevo)
                 Ejemplo.enemigo_encima
               = Ejemplo.enemigo_encima).
  { unfold Enemigo.perseguir_objetivo.
    change (Enemigo.objetivo Ejemplo.enemigo_encima)
      with (Some ControlJuego.ref_jugador).
    change (Figura.activo (Jugador.base Ejemplo.jugador_nuevo)) with true.
    change (Figura.posicion (Jugador.base Ejemplo.jugador_nuevo))
      with (Vector2D.mk 200 300).
    change (Enemigo.posicion Ejemplo.enemigo_encima) with (Vector2D.mk 200 300).
    cbv iota beta zeta.
    replace (Rlt_b 0 _) with false; [reflexivity|].
    symmetry. apply Rlt_b_false. rewrite (proj2 (magnitud_cero _)); [lra|].
    unfold Vector2D.sub. cbn [Vector2D.x Vector2D.y]. split; lra. }
  rewrite H2.
  unfold Figura.mantener_en_pantalla.
  change (Figura.posicion (Enemigo.base Ejemplo.enemigo_encima))
    with (Vector2D.mk 200 300).
  change (Figura.radio (Enemigo.base Ejemplo.enemigo_encima)) with 20%Z.
  change (Figura.pantalla (Enemigo.base Ejemplo.enemigo_encima))
    with Ejemplo.pantalla.
  cbn [Vector2D.x Vector2D.y pygame.get_width pygame.get_height
       Ejemplo.pantalla].
  rewrite !Rmin_Rmax_dentro by (cbn; lra).
  reflexivity.
Qed.

(** Steps 1 to 4 of a frame of one second on the session with the enemy
    on the player: the contact takes 2 points. *)
Lemma sesion_en_contacto_descuenta (puntos : Z) :
  exists s1,
    ControlJuego.hasta_proyectiles 1 (Ejemplo.sesion_en_contacto puntos)
    = Ok s1 /\
    ControlJuego.puntos (ControlJuego.contacto s1) = (puntos - 2)%Z.
Proof.
  eexists. split.
  - rewrite hasta_proyectiles_sin_proyectiles by (lra || reflexivity).
    change (ControlJuego.enemigos (Ejemplo.sesion_en_contacto puntos))
      with [0%nat].
    cbn [ControlJuego.actualizar_enemigos].
    match goal with
    | |- context [ControlJuego.leer ?s 0%nat] =>
        change (ControlJuego.leer s 0%nat) with Ejemplo.enemigo_encima;
        change (ControlJuego.leer_objetivo s)
          with (fun _ : Ref => Jugador.base Ejemplo.jugador_nuevo)
    end.
    change (Enemigo.activo Ejemplo.enemigo_encima) with true. cbv iota.
    rewrite enemigo_encima_actualizado. cbn [bind]. reflexivity.
  - set (s1 := ControlJuego.escribir _ _ _).
    assert (Hc : ControlJuego.cooldown_dano s1 = 1.0) by reflexivity.
    assert (Ht : ControlJuego.tiempo_desde_ultimo_dano s1 = 0.0 + 1)
      by reflexivity.
    assert (Hcol : colision (ControlJuego.jugador s1)
                     (ControlJuego.leer s1 (ControlJuego.enemigo s1)) = true).
    { change (colision Ejemplo.jugador_nuevo Ejemplo.enemigo_encima = true).
      unfold colision. apply Figura_colision_spec.
      split; [reflexivity|]. split; [reflexivity|].
      unfold distancia.
      change (Figura.posicion (figura Ejemplo.jugador_nuevo))
        with (Vector2D.mk 200 300).
      change (Figura.posicion (figura Ejemplo.enemigo_encima))
        with (Vector2D.mk 200 300).
      change (Figura.radio (figura Ejemplo.jugador_nuevo)) with 20%Z.
      change (Figura.radio (figura Ejemplo.enemigo_encima)) with 20%Z.
      rewrite (proj2 (magnitud_cero _)); [lra|].
      unfold Vector2D.sub. cbn [Vector2D.x Vector2D.y]. split; lra. }
    assert (Hp : ControlJuego.puntos (descontado s1) = (puntos - 2)%Z)
      by reflexivity.
    unfold ControlJuego.contacto,
      ControlJuego.verificar_colision_jugador_enemigo.
    assert (Hd : ControlJuego.dano_por_contacto (ControlJuego.enemigo s1) s1
                 = descontado s1).
    { unfold ControlJuego.dano_por_contacto. rewrite Hcol.
      replace (Rle_b (ControlJuego.cooldown_dano s1)
                     (ControlJuego.tiempo_desde_ultimo_dano s1)) with true
        by (symmetry; apply Rle_b_true; rewrite Hc, Ht; lra).
      reflexivity. }
    rewrite Hd.
    rewrite colisiones_jugador_enemigos_descontado by (rewrite Hc; lra).
    exact Hp.
Qed.

(** Steps 1 to 4 of a frame of half a second on the new session: the
    damage timer has not reached the cooldown, the score stays. *)
Lemma sesion_nueva_sin_contacto :
  exists s1,
    ControlJuego.hasta_proyectiles 0.5 Ejemplo.sesion_nueva = Ok s1 /\
    ControlJuego.puntos (ControlJuego.contacto s1) = 10%Z.
Proof.
  assert (Hdt : 0 < 0.5) by lra.
  rewrite hasta_proyectiles_sin_proyectiles by (exact Hdt || reflexivity).
  destruct (actualizar_enemigos_marco 0.5
              (ControlJuego.enemigos Ejemplo.sesion_nueva) Hdt
              (ControlJuego.con_tiempo_desde_ultimo_dano
                 (ControlJuego.tiempo_desde_ultimo_dano Ejemplo.sesion_nueva
                  + 0.5)
                 Ejemplo.sesion_nueva))
    as (s1 & E1 & (h & pt & Es1) & Hp).
  exists s1. split; [exact E1|].
  assert (Hc : ControlJuego.cooldown_dano s1 = 1.0)
    by (rewrite Es1; reflexivity).
  assert (Ht : ControlJuego.tiempo_desde_ultimo_dano s1 = 0.0 + 0.5)
    by (rewrite Es1; reflexivity).
  change (ControlJuego.puntos s1 = 10%Z) in Hp.
  destruct (contacto_casos s1) as [-> | (_ & Hle & _)];
    [rewrite Hc; lra | exact Hp |].
  rewrite Hc, Ht in Hle. lra.
Qed.

(** ** The player in a frame of the session (C1) *)

(** C1 does not hold of the code: a frame of a running session never runs
    the player's [actualizar].  It leaves the player where it is and
    [ultimo_disparo] as it was, so not increased by [dt]; no projectile is
    moved, aged or removed from the list. *)
Theorem actualizar_no_actualiza_al_jugador (dt : R) (az1 az2 : Azar)
  (s : ControlJuego.t) :
  ControlJuego.jugando s = true ->
  0 < dt ->
  pantalla_suficiente (ControlJuego.pantalla s) ->
  exists s',
    ControlJuego.actualizar dt az1 az2 s = Ok s' /\
    Jugador.base (ControlJuego.jugador s')
    = Jugador.base (ControlJuego.jugador s) /\
    Jugador.ultimo_disparo (ControlJuego.jugador s')
    = Jugador.ultimo_disparo (ControlJuego.jugador s) /\
    Jugador.ultimo_disparo (ControlJuego.jugador s')
    <> Jugador.ultimo_disparo (ControlJuego.jugador s) + dt /\
    Forall2 (fun p' p =>
               Proyectil.posicion p' = Proyectil.posicion p /\
               Proyectil.tiempo_vida p' = Proyectil.tiempo_vida p /\
               Proyectil.direccion p' = Proyectil.direccion p)
            (Jugador.proyectiles (ControlJuego.jugador s'))
            (Jugador.proyectiles (ControlJuego.jugador s)).
Proof.
  intros Hj Hdt Hp.
  destruct (actualizar_total dt az1 az2 s Hdt Hp) as [s' E].
  exists s'. split; [exact E|].
  destruct (actualizar_en_curso _ _ _ _ _ Hj E)
    as (s1 & ps & _ & _ & _ & _ & _ & _ & -> & Hps & _).
  cbn. repeat split; try lra.
  now apply quiza_desactivado_cinematica.
Qed.

Lemma actualizar_no_actualiza_al_jugador_testigo :
  exists s',
    ControlJuego.actualizar 0.5 Ejemplo.azar Ejemplo.azar Ejemplo.sesion_nueva
    = Ok s' /\
    Jugador.ultimo_disparo (ControlJuego.jugador s') = 0 /\
    Jugador.posicion (ControlJuego.jugador s') = Vector2D.mk 200 300 /\
    exists j',
      Jugador.actualizar 0.5 (400, 300)%Z
        (ControlJuego.jugador Ejemplo.sesion_nueva) = Ok j' /\
      Jugador.ultimo_disparo j' = 0.5.
Proof.
  destruct (actualizar_no_actualiza_al_jugador 0.5 Ejemplo.azar Ejemplo.azar
              Ejemplo.sesion_nueva)
    as (s' & E & Hb & Hu & _); [reflexivity | lra | split; cbn; lia |].
  exists s'. split; [exact E|].
  split; [rewrite Hu; cbn; lra|].
  split; [unfold Jugador.posicion; rewrite Hb; reflexivity|].
  destruct (Jugador_actualizar_total 0.5 (400, 300)%Z
              (ControlJuego.jugador Ejemplo.sesion_nueva)) as [j' Ej]; [lra|].
  exists j'. split; [exact Ej|].
  apply Jugador_actualizar_ultimo_disparo in Ej.
  destruct Ej as (_ & _ & -> & _). cbn. lra.
Defined.

(** ** Projectiles in a frame of the session (C2) *)

Lemma colisiones_proyectiles_enemigos_desactiva (s : ControlJuego.t) :
  ControlJuego.enemigos s <> [] ->
  Jugador.proyectiles
    (ControlJuego.jugador (ControlJuego.colisiones_proyectiles_enemigos s))
  = map Proyectil.desactivar (Jugador.proyectiles (ControlJuego.jugador s)).
Proof.
  intros Hne. unfold ControlJuego.colisiones_proyectiles_enemigos.
  destruct (sobre_proyectiles_marco _ cuerpo_enemigos_marco s)
    as (h & pt & ps & -> & _ & ->).
  cbn. now apply para_cada_proyectil_desactiva.
Qed.

(** C2 does not hold of the code: with at least one enemy in the list, the
    projectile-enemy pass deactivates every projectile of the player, also
    one that collides with no enemy; after the frame all of them are
    inactive. *)
Theorem actualizar_desactiva_todo_proyectil :
  (forall (s : ControlJuego.t) (p : Proyectil.t),
      ControlJuego.enemigos s <> [] ->
      In p (Jugador.proyectiles (ControlJuego.jugador s)) ->
      Proyectil.activo p = true ->
      (forall r, In r (ControlJuego.enemigos s) ->
                 colision p (ControlJuego.leer s r) = false) ->
      In (Proyectil.desactivar p)
         (Jugador.proyectiles
            (ControlJuego.jugador
               (ControlJuego.colisiones_proyectiles_enemigos s))) /\
      Forall (fun p' => Proyectil.activo p' = false)
             (Jugador.proyectiles
                (ControlJuego.jugador
                   (ControlJuego.colisiones_proyectiles_enemigos s)))) /\
  (forall (dt : R) (az1 az2 : Azar) (s : ControlJuego.t),
      ControlJuego.jugando s = true ->
      0 < dt ->
      pantalla_suficiente (ControlJuego.pantalla s) ->
      ControlJuego.enemigos s <> [] ->
      exists s',
        ControlJuego.actualizar dt az1 az2 s = Ok s' /\
        Jugador.proyectiles (ControlJuego.jugador s')
        = map Proyectil.desactivar
              (Jugador.proyectiles (ControlJuego.jugador s)) /\
        Forall (fun p' => Proyectil.activo p' = false)
               (Jugador.proyectiles (ControlJuego.jugador s'))).
Proof.
  assert (Hinactivos : forall ps,
             Forall (fun p' => Proyectil.activo p' = false)
                    (map Proyectil.desactivar ps)).
  { intros ps. apply Forall_forall. intros p' Hin.
    apply in_map_iff in Hin. destruct Hin as (p & <- & _). reflexivity. }
  split.
  - intros s p Hne Hin _ _.
    rewrite colisiones_proyectiles_enemigos_desactiva by exact Hne.
    split; [now apply in_map | apply Hinactivos].
  - intros dt az1 az2 s Hj Hdt Hp Hne.
    destruct (actualizar_total dt az1 az2 s Hdt Hp) as [s' E].
    exists s'. split; [exact E|].
    destruct (actualizar_en_curso _ _ _ _ _ Hj E)
      as (s1 & ps & _ & _ & _ & _ & _ & _ & -> & _ & Hps & _).
    cbn. rewrite (Hps Hne). split; [reflexivity | apply Hinactivos].
Qed.

Lemma actualizar_desactiva_todo_proyectil_testigo :
  ControlJuego.actualizar_enemigos 0.5
    (ControlJuego.enemigos Ejemplo.sesion_armada)
    (ControlJuego.con_tiempo_desde_ultimo_dano
       (ControlJuego.tiempo_desde_ultimo_dano Ejemplo.sesion_armada + 0.5)
       Ejemplo.sesion_armada)
  = Ok Ejemplo.sesion_en_colisiones /\
  ControlJuego.verificar_colisiones_proyectiles Ejemplo.sesion_en_colisiones
  = Ejemplo.sesion_en_colisiones /\
  (forall r, In r (ControlJuego.enemigos Ejemplo.sesion_en_colisiones) ->
             colision Ejemplo.proyectil_lejano
                      (ControlJuego.leer Ejemplo.sesion_en_colisiones r) = false) /\
  In (Proyectil.desactivar Ejemplo.proyectil_lejano)
     (Jugador.proyectiles
        (ControlJuego.jugador
           (ControlJuego.colisiones_proyectiles_enemigos
              Ejemplo.sesion_en_colisiones))) /\
  exists s',
    ControlJuego.actualizar 0.5 Ejemplo.azar Ejemplo.azar Ejemplo.sesion_armada
    = Ok s' /\
    Jugador.proyectiles (ControlJuego.jugador s')
    = [Proyectil.desactivar Ejemplo.proyectil_lejano].
Proof.
  destruct actualizar_desactiva_todo_proyectil as [Hpaso Hcuadro].
  split; [exact sesion_en_colisiones_alcanzada|].
  split.
  { apply verificar_colisiones_proyectiles_sin_colision.
    intros p [<- | []]. apply proyectil_lejano_no_colisiona. now left. }
  split; [exact proyectil_lejano_no_colisiona|].
  split.
  - apply (Hpaso Ejemplo.sesion_en_colisiones Ejemplo.proyectil_lejano).
    + discriminate.
    + now left.
    + reflexivity.
    + exact proyectil_lejano_no_colisiona.
  - destruct (Hcuadro 0.5 Ejemplo.azar Ejemplo.azar Ejemplo.sesion_armada)
      as (s' & E & Hps & _);
      [reflexivity | lra | split; cbn; lia | discriminate |].
    exists s'. split; [exact E | exact Hps].
Defined.

(** ** Contact damage in a frame (C3) *)

(** C3: in a frame of a running session (whose [cooldown_dano] is the 1.0
    of the constructor, as in every session the program reaches), the two
    player-enemy passes together either leave score and damage timer as
    they found them, or take exactly 2 off the score once and reset the
    timer to 0; the latter only if the timer had reached 1.0 and the player
    collides with the tracked enemy or with an enemy of the list. *)
Theorem contacto_descuenta_una_vez :
  (forall (dt : R) (az1 az2 : Azar) (s s' : ControlJuego.t),
      ControlJuego.jugando s = true ->
      ControlJuego.cooldown_dano s = 1 ->
      ControlJuego.actualizar dt az1 az2 s = Ok s' ->
      exists s1,
        ControlJuego.hasta_proyectiles dt s = Ok s1 /\
        ControlJuego.desde_respawn dt az1 az2 (ControlJuego.contacto s1)
        = Ok s' /\
        ((ControlJuego.puntos (ControlJuego.contacto s1)
          = ControlJuego.puntos s1 /\
          ControlJuego.tiempo_desde_ultimo_dano (ControlJuego.contacto s1)
          = ControlJuego.tiempo_desde_ultimo_dano s1) \/
         (ControlJuego.puntos (ControlJuego.contacto s1)
          = (ControlJuego.puntos s1 - 2)%Z /\
          ControlJuego.tiempo_desde_ultimo_dano (ControlJuego.contacto s1) = 0 /\
          1 <= ControlJuego.tiempo_desde_ultimo_dano s1 /\
          exists r,
            (r = ControlJuego.enemigo s1 \/ In r (ControlJuego.enemigos s1)) /\
            colision (ControlJuego.jugador s1) (ControlJuego.leer s1 r) = true))) /\
  (forall (pantalla : pygame.Surface) (s : ControlJuego.t),
      alcanzable pantalla s -> ControlJuego.cooldown_dano s = 1).
Proof.
  split.
  - intros dt az1 az2 s s' Hj Hc E.
    destruct (actualizar_en_curso _ _ _ _ _ Hj E)
      as (s1 & ps & E1 & E2 & Hc1 & _).
    exists s1. split; [exact E1|]. split; [exact E2|].
    rewrite Hc in Hc1.
    destruct (contacto_casos s1) as [-> | (-> & Ht & r & Hr & Hcol)];
      [lra | now left |].
    right. rewrite Hc1 in Ht. cbn. repeat split; auto; try lra.
    exists r. auto.
  - intros pantalla s Hs. now apply alcanzable_invariante in Hs.
Qed.

Lemma contacto_descuenta_una_vez_testigo :
  exists s' s1,
    ControlJuego.actualizar 1 Ejemplo.azar Ejemplo.azar Ejemplo.sesion_nueva
    = Ok s' /\
    ControlJuego.hasta_proyectiles 1 Ejemplo.sesion_nueva = Ok s1 /\
    (ControlJuego.puntos (ControlJuego.contacto s1) = ControlJuego.puntos s1 \/
     ControlJuego.puntos (ControlJuego.contacto s1)
     = (ControlJuego.puntos s1 - 2)%Z).
Proof.
  destruct (actualizar_total 1 Ejemplo.azar Ejemplo.azar Ejemplo.sesion_nueva)
    as [s' E]; [lra | split; cbn; lia |].
  destruct (proj1 contacto_descuenta_una_vez 1 Ejemplo.azar Ejemplo.azar
              Ejemplo.sesion_nueva s')
    as (s1 & E1 & _ & Hcasos); [reflexivity | cbn; lra | exact E |].
  exists s', s1. split; [exact E|]. split; [exact E1|].
  destruct Hcasos as [[Hp _] | [Hp _]]; [now left | now right].
Defined.

(** ** Score and end of the session (C5) *)

(** C5: the score starts at 10; [actualizar] returns for every [dt > 0]
    (on a screen of at least 100 x 100, which the respawn needs); a frame
    of a running session ends with the score that its steps 1 to 4
    computed, hits added and contact damage taken off, floored at 0, and
    with [jugando] false exactly when that computed score is 0 or less,
    which is exactly when the final score is 0; the score of every session
    the program reaches is at least 0; [actualizar] raises on [dt <= 0],
    and on an ended session it otherwise returns the session unchanged; no
    event sets [jugando] back to true. *)
Theorem puntos_y_fin_de_partida :
  (forall pantalla : pygame.Surface,
      exists s,
        ControlJuego.init pantalla = Ok s /\
        ControlJuego.puntos s = 10%Z /\ ControlJuego.jugando s = true) /\
  (forall (dt : R) (az1 az2 : Azar) (s : ControlJuego.t),
      0 < dt ->
      pantalla_suficiente (ControlJuego.pantalla s) ->
      exists s', ControlJuego.actualizar dt az1 az2 s = Ok s') /\
  (forall (dt : R) (az1 az2 : Azar) (s s' : ControlJuego.t),
      ControlJuego.jugando s = true ->
      ControlJuego.actualizar dt az1 az2 s = Ok s' ->
      exists s1,
        ControlJuego.hasta_proyectiles dt s = Ok s1 /\
        ControlJuego.puntos s'
        = Z.max 0 (ControlJuego.puntos (ControlJuego.contacto s1)) /\
        (ControlJuego.jugando s' = false <->
         (ControlJuego.puntos (ControlJuego.contacto s1) <= 0)%Z) /\
        (ControlJuego.jugando s' = true <->
         (0 < ControlJuego.puntos (ControlJuego.contacto s1))%Z) /\
        (0 <= ControlJuego.puntos s')%Z /\
        (ControlJuego.jugando s' = false <-> ControlJuego.puntos s' = 0%Z)) /\
  (forall (pantalla : pygame.Surface) (s : ControlJuego.t),
      alcanzable pantalla s -> (0 <= ControlJuego.puntos s)%Z) /\
  (forall (dt : R) (az1 az2 : Azar) (s : ControlJuego.t),
      dt <= 0 -> ControlJuego.actualizar dt az1 az2 s = Raise ValueError) /\
  (forall (dt : R) (az1 az2 : Azar) (s : ControlJuego.t),
      ControlJuego.jugando s = false ->
      0 < dt ->
      ControlJuego.actualizar dt az1 az2 s = Ok s) /\
  (forall (eventos : list ControlJuego.Evento) (s s' : ControlJuego.t),
      ControlJuego.jugando s = false ->
      ControlJuego.manejar_eventos eventos s = Ok s' ->
      ControlJuego.jugando s' = false).
Proof.
  split.
  { intros pantalla.
    destruct (ControlJuego_init_estado pantalla) as (s & E & P & J & _).
    exists s. auto. }
  split; [exact actualizar_total|].
  split.
  { intros dt az1 az2 s s' Hj E.
    destruct (actualizar_en_curso _ _ _ _ _ Hj E)
      as (s1 & ps & E1 & _ & _ & _ & _ & _ & _ & _ & _ & -> & ->).
    exists s1. split; [exact E1|].
    destruct (ControlJuego.puntos (ControlJuego.contacto s1) <=? 0)%Z eqn:El;
      [apply Z.leb_le in El | apply Z.leb_gt in El].
    - split; [lia|]. split; [tauto|].
      split; [split; [discriminate | lia]|]. split; [lia | tauto].
    - split; [lia|]. split; [split; [discriminate | lia]|].
      split; [tauto|]. split; [lia|]. split; [discriminate | lia]. }
  split.
  { intros pantalla s Hs. now apply alcanzable_invariante in Hs. }
  split; [intros; now apply actualizar_dt_no_positivo|].
  split; [intros; now apply actualizar_terminada|].
  intros eventos s s' Hj E. apply manejar_eventos_marco in E. tauto.
Qed.

Lemma puntos_y_fin_de_partida_testigo :
  (exists s',
      ControlJuego.actualizar 0.5 Ejemplo.azar Ejemplo.azar Ejemplo.sesion_nueva
      = Ok s' /\
      ControlJuego.puntos s' = 10%Z /\ ControlJuego.jugando s' = true) /\
  (exists s',
      ControlJuego.actualizar 1 Ejemplo.azar Ejemplo.azar
        (Ejemplo.sesion_en_contacto 10)
      = Ok s' /\
      ControlJuego.puntos s' = 8%Z /\ ControlJuego.jugando s' = true) /\
  (exists s',
      ControlJuego.actualizar 1 Ejemplo.azar Ejemplo.azar
        (Ejemplo.sesion_en_contacto 2)
      = Ok s' /\
      ControlJuego.puntos s' = 0%Z /\ ControlJuego.jugando s' = false) /\
  (exists s',
      ControlJuego.actualizar 1 Ejemplo.azar Ejemplo.azar
        (Ejemplo.sesion_en_contacto 1)
      = Ok s' /\
      ControlJuego.puntos s' = 0%Z /\ ControlJuego.jugando s' = false) /\
  ControlJuego.actualizar (-1) Ejemplo.azar Ejemplo.azar Ejemplo.sesion_nueva
  = Raise ValueError /\
  ControlJuego.actualizar 1 Ejemplo.azar Ejemplo.azar
    (ControlJuego.con_jugando false Ejemplo.sesion_nueva)
  = Ok (ControlJuego.con_jugando false Ejemplo.sesion_nueva) /\
  (0 <= ControlJuego.puntos Ejemplo.sesion_nueva)%Z.
Proof.
  destruct puntos_y_fin_de_partida
    as (_ & Htotal & Hcuadro & Halc & Hdt & Hfin & _).
  split.
  { destruct (Htotal 0.5 Ejemplo.azar Ejemplo.azar Ejemplo.sesion_nueva)
      as [s' E]; [lra | split; cbn; lia |].
    exists s'. split; [exact E|].
    destruct (Hcuadro 0.5 Ejemplo.azar Ejemplo.azar Ejemplo.sesion_nueva s')
      as (s1 & E1 & Hp & _ & Hj & _); [reflexivity | exact E |].
    destruct sesion_nueva_sin_contacto as (s1' & E1' & Hc).
    rewrite E1 in E1'. injection E1' as <-.
    rewrite Hc in Hp, Hj. split; [rewrite Hp; reflexivity | apply Hj; lia]. }
  split.
  { destruct (Htotal 1 Ejemplo.azar Ejemplo.azar
                (Ejemplo.sesion_en_contacto 10))
      as [s' E]; [lra | split; cbn; lia |].
    exists s'. split; [exact E|].
    destruct (Hcuadro 1 Ejemplo.azar Ejemplo.azar
                (Ejemplo.sesion_en_contacto 10) s')
      as (s1 & E1 & Hp & _ & Hj & _); [reflexivity | exact E |].
    destruct (sesion_en_contacto_descuenta 10) as (s1' & E1' & Hc).
    rewrite E1 in E1'. injection E1' as <-.
    rewrite Hc in Hp, Hj. split; [rewrite Hp; reflexivity | apply Hj; lia]. }
  split.
  { destruct (Htotal 1 Ejemplo.azar Ejemplo.azar
                (Ejemplo.sesion_en_contacto 2))
      as [s' E]; [lra | split; cbn; lia |].
    exists s'. split; [exact E|].
    destruct (Hcuadro 1 Ejemplo.azar Ejemplo.azar
                (Ejemplo.sesion_en_contacto 2) s')
      as (s1 & E1 & Hp & Hj & _); [reflexivity | exact E |].
    destruct (sesion_en_contacto_descuenta 2) as (s1' & E1' & Hc).
    rewrite E1 in E1'. injection E1' as <-.
    rewrite Hc in Hp, Hj. split; [rewrite Hp; reflexivity | apply Hj; lia]. }
  split.
  { destruct (Htotal 1 Ejemplo.azar Ejemplo.azar
                (Ejemplo.sesion_en_contacto 1))
      as [s' E]; [lra | split; cbn; lia |].
    exists s'. split; [exact E|].
    destruct (Hcuadro 1 Ejemplo.azar Ejemplo.azar
                (Ejemplo.sesion_en_contacto 1) s')
      as (s1 & E1 & Hp & Hj & _); [reflexivity | exact E |].
    destruct (sesion_en_contacto_descuenta 1) as (s1' & E1' & Hc).
    rewrite E1 in E1'. injection E1' as <-.
    rewrite Hc in Hp, Hj. split; [rewrite Hp; reflexivity | apply Hj; lia]. }
  split; [apply Hdt; lra|].
  split; [apply Hfin; [reflexivity | lra]|].
  apply (Halc Ejemplo.pantalla). constructor. exact sesion_nueva_construida.
Defined.

(** ** The direction of a projectile (C7) *)

Lemma disparar_exito (objetivo_pos : R * R) (j j' : Jugador.t) :
  Jugador.disparar objetivo_pos j = Ok (true, j') ->
  exists proyectil,
    Jugador.proyectiles j' = Jugador.proyectiles j ++ [proyectil] /\
    Proyectil.direccion proyectil
    = Vector2D.normalizar
        (Vector2D.sub (Vector2D.mk (fst objetivo_pos) (snd objetivo_pos))
                      (Jugador.posicion j)).
Proof.
  intros E.
  destruct (Rlt_dec (Jugador.ultimo_disparo j) (Jugador.cooldown_disparo j))
    as [H|H].
  - rewrite disparar_en_cooldown in E by exact H. discriminate.
  - destruct (disparar_listo j objetivo_pos)
      as (p & j1 & E1 & Hps & _ & _ & _ & _ & _ & _ & Hd); [lra|].
    rewrite E1 in E. injection E as <-. exists p. auto.
Qed.

Lemma magnitud_sub_positiva (a b : Vector2D.t) :
  a <> b -> 0 < Vector2D.magnitud (Vector2D.sub a b).
Proof.
  intros Hab. pose proof (magnitud_no_negativa (Vector2D.sub a b)) as Hn.
  destruct (Req_dec (Vector2D.magnitud (Vector2D.sub a b)) 0) as [H0|H0];
    [|lra].
  exfalso. apply Hab. apply magnitud_cero in H0.
  destruct a as [ax ay], b as [bx by_]. cbn in H0. destruct H0 as [Hx Hy].
  f_equal; lra.
Qed.

Lemma normalizar_unitario_o_nulo (v : Vector2D.t) :
  Vector2D.magnitud (Vector2D.normalizar v) = 1 \/
  Vector2D.normalizar v = Vector2D.mk 0 0.
Proof.
  pose proof (magnitud_no_negativa v) as Hn.
  destruct (Req_dec (Vector2D.magnitud v) 0) as [H0|H0].
  - right. now apply normalizar_cero.
  - left. apply magnitud_normalizar. lra.
Qed.

(** C7, as the claim states it, fails: the player of the sample, ready to
    fire, fires at its own position; the projectile's [direccion] is the
    zero vector, of magnitude 0. *)
Lemma proyectil_sin_direccion :
  Jugador.actualizar 0.5 (200, 300)%Z Ejemplo.jugador_nuevo
  = Ok Ejemplo.jugador_listo /\
  exists proyectil j',
    Jugador.disparar (200, 300) Ejemplo.jugador_listo = Ok (true, j') /\
    Jugador.proyectiles j' = [proyectil] /\
    Proyectil.direccion proyectil = Vector2D.mk 0 0 /\
    Vector2D.magnitud (Proyectil.direccion proyectil) <> 1.
Proof.
  split; [exact jugador_listo_alcanzado|].
  destruct (disparar_listo Ejemplo.jugador_listo (200, 300))
    as (p & j' & E & Hps & _ & _ & _ & _ & _ & _ & Hd); [cbn; lra|].
  exists p, j'. split; [exact E|]. split; [exact Hps|].
  assert (Hcero : Proyectil.direccion p = Vector2D.mk 0 0).
  { rewrite Hd. apply normalizar_cero. apply magnitud_cero. cbn. lra. }
  split; [exact Hcero|].
  rewrite Hcero. rewrite (proj2 (magnitud_cero (Vector2D.mk 0 0))); cbn; lra.
Qed.

(** C7, amended: the [direccion] of a projectile is fixed when it is
    created, as the normalized vector from the player's position to the
    target; it has magnitude 1 when the target differs from that position
    and is the zero vector when they coincide.  Neither the update of the
    projectile, nor that of the player, nor a frame of the session changes
    it. *)
Theorem direccion_unitaria_o_nula :
  (forall (objetivo_pos : R * R) (j j' : Jugador.t),
      Jugador.disparar objetivo_pos j = Ok (true, j') ->
      exists proyectil,
        Jugador.proyectiles j' = Jugador.proyectiles j ++ [proyectil] /\
        Proyectil.direccion proyectil
        = Vector2D.normalizar
            (Vector2D.sub (Vector2D.mk (fst objetivo_pos) (snd objetivo_pos))
                          (Jugador.posicion j)) /\
        (Vector2D.mk (fst objetivo_pos) (snd objetivo_pos) <> Jugador.posicion j ->
         Vector2D.magnitud (Proyectil.direccion proyectil) = 1) /\
        (Vector2D.mk (fst objetivo_pos) (snd objetivo_pos) = Jugador.posicion j ->
         Proyectil.direccion proyectil = Vector2D.mk 0 0)) /\
  (forall (pantalla : pygame.Surface) (x y : R) (d : Vector2D.t) (v : R)
          (p : Proyectil.t),
      Proyectil.init pantalla x y d v = Ok p ->
      Vector2D.magnitud (Proyectil.direccion p) = 1 \/
      Proyectil.direccion p = Vector2D.mk 0 0) /\
  (forall (dt : R) (p p' : Proyectil.t),
      Proyectil.actualizar dt p = Ok p' ->
      Proyectil.direccion p' = Proyectil.direccion p) /\
  (forall (dt : R) (pos_mouse : Z * Z) (j j' : Jugador.t),
      Jugador.actualizar dt pos_mouse j = Ok j' ->
      forall p', In p' (Jugador.proyectiles j') ->
      exists p, In p (Jugador.proyectiles j) /\
                Proyectil.direccion p' = Proyectil.direccion p) /\
  (forall (dt : R) (az1 az2 : Azar) (s s' : ControlJuego.t),
      ControlJuego.actualizar dt az1 az2 s = Ok s' ->
      map Proyectil.direccion (Jugador.proyectiles (ControlJuego.jugador s'))
      = map Proyectil.direccion (Jugador.proyectiles (ControlJuego.jugador s))).
Proof.
  split.
  { intros objetivo_pos j j' E.
    destruct (disparar_exito _ _ _ E) as (p & Hps & Hd).
    exists p. split; [exact Hps|]. split; [exact Hd|]. rewrite Hd. split.
    - intros Hne. apply magnitud_normalizar. now apply magnitud_sub_positiva.
    - intros Heq. apply normalizar_cero. apply magnitud_cero.
      rewrite Heq. cbn. lra. }
  split.
  { intros pantalla x y d v p. unfold Proyectil.init.
    destruct (Rle_b v 0); [discriminate|]. intros [= <-]. cbn.
    apply normalizar_unitario_o_nulo. }
  split; [exact Proyectil_actualizar_direccion|].
  split.
  { intros dt pos_mouse j j'. unfold Jugador.actualizar.
    destruct (Rle_b dt 0); [discriminate|].
    destruct (negb (Jugador.activo j)).
    - intros [= <-] p' Hin. eauto.
    - unfold Jugador.actualizar_proyectiles. cbn.
      destruct (Jugador.actualizar_lista dt (Jugador.proyectiles j))
        as [ps|] eqn:Eps; [|discriminate].
      cbn. intros [= <-] p' Hin. cbn in Hin.
      destruct (actualizar_lista_direccion _ _ _ Eps p' Hin) as (p & Hp & Ep).
      exists p. split; [exact Hp|].
      now apply Proyectil_actualizar_direccion in Ep. }
  intros dt az1 az2 s s' E.
  destruct (ControlJuego.jugando s) eqn:Hj.
  - destruct (actualizar_en_curso _ _ _ _ _ Hj E)
      as (s1 & ps & _ & _ & _ & _ & _ & _ & -> & Hps & _).
    cbn. clear -Hps.
    induction Hps as [|p' p ps ps0 [-> | ->] _ IH]; cbn; [reflexivity | |];
      now rewrite IH.
  - rewrite actualizar_terminada in E
      by (auto; eapply actualizar_Ok_dt; eassumption).
    now injection E as <-.
Qed.

Lemma direccion_unitaria_o_nula_testigo :
  exists proyectil j',
    Jugador.disparar (0, 300) Ejemplo.jugador_listo = Ok (true, j') /\
    Jugador.proyectiles j' = [proyectil] /\
    Vector2D.magnitud (Proyectil.direccion proyectil) = 1.
Proof.
  destruct direccion_unitaria_o_nula as (Hdisparo & _).
  destruct (Hdisparo (0, 300) Ejemplo.jugador_listo Ejemplo.jugador_armado
              jugador_armado_alcanzado)
    as (p & Hps & _ & Huno & _).
  exists p, Ejemplo.jugador_armado.
  split; [exact jugador_armado_alcanzado|].
  split; [exact Hps|].
  apply Huno. cbn. intros [= H]. lra.
Defined.

(** * Further properties of the code *)

(** ** vector2d.py *)

Lemma magnitud_mul (v : Vector2D.t) (k : R) :
  Vector2D.magnitud (Vector2D.mul v k) = Rabs k * Vector2D.magnitud v.
Proof.
  destruct v as [vx vy]. unfold Vector2D.magnitud, Vector2D.mul.
  cbn [Vector2D.x Vector2D.y].
  replace ((vx * k) ^ 2 + (vy * k) ^ 2) with (Rsqr k * (vx ^ 2 + vy ^ 2))
    by (unfold Rsqr; ring).
  rewrite sqrt_mult by (try apply Rle_0_sqr; nra).
  now rewrite sqrt_Rsqr_abs.
Qed.

(** X1: scaling the normalized vector by the magnitude gives the vector
    back, the zero vector included; adding and subtracting the same vector
    cancel, in either order. *)
Theorem vector_ida_y_vuelta (a b : Vector2D.t) :
  Vector2D.mul (Vector2D.normalizar a) (Vector2D.magnitud a) = a /\
  Vector2D.sub (Vector2D.add a b) b = a /\
  Vector2D.add (Vector2D.sub a b) b = a.
Proof.
  split; [|destruct a, b; unfold Vector2D.add, Vector2D.sub;
           cbn [Vector2D.x Vector2D.y]; split; f_equal; ring].
  pose proof (magnitud_no_negativa a) as Hn.
  destruct (Req_dec (Vector2D.magnitud a) 0) as [H0|H0].
  - rewrite normalizar_cero by exact H0. rewrite H0.
    apply magnitud_cero in H0. destruct a as [ax ay]. cbn in H0.
    destruct H0 as [-> ->]. unfold Vector2D.mul. cbn [Vector2D.x Vector2D.y].
    f_equal; ring.
  - unfold Vector2D.normalizar.
    rewrite (proj2 (Rlt_b_true 0 (Vector2D.magnitud a))) by lra.
    destruct a as [ax ay]. unfold Vector2D.mul. cbn [Vector2D.x Vector2D.y].
    f_equal; field; exact H0.
Qed.

(** X2: the magnitude is never negative, is 0 only for the zero vector,
    and scales with the absolute value of the factor. *)
Theorem magnitud_escala (v : Vector2D.t) (k : R) :
  0 <= Vector2D.magnitud v /\
  (Vector2D.magnitud v = 0 <-> v = Vector2D.mk 0 0) /\
  Vector2D.magnitud (Vector2D.mul v k) = Rabs k * Vector2D.magnitud v.
Proof.
  split; [apply magnitud_no_negativa|]. split; [|apply magnitud_mul].
  rewrite magnitud_cero. destruct v as [vx vy]. cbn [Vector2D.x Vector2D.y].
  split.
  - intros [-> ->]. reflexivity.
  - intros [= -> ->]. auto.
Qed.

Lemma magnitud_escala_testigo :
  Vector2D.magnitud (Vector2D.mul (Vector2D.mk 3 4) (-2))
  = Rabs (-2) * Vector2D.magnitud (Vector2D.mk 3 4).
Proof. apply (magnitud_escala (Vector2D.mk 3 4) (-2)). Defined.

(** ** figura.py *)

(** Clamping one coordinate. *)
Lemma Rmin_Rmax_cotas (lo hi v : R) :
  Rmin hi (Rmax lo v) <= hi /\
  (lo <= hi -> lo <= Rmin hi (Rmax lo v)) /\
  Rmin hi (Rmax lo (Rmin hi (Rmax lo v))) = Rmin hi (Rmax lo v).
Proof.
  pose proof (Rmin_l hi (Rmax lo v)) as A.
  pose proof (Rmax_l lo v) as M.
  assert (B : lo <= hi -> lo <= Rmin hi (Rmax lo v))
    by (intros Hlh; now apply Rmin_glb).
  split; [exact A|]. split; [exact B|].
  destruct (Rle_dec lo hi) as [Hlh|Hlh].
  - apply Rmin_Rmax_dentro; auto.
  - rewrite (Rmin_left hi (Rmax lo v)) by lra.
    rewrite (Rmax_left lo hi) by lra. apply Rmin_left. lra.
Qed.

Lemma mantener_en_pantalla_marco (f : Figura.t) :
  Figura.pantalla (Figura.mantener_en_pantalla f) = Figura.pantalla f /\
  Figura.color (Figura.mantener_en_pantalla f) = Figura.color f /\
  Figura.radio (Figura.mantener_en_pantalla f) = Figura.radio f /\
  Figura.activo (Figura.mantener_en_pantalla f) = Figura.activo f.
Proof. repeat split. Qed.

Lemma mantener_en_pantalla_dentro (f : Figura.t) :
  cabe_en_pantalla f -> dentro_de_pantalla (Figura.mantener_en_pantalla f).
Proof.
  intros [Hw Hh]. unfold dentro_de_pantalla, Figura.mantener_en_pantalla.
  cbn [Figura.con_posicion Figura.posicion Figura.radio Figura.pantalla
       Vector2D.x Vector2D.y].
  apply IZR_le in Hw, Hh.
  rewrite mult_IZR in Hw, Hh. rewrite !minus_IZR.
  set (r := IZR (Figura.radio f)) in *.
  split.
  - destruct (Rmin_Rmax_cotas r (IZR (pygame.get_width (Figura.pantalla f)) - r)
                (Vector2D.x (Figura.posicion f))) as (A & B & _).
    split; [apply B; lra | exact A].
  - destruct (Rmin_Rmax_cotas r (IZR (pygame.get_height (Figura.pantalla f)) - r)
                (Vector2D.y (Figura.posicion f))) as (A & B & _).
    split; [apply B; lra | exact A].
Qed.

Lemma mantener_en_pantalla_fijo (f : Figura.t) :
  dentro_de_pantalla f -> Figura.mantener_en_pantalla f = f.
Proof.
  intros [[Hx1 Hx2] [Hy1 Hy2]]. unfold Figura.mantener_en_pantalla.
  rewrite !Rmin_Rmax_dentro by assumption.
  destruct f as [pa [px py] co ra ac]. reflexivity.
Qed.

(** X3: [mantener_en_pantalla] only moves the centre; on a screen the
    figure fits in, the centre ends at least [radio] away from every edge;
    a centre that already is stays where it is; applying it twice is
    applying it once.  On any screen the centre ends at most at
    [ancho - radio] and [alto - radio]. *)
Theorem mantener_en_pantalla_acota (f : Figura.t) :
  Figura.pantalla (Figura.mantener_en_pantalla f) = Figura.pantalla f /\
  Figura.color (Figura.mantener_en_pantalla f) = Figura.color f /\
  Figura.radio (Figura.mantener_en_pantalla f) = Figura.radio f /\
  Figura.activo (Figura.mantener_en_pantalla f) = Figura.activo f /\
  (cabe_en_pantalla f -> dentro_de_pantalla (Figura.mantener_en_pantalla f)) /\
  (dentro_de_pantalla f -> Figura.mantener_en_pantalla f = f) /\
  Figura.mantener_en_pantalla (Figura.mantener_en_pantalla f)
  = Figura.mantener_en_pantalla f /\
  Vector2D.x (Figura.posicion (Figura.mantener_en_pantalla f))
    <= IZR (pygame.get_width (Figura.pantalla f) - Figura.radio f) /\
  Vector2D.y (Figura.posicion (Figura.mantener_en_pantalla f))
    <= IZR (pygame.get_height (Figura.pantalla f) - Figura.radio f).
Proof.
  split; [reflexivity|]. split; [reflexivity|]. split; [reflexivity|].
  split; [reflexivity|].
  split; [apply mantener_en_pantalla_dentro|].
  split; [apply mantener_en_pantalla_fijo|].
  unfold Figura.mantener_en_pantalla, Figura.con_posicion.
  cbn [Figura.posicion Figura.radio Figura.pantalla Figura.color
       Figura.activo Vector2D.x Vector2D.y].
  split; [|split].
  - f_equal. f_equal; apply Rmin_Rmax_cotas.
  - apply Rmin_Rmax_cotas.
  - apply Rmin_Rmax_cotas.
Qed.

Lemma mantener_en_pantalla_acota_testigo :
  dentro_de_pantalla
    (Figura.mantener_en_pantalla
       (Figura.init Ejemplo.pantalla 900 (-5) Ejemplo.rojo 20)) /\
  Figura.mantener_en_pantalla (Ejemplo.circulo 40)
  = Figura.mantener_en_pantalla (Figura.mantener_en_pantalla (Ejemplo.circulo 40)) /\
  Figura.mantener_en_pantalla
    (Figura.init Ejemplo.pantalla 200 300 Ejemplo.verde 20)
  = Figura.init Ejemplo.pantalla 200 300 Ejemplo.verde 20.
Proof.
  split; [|split].
  - apply (proj1 (proj2 (proj2 (proj2 (proj2
             (mantener_en_pantalla_acota
                (Figura.init Ejemplo.pantalla 900 (-5) Ejemplo.rojo 20))))))).
    split; cbn; lia.
  - symmetry.
    apply (proj1 (proj2 (proj2 (proj2 (proj2 (proj2 (proj2
             (mantener_en_pantalla_acota (Ejemplo.circulo 40))))))))).
  - apply (proj1 (proj2 (proj2 (proj2 (proj2 (proj2
             (mantener_en_pantalla_acota
                (Figura.init Ejemplo.pantalla 200 300 Ejemplo.verde 20)))))))).
    unfold dentro_de_pantalla. cbn. lra.
Defined.

(** ** proyectil.py *)

Lemma verificar_desactivacion_marco (q : Proyectil.t) :
  Proyectil.posicion (Proyectil.verificar_desactivacion q) = Proyectil.posicion q /\
  Proyectil.radio (Proyectil.verificar_desactivacion q) = Proyectil.radio q /\
  Figura.pantalla (Proyectil.base (Proyectil.verificar_desactivacion q))
  = Figura.pantalla (Proyectil.base q) /\
  Proyectil.tiempo_vida (Proyectil.verificar_desactivacion q)
  = Proyectil.tiempo_vida q /\
  Proyectil.velocidad (Proyectil.verificar_desactivacion q)
  = Proyectil.velocidad q.
Proof.
  unfold Proyectil.verificar_desactivacion.
  destruct (negb (Proyectil.activo q)); [repeat split|].
  match goal with |- context [if ?c then _ else _] => destruct c end;
    repeat split.
Qed.

Lemma verificar_desactivacion_activo (q : Proyectil.t) :
  Proyectil.activo q = true ->
  (Proyectil.activo (Proyectil.verificar_desactivacion q) = true <->
   0 < Proyectil.tiempo_vida q /\ en_pantalla_ampliada q).
Proof.
  intros Ha. unfold Proyectil.verificar_desactivacion, en_pantalla_ampliada.
  rewrite Ha. cbn [negb].
  destruct (Rlt_b (Vector2D.x (Proyectil.posicion q)) (IZR (- Proyectil.radio q)))
    eqn:E1;
  destruct (Rlt_b (IZR (pygame.get_width (Figura.pantalla (Proyectil.base q))
                        + Proyectil.radio q))
                  (Vector2D.x (Proyectil.posicion q))) eqn:E2;
  destruct (Rlt_b (Vector2D.y (Proyectil.posicion q)) (IZR (- Proyectil.radio q)))
    eqn:E3;
  destruct (Rlt_b (IZR (pygame.get_height (Figura.pantalla (Proyectil.base q))
                        + Proyectil.radio q))
                  (Vector2D.y (Proyectil.posicion q))) eqn:E4;
  destruct (Rle_b (Proyectil.tiempo_vida q) 0) eqn:E5;
  cbn [orb];
  try apply Rlt_b_true in E1; try apply Rlt_b_false in E1;
  try apply Rlt_b_true in E2; try apply Rlt_b_false in E2;
  try apply Rlt_b_true in E3; try apply Rlt_b_false in E3;
  try apply Rlt_b_true in E4; try apply Rlt_b_false in E4;
  try apply Rle_b_true in E5; try apply Rle_b_false in E5;
  (split; [try discriminate; intros _; repeat split; lra
          | intros (Htv & [Hx1 Hx2] & [Hy1 Hy2]);
            try (exfalso; lra); try exact Ha]).
Qed.

Lemma Proyectil_actualizar_activo (dt : R) (p : Proyectil.t) :
  0 < dt -> Proyectil.activo p = true ->
  exists p',
    Proyectil.actualizar dt p = Ok p' /\
    Proyectil.posicion p'
    = Vector2D.add (Proyectil.posicion p)
        (Vector2D.mul (Proyectil.direccion p) (Proyectil.velocidad p * dt)) /\
    Proyectil.tiempo_vida p' = Proyectil.tiempo_vida p - dt /\
    Proyectil.velocidad p' = Proyectil.velocidad p /\
    Proyectil.direccion p' = Proyectil.direccion p /\
    Proyectil.radio p' = Proyectil.radio p /\
    (Proyectil.activo p' = true <->
     0 < Proyectil.tiempo_vida p' /\ en_pantalla_ampliada p').
Proof.
  intros Hdt Ha. unfold Proyectil.actualizar.
  rewrite (proj2 (Rle_b_false dt 0)) by lra. rewrite Ha. cbn [negb].
  eexists. split; [reflexivity|].
  match goal with |- context [Proyectil.verificar_desactivacion ?q] =>
    set (q0 := q) end.
  destruct (verificar_desactivacion_marco q0) as (F1 & F2 & F3 & F4 & F5).
  rewrite F1, F2, F4, F5, verificar_desactivacion_direccion.
  do 5 (split; [reflexivity|]). split.
  - intros H. apply (proj1 (verificar_desactivacion_activo q0 Ha)) in H.
    destruct H as [Htv Hpan]. split; [exact Htv|].
    unfold en_pantalla_ampliada in *. now rewrite F1, F2, F3.
  - intros [Htv Hpan]. apply (proj2 (verificar_desactivacion_activo q0 Ha)).
    split; [exact Htv|]. unfold en_pantalla_ampliada in *.
    now rewrite F1, F2, F3 in Hpan.
Qed.

Lemma Proyectil_actualizar_inactivo (dt : R) (p : Proyectil.t) :
  0 < dt -> Proyectil.activo p = false -> Proyectil.actualizar dt p = Ok p.
Proof.
  intros Hdt Ha. unfold Proyectil.actualizar.
  rewrite (proj2 (Rle_b_false dt 0)) by lra. now rewrite Ha.
Qed.

Lemma Proyectil_actualizar_dt_no_positivo (dt : R) (p : Proyectil.t) :
  dt <= 0 -> Proyectil.actualizar dt p = Raise ValueError.
Proof.
  intros Hdt. unfold Proyectil.actualizar.
  now rewrite (proj2 (Rle_b_true dt 0)) by lra.
Qed.

(** X4: the update of a projectile raises on [dt <= 0] and leaves an
    inactive projectile as it is; an active one moves by
    [direccion * velocidad * dt], loses [dt] of [tiempo_vida], and stays
    active exactly when time is left and it is within the screen widened
    by its radius, the border included. *)
Theorem proyectil_actualizar_efecto (dt : R) (p : Proyectil.t) :
  (dt <= 0 -> Proyectil.actualizar dt p = Raise ValueError) /\
  (0 < dt -> Proyectil.activo p = false -> Proyectil.actualizar dt p = Ok p) /\
  (0 < dt -> Proyectil.activo p = true ->
   exists p',
     Proyectil.actualizar dt p = Ok p' /\
     Proyectil.posicion p'
     = Vector2D.add (Proyectil.posicion p)
         (Vector2D.mul (Proyectil.direccion p) (Proyectil.velocidad p * dt)) /\
     Proyectil.tiempo_vida p' = Proyectil.tiempo_vida p - dt /\
     Proyectil.velocidad p' = Proyectil.velocidad p /\
     Proyectil.direccion p' = Proyectil.direccion p /\
     Proyectil.radio p' = Proyectil.radio p /\
     (Proyectil.activo p' = true <->
      0 < Proyectil.tiempo_vida p' /\ en_pantalla_ampliada p')).
Proof.
  split; [apply Proyectil_actualizar_dt_no_positivo|].
  split; [apply Proyectil_actualizar_inactivo | apply Proyectil_actualizar_activo].
Qed.

Lemma proyectil_actualizar_efecto_testigo :
  Proyectil.actualizar 0 Ejemplo.proyectil_lejano = Raise ValueError /\
  Proyectil.actualizar 1 (Proyectil.desactivar Ejemplo.proyectil_lejano)
  = Ok (Proyectil.desactivar Ejemplo.proyectil_lejano) /\
  exists p',
    Proyectil.actualizar 0.5 Ejemplo.proyectil_lejano = Ok p' /\
    Proyectil.tiempo_vida p' = 2 - 0.5.
Proof.
  split; [|split].
  - apply (proj1 (proyectil_actualizar_efecto 0 Ejemplo.proyectil_lejano)). lra.
  - apply (proj1 (proj2 (proyectil_actualizar_efecto 1
                           (Proyectil.desactivar Ejemplo.proyectil_lejano))));
      [lra | reflexivity].
  - destruct (proj2 (proj2 (proyectil_actualizar_efecto 0.5
                              Ejemplo.proyectil_lejano)))
      as (p' & E & _ & Htv & _); [lra | reflexivity |].
    exists p'. split; [exact E | exact Htv].
Defined.

(** X6: an update of an active projectile whose [velocidad] is not
    negative covers the distance [velocidad * dt] times the magnitude of
    [direccion]: [velocidad * dt] for a unit direction, nothing for the
    zero direction. *)
Theorem proyectil_distancia_recorrida (dt : R) (p p' : Proyectil.t) :
  Proyectil.activo p = true ->
  0 <= Proyectil.velocidad p ->
  Proyectil.actualizar dt p = Ok p' ->
  distancia (Proyectil.base p') (Proyectil.base p)
  = Proyectil.velocidad p * dt * Vector2D.magnitud (Proyectil.direccion p).
Proof.
  intros Ha Hv E.
  assert (Hdt : 0 < dt).
  { destruct (Rle_dec dt 0) as [H|H]; [|lra].
    rewrite Proyectil_actualizar_dt_no_positivo in E by exact H. discriminate. }
  destruct (Proyectil_actualizar_activo dt p Hdt Ha) as (q & E' & Hpos & _).
  rewrite E' in E. injection E as <-.
  unfold distancia. change (Figura.posicion (Proyectil.base q))
    with (Proyectil.posicion q).
  change (Figura.posicion (Proyectil.base p)) with (Proyectil.posicion p).
  rewrite Hpos.
  replace (Vector2D.sub
             (Vector2D.add (Proyectil.posicion p)
                (Vector2D.mul (Proyectil.direccion p) (Proyectil.velocidad p * dt)))
             (Proyectil.posicion p))
    with (Vector2D.mul (Proyectil.direccion p) (Proyectil.velocidad p * dt)).
  - rewrite magnitud_mul, Rabs_right by nra. reflexivity.
  - destruct (Proyectil.posicion p), (Proyectil.direccion p).
    unfold Vector2D.sub, Vector2D.add, Vector2D.mul.
    cbn [Vector2D.x Vector2D.y]. f_equal; ring.
Qed.

Lemma proyectil_distancia_recorrida_testigo :
  exists p',
    Proyectil.actualizar 0.5 Ejemplo.proyectil_lejano = Ok p' /\
    distancia (Proyectil.base p') (Proyectil.base Ejemplo.proyectil_lejano)
    = Proyectil.velocidad_por_defecto * 0.5
      * Vector2D.magnitud (Proyectil.direccion Ejemplo.proyectil_lejano).
Proof.
  destruct (Proyectil_actualizar_total 0.5 Ejemplo.proyectil_lejano)
    as [p' E]; [lra|].
  exists p'. split; [exact E|].
  apply (proyectil_distancia_recorrida 0.5 Ejemplo.proyectil_lejano p');
    [reflexivity | | exact E].
  cbn [Proyectil.velocidad Ejemplo.proyectil_lejano].
  unfold Proyectil.velocidad_por_defecto. lra.
Defined.

(** ** jugador.py *)

Lemma sub_lerp (o p : Vector2D.t) (k : R) :
  Vector2D.sub o (Vector2D.add p (Vector2D.mul (Vector2D.sub o p) k))
  = Vector2D.mul (Vector2D.sub o p) (1 - k).
Proof.
  destruct o, p. unfold Vector2D.sub, Vector2D.add, Vector2D.mul.
  cbn [Vector2D.x Vector2D.y]. f_equal; ring.
Qed.

Lemma mover_hacia_mouse_lema (pos_mouse : Z * Z) (j : Jugador.t) :
  Vector2D.magnitud
    (Vector2D.sub (Vector2D.mk (IZR (fst pos_mouse)) (IZR (snd pos_mouse)))
                  (Jugador.posicion (Jugador.mover_hacia_mouse pos_mouse j)))
  = Rabs (1 - Jugador.velocidad_movimiento j)
    * Vector2D.magnitud
        (Vector2D.sub (Vector2D.mk (IZR (fst pos_mouse)) (IZR (snd pos_mouse)))
                      (Jugador.posicion j)) /\
  Figura.radio (Jugador.base (Jugador.mover_hacia_mouse pos_mouse j))
  = Figura.radio (Jugador.base j).
Proof.
  split; [|reflexivity].
  unfold Jugador.mover_hacia_mouse.
  change (Jugador.posicion (Jugador.con_base ?f j)) with (Figura.posicion f).
  cbn [Figura.con_posicion Figura.posicion].
  now rewrite sub_lerp, magnitud_mul.
Qed.

(** X7: [_mover_hacia_mouse] changes only the position, and multiplies
    the distance to the cursor by [|1 - velocidad_movimiento|]: by 0.9 for
    a player as constructed. *)
Theorem mover_hacia_mouse_acerca (pos_mouse : Z * Z) (j : Jugador.t) :
  Vector2D.magnitud
    (Vector2D.sub (Vector2D.mk (IZR (fst pos_mouse)) (IZR (snd pos_mouse)))
                  (Jugador.posicion (Jugador.mover_hacia_mouse pos_mouse j)))
  = Rabs (1 - Jugador.velocidad_movimiento j)
    * Vector2D.magnitud
        (Vector2D.sub (Vector2D.mk (IZR (fst pos_mouse)) (IZR (snd pos_mouse)))
                      (Jugador.posicion j)) /\
  Jugador.ultimo_disparo (Jugador.mover_hacia_mouse pos_mouse j)
  = Jugador.ultimo_disparo j /\
  Jugador.proyectiles (Jugador.mover_hacia_mouse pos_mouse j)
  = Jugador.proyectiles j /\
  Figura.radio (Jugador.base (Jugador.mover_hacia_mouse pos_mouse j))
  = Figura.radio (Jugador.base j) /\
  Jugador.activo (Jugador.mover_hacia_mouse pos_mouse j) = Jugador.activo j /\
  forall (pantalla : pygame.Surface) (x y : R) (color : Figura.Color),
    Rabs (1 - Jugador.velocidad_movimiento (Jugador.init pantalla x y color))
    = 0.9.
Proof.
  split; [apply mover_hacia_mouse_lema|].
  do 4 (split; [reflexivity|]).
  intros pantalla x y color. cbn [Jugador.init Jugador.velocidad_movimiento].
  rewrite Rabs_right; lra.
Qed.

(** Clamping a coordinate does not take it away from a point of the
    interval. *)
Lemma Rmin_Rmax_acerca (lo hi c v : R) :
  lo <= c <= hi -> Rabs (c - Rmin hi (Rmax lo v)) <= Rabs (c - v).
Proof.
  intros [Hlo Hhi].
  destruct (Rle_dec v lo) as [H1|H1].
  - rewrite (Rmax_left lo v), (Rmin_right hi lo) by lra.
    rewrite !Rabs_right by lra. lra.
  - destruct (Rle_dec v hi) as [H2|H2].
    + rewrite Rmin_Rmax_dentro by lra. lra.
    + rewrite (Rmax_right lo v), (Rmin_left hi v) by lra.
      rewrite !Rabs_left1 by lra. lra.
Qed.

Lemma magnitud_monotona (a1 b1 a2 b2 : R) :
  Rabs a1 <= Rabs a2 -> Rabs b1 <= Rabs b2 ->
  Vector2D.magnitud (Vector2D.mk a1 b1) <= Vector2D.magnitud (Vector2D.mk a2 b2).
Proof.
  intros Ha Hb. unfold Vector2D.magnitud. cbn [Vector2D.x Vector2D.y].
  apply Rsqr_le_abs_1 in Ha, Hb. unfold Rsqr in Ha, Hb.
  apply sqrt_le_1; nra.
Qed.

Lemma actualizar_lista_filtro (dt : R) (ps ps' : list Proyectil.t) :
  Jugador.actualizar_lista dt ps = Ok ps' ->
  exists qs,
    Forall2 (fun p q => Proyectil.actualizar dt p = Ok q) ps qs /\
    ps' = filter Proyectil.activo qs.
Proof.
  revert ps'. induction ps as [|p ps IH]; cbn [Jugador.actualizar_lista];
    intros ps'.
  - intros [= <-]. exists []. split; [constructor | reflexivity].
  - destruct (Proyectil.actualizar dt p) as [q|] eqn:Eq; [|discriminate].
    cbn [bind].
    destruct (Jugador.actualizar_lista dt ps) as [rs|]; [|discriminate].
    cbn [bind]. intros [= <-].
    destruct (IH rs eq_refl) as (qs & Hqs & ->).
    exists (q :: qs). split; [now constructor|].
    cbn [filter]. now destruct (Proyectil.activo q).
Qed.

Lemma Jugador_actualizar_activo (dt : R) (pos_mouse : Z * Z) (j : Jugador.t) :
  0 < dt -> Jugador.activo j = true ->
  exists j' qs,
    Jugador.actualizar dt pos_mouse j = Ok j' /\
    Jugador.base j'
    = Figura.mantener_en_pantalla
        (Jugador.base (Jugador.mover_hacia_mouse pos_mouse j)) /\
    Jugador.ultimo_disparo j' = Jugador.ultimo_disparo j + dt /\
    Jugador.cooldown_disparo j' = Jugador.cooldown_disparo j /\
    Jugador.velocidad_movimiento j' = Jugador.velocidad_movimiento j /\
    Forall2 (fun p q => Proyectil.actualizar dt p = Ok q)
            (Jugador.proyectiles j) qs /\
    Jugador.proyectiles j' = filter Proyectil.activo qs.
Proof.
  intros Hdt Ha. unfold Jugador.actualizar.
  rewrite (proj2 (Rle_b_false dt 0)) by lra. rewrite Ha. cbn [negb].
  unfold Jugador.actualizar_proyectiles.
  cbn [Jugador.proyectiles Jugador.con_ultimo_disparo Jugador.con_base
       Jugador.mover_hacia_mouse].
  destruct (actualizar_lista_total dt (Jugador.proyectiles j) Hdt) as [ps' E].
  rewrite E. cbn [bind].
  destruct (actualizar_lista_filtro _ _ _ E) as (qs & Hqs & ->).
  eexists _, qs. split; [reflexivity|].
  repeat split; try reflexivity. exact Hqs.
Qed.

(** X8: the update of a player raises on [dt <= 0] and leaves an inactive
    player as it is.  For an active one, [ultimo_disparo] grows by [dt];
    on a screen the player fits in it ends at least [radio] away from
    every edge; its projectiles are the updated former ones that are still
    active, in the same order, so that every projectile of the list is
    active; and when the cursor is itself that far from the edges, the
    distance to it shrinks at least by the factor
    [|1 - velocidad_movimiento|]. *)
Theorem jugador_actualizar_efecto (dt : R) (pos_mouse : Z * Z) (j : Jugador.t) :
  (dt <= 0 -> Jugador.actualizar dt pos_mouse j = Raise ValueError) /\
  (0 < dt -> Jugador.activo j = false ->
   Jugador.actualizar dt pos_mouse j = Ok j) /\
  (0 < dt -> Jugador.activo j = true ->
   exists j',
     Jugador.actualizar dt pos_mouse j = Ok j' /\
     Jugador.ultimo_disparo j' = Jugador.ultimo_disparo j + dt /\
     Figura.radio (Jugador.base j') = Figura.radio (Jugador.base j) /\
     Jugador.activo j' = true /\
     (cabe_en_pantalla (Jugador.base j) -> dentro_de_pantalla (Jugador.base j')) /\
     (exists qs,
         Forall2 (fun p q => Proyectil.actualizar dt p = Ok q)
                 (Jugador.proyectiles j) qs /\
         Jugador.proyectiles j' = filter Proyectil.activo qs) /\
     Forall (fun p => Proyectil.activo p = true) (Jugador.proyectiles j') /\
     (dentro_de_pantalla
        (Figura.con_posicion
           (Vector2D.mk (IZR (fst pos_mouse)) (IZR (snd pos_mouse)))
           (Jugador.base j)) ->
      Vector2D.magnitud
        (Vector2D.sub (Vector2D.mk (IZR (fst pos_mouse)) (IZR (snd pos_mouse)))
                      (Jugador.posicion j'))
      <= Rabs (1 - Jugador.velocidad_movimiento j)
         * Vector2D.magnitud
             (Vector2D.sub
                (Vector2D.mk (IZR (fst pos_mouse)) (IZR (snd pos_mouse)))
                (Jugador.posicion j)))).
Proof.
  split.
  { intros Hdt. unfold Jugador.actualizar.
    now rewrite (proj2 (Rle_b_true dt 0)) by lra. }
  split.
  { intros Hdt Ha. unfold Jugador.actualizar.
    rewrite (proj2 (Rle_b_false dt 0)) by lra. now rewrite Ha. }
  intros Hdt Ha.
  destruct (Jugador_actualizar_activo dt pos_mouse j Hdt Ha)
    as (j' & qs & E & Hb & Hu & _ & _ & Hqs & Hps).
  exists j'. split; [exact E|]. split; [exact Hu|].
  split; [now rewrite Hb|].
  split; [unfold Jugador.activo; rewrite Hb; exact Ha|].
  split.
  { intros Hc. rewrite Hb. apply mantener_en_pantalla_dentro. exact Hc. }
  split; [exists qs; auto|].
  split.
  { rewrite Hps. apply Forall_forall. intros p Hp.
    apply filter_In in Hp. tauto. }
  intros [[Hx1 Hx2] [Hy1 Hy2]].
  rewrite <- (proj1 (mover_hacia_mouse_lema pos_mouse j)).
  unfold Jugador.posicion. rewrite Hb.
  unfold Figura.mantener_en_pantalla, Vector2D.sub.
  cbn [Figura.con_posicion Figura.posicion Figura.radio Figura.pantalla
       Vector2D.x Vector2D.y] in *.
  apply magnitud_monotona; apply Rmin_Rmax_acerca; split; assumption.
Qed.

Lemma jugador_actualizar_efecto_testigo :
  Jugador.actualizar 0 (400, 300)%Z Ejemplo.jugador_nuevo = Raise ValueError /\
  exists j',
    Jugador.actualizar 0.5 (400, 300)%Z Ejemplo.jugador_nuevo = Ok j' /\
    Jugador.ultimo_disparo j' = Jugador.ultimo_disparo Ejemplo.jugador_nuevo + 0.5 /\
    dentro_de_pantalla (Jugador.base j') /\
    Vector2D.magnitud
      (Vector2D.sub (Vector2D.mk 400 300) (Jugador.posicion j'))
    <= Rabs (1 - 0.1)
       * Vector2D.magnitud
           (Vector2D.sub (Vector2D.mk 400 300)
                         (Jugador.posicion Ejemplo.jugador_nuevo)).
Proof.
  destruct (jugador_actualizar_efecto 0 (400, 300)%Z Ejemplo.jugador_nuevo)
    as (Hraise & _).
  destruct (jugador_actualizar_efecto 0.5 (400, 300)%Z Ejemplo.jugador_nuevo)
    as (_ & _ & Hact).
  split; [apply Hraise; lra|].
  destruct Hact as (j' & E & Hu & _ & _ & Hdentro & _ & _ & Hcerca);
    [lra | reflexivity |].
  exists j'. split; [exact E|]. split; [exact Hu|].
  split; [apply Hdentro; split; cbn; lia|].
  apply Hcerca. unfold dentro_de_pantalla. cbn. lra.
Defined.

Lemma actualizar_lista_longitud (dt : R) (ps ps' : list Proyectil.t) :
  Jugador.actualizar_lista dt ps = Ok ps' -> (length ps' <= length ps)%nat.
Proof.
  intros E. destruct (actualizar_lista_filtro _ _ _ E) as (qs & Hqs & ->).
  apply Forall2_length in Hqs. rewrite Hqs. apply filter_length_le.
Qed.

(** X9: [obtener_estado_disparo] agrees with [disparar]: it reports that
    the player can fire exactly when [disparar] would return [True]; the
    remaining time is never negative, is 0 exactly when the player can
    fire, and is [cooldown_disparo - ultimo_disparo] otherwise. *)
Theorem obtener_estado_disparo_coherente (j : Jugador.t) (objetivo_pos : R * R) :
  (fst (Jugador.obtener_estado_disparo j) = true <->
   exists j', Jugador.disparar objetivo_pos j = Ok (true, j')) /\
  (fst (Jugador.obtener_estado_disparo j) = false <->
   Jugador.disparar objetivo_pos j = Ok (false, j)) /\
  0 <= snd (Jugador.obtener_estado_disparo j) /\
  (snd (Jugador.obtener_estado_disparo j) = 0 <->
   fst (Jugador.obtener_estado_disparo j) = true) /\
  (fst (Jugador.obtener_estado_disparo j) = false ->
   snd (Jugador.obtener_estado_disparo j)
   = Jugador.cooldown_disparo j - Jugador.ultimo_disparo j).
Proof.
  unfold Jugador.obtener_estado_disparo. cbn [fst snd].
  destruct (Rle_dec (Jugador.cooldown_disparo j) (Jugador.ultimo_disparo j))
    as [H|H].
  - rewrite (proj2 (Rle_b_true _ _) H).
    destruct (disparar_listo j objetivo_pos H) as (p & j' & E & _).
    rewrite (Rmax_left 0.0) by lra.
    split; [split; eauto|].
    split; [split; [discriminate | rewrite E; discriminate]|].
    split; [lra|]. split; [split; auto; intros _; lra | discriminate].
  - rewrite (proj2 (Rle_b_false _ _)) by lra.
    rewrite (disparar_en_cooldown j objetivo_pos) by lra.
    rewrite (Rmax_right 0.0) by lra.
    split; [split; [discriminate | intros [j' [=]]]|].
    split; [split; auto|].
    split; [lra|]. split; [split; [lra | discriminate] | reflexivity].
Qed.

Lemma jugador_en_cooldown_no_dispara (cs : list LlamadaJugador) :
  forall j : Jugador.t,
    Jugador.ultimo_disparo j + tiempo_de_actualizacion cs
      < Jugador.cooldown_disparo j ->
    Forall (fun r => r = false) (snd (llamar_jugador_varias cs j)) /\
    (length (Jugador.proyectiles (fst (llamar_jugador_varias cs j)))
     <= length (Jugador.proyectiles j))%nat.
Proof.
  induction cs as [|c cs IH]; intros j Ht; cbn [llamar_jugador_varias].
  - cbn. auto.
  - pose proof (tiempo_de_actualizacion_no_negativo cs) as Hpos.
    destruct c as [dt m|o]; cbn [llamar_jugador tiempo_de_actualizacion] in *.
    + destruct (Jugador.actualizar dt m j) as [j1|] eqn:E.
      * assert (Hlen : (length (Jugador.proyectiles j1)
                        <= length (Jugador.proyectiles j))%nat).
        { unfold Jugador.actualizar in E.
          destruct (Rle_b dt 0); [discriminate|].
          destruct (negb (Jugador.activo j)); [injection E as <-; lia|].
          unfold Jugador.actualizar_proyectiles in E.
          cbn [Jugador.proyectiles Jugador.con_ultimo_disparo Jugador.con_base
               Jugador.mover_hacia_mouse] in E.
          destruct (Jugador.actualizar_lista dt (Jugador.proyectiles j))
            as [ps|] eqn:Eps; [|discriminate].
          cbn [bind] in E. injection E as <-.
          cbn [Jugador.proyectiles Jugador.con_proyectiles].
          eapply actualizar_lista_longitud; eassumption. }
        apply Jugador_actualizar_ultimo_disparo in E.
        destruct E as (Hdt & Hc & Hu & _).
        rewrite (proj2 (Rle_b_false dt 0) Hdt) in Ht.
        specialize (IH j1).
        destruct (llamar_jugador_varias cs j1) as [j2 rs]. cbn [fst snd] in *.
        destruct IH as [A B];
          [rewrite Hc, Hu; destruct (Jugador.activo j); lra|].
        split; [exact A | lia].
      * specialize (IH j).
        destruct (llamar_jugador_varias cs j) as [j2 rs]. cbn [fst snd] in *.
        apply IH. destruct (Rle_b dt 0) eqn:Edt; [lra|].
        apply Rle_b_false in Edt. lra.
    + rewrite (disparar_en_cooldown j o) by lra.
      specialize (IH j).
      destruct (llamar_jugador_varias cs j) as [j2 rs]. cbn [fst snd] in *.
      destruct IH as [Hrs Hj2]; [lra|]. split; auto.
Qed.

(** X10: after a shot, no [disparar] succeeds and no projectile is added
    as long as the update time since then stays below [cooldown_disparo];
    and an active player with a non-negative [ultimo_disparo] can fire
    right after an update with [dt >= cooldown_disparo]. *)
Theorem cadencia_de_disparo :
  (forall (objetivo_pos : R * R) (j j' : Jugador.t) (cs : list LlamadaJugador),
      Jugador.disparar objetivo_pos j = Ok (true, j') ->
      tiempo_de_actualizacion cs < Jugador.cooldown_disparo j ->
      Forall (fun r => r = false) (snd (llamar_jugador_varias cs j')) /\
      (length (Jugador.proyectiles (fst (llamar_jugador_varias cs j')))
       <= length (Jugador.proyectiles j'))%nat) /\
  (forall (dt : R) (pos_mouse : Z * Z) (objetivo_pos : R * R)
          (j j1 : Jugador.t),
      Jugador.activo j = true ->
      0 <= Jugador.ultimo_disparo j ->
      Jugador.cooldown_disparo j <= dt ->
      Jugador.actualizar dt pos_mouse j = Ok j1 ->
      exists j2, Jugador.disparar objetivo_pos j1 = Ok (true, j2)).
Proof.
  split.
  - intros objetivo_pos j j' cs E Ht.
    apply jugador_en_cooldown_no_dispara.
    destruct (Rlt_dec (Jugador.ultimo_disparo j) (Jugador.cooldown_disparo j))
      as [H|H].
    + rewrite disparar_en_cooldown in E by exact H. discriminate.
    + destruct (disparar_listo j objetivo_pos)
        as (p & j1 & E1 & _ & Hu & _ & Hc & _); [lra|].
      rewrite E1 in E. injection E as <-. rewrite Hu, Hc. lra.
  - intros dt pos_mouse objetivo_pos j j1 Ha Hu Hc E.
    apply Jugador_actualizar_ultimo_disparo in E.
    destruct E as (Hdt & Hc1 & Hu1 & _). rewrite Ha in Hu1.
    destruct (disparar_listo j1 objetivo_pos) as (p & j2 & E2 & _);
      [rewrite Hc1, Hu1; lra|].
    eauto.
Qed.

Lemma cadencia_de_disparo_testigo :
  Forall (fun r => r = false)
         (snd (llamar_jugador_varias Ejemplo.llamadas_tempranas
                 Ejemplo.jugador_armado)) /\
  exists j2, Jugador.disparar (0, 300) Ejemplo.jugador_listo = Ok (true, j2).
Proof.
  destruct cadencia_de_disparo as [Hpausa Hlisto].
  split.
  - apply (Hpausa (0, 300) Ejemplo.jugador_listo Ejemplo.jugador_armado
             Ejemplo.llamadas_tempranas jugador_armado_alcanzado).
    cbn [Ejemplo.llamadas_tempranas tiempo_de_actualizacion].
    rewrite (proj2 (Rle_b_false 0.125 0)) by lra. cbn. lra.
  - apply (Hlisto 0.5 (200, 300)%Z (0, 300) Ejemplo.jugador_nuevo
             Ejemplo.jugador_listo);
      [reflexivity | cbn; lra | cbn; lra | exact jugador_listo_alcanzado].
Defined.

Lemma obtener_estado_disparo_coherente_testigo :
  fst (Jugador.obtener_estado_disparo Ejemplo.jugador_nuevo) = false /\
  snd (Jugador.obtener_estado_disparo Ejemplo.jugador_nuevo) = 0.3 - 0.0 /\
  fst (Jugador.obtener_estado_disparo Ejemplo.jugador_listo) = true.
Proof.
  destruct (obtener_estado_disparo_coherente Ejemplo.jugador_nuevo (0, 300))
    as (_ & Hno & _ & _ & Hresto).
  destruct (obtener_estado_disparo_coherente Ejemplo.jugador_listo (0, 300))
    as (Hsi & _).
  assert (Hf : fst (Jugador.obtener_estado_disparo Ejemplo.jugador_nuevo) = false).
  { apply Hno. apply disparar_en_cooldown. cbn. lra. }
  split; [exact Hf|]. split; [exact (Hresto Hf)|].
  apply Hsi. exists Ejemplo.jugador_armado. exact jugador_armado_alcanzado.
Defined.

(** ** enemigo.py *)

Lemma sub_avance (o p : Vector2D.t) (k : R) :
  Vector2D.magnitud (Vector2D.sub o p) <> 0 ->
  Vector2D.sub o
    (Vector2D.add p
       (Vector2D.mul (Vector2D.normalizar (Vector2D.sub o p)) k))
  = Vector2D.mul (Vector2D.sub o p)
                 (1 - k / Vector2D.magnitud (Vector2D.sub o p)).
Proof.
  intros Hm. pose proof (magnitud_no_negativa (Vector2D.sub o p)) as Hn.
  unfold Vector2D.normalizar.
  rewrite (proj2 (Rlt_b_true 0 (Vector2D.magnitud (Vector2D.sub o p)))) by lra.
  remember (Vector2D.magnitud (Vector2D.sub o p)) as m eqn:Em.
  destruct o as [ox oy], p as [px py].
  unfold Vector2D.sub, Vector2D.add, Vector2D.mul.
  cbn [Vector2D.x Vector2D.y]. f_equal; field; exact Hm.
Qed.

Lemma perseguir_objetivo_avanza (dt : R) (leer : Ref -> Figura.t)
  (e : Enemigo.t) (r : Ref) :
  Enemigo.objetivo e = Some r ->
  Figura.activo (leer r) = true ->
  Figura.posicion (leer r) <> Enemigo.posicion e ->
  Enemigo.perseguir_objetivo dt leer e
  = Enemigo.con_base
      (Figura.con_posicion
         (Vector2D.add (Enemigo.posicion e)
            (Vector2D.mul
               (Vector2D.normalizar
                  (Vector2D.sub (Figura.posicion (leer r)) (Enemigo.posicion e)))
               (Enemigo.velocidad e * dt)))
         (Enemigo.base e))
      e /\
  0 < distancia (leer r) (Enemigo.base e).
Proof.
  intros Ho Ha Hne. unfold Enemigo.perseguir_objetivo. rewrite Ho, Ha.
  pose proof (magnitud_sub_positiva _ _ Hne) as Hm.
  rewrite (proj2 (Rlt_b_true 0 _) Hm). split; [reflexivity | exact Hm].
Qed.

(** X11: the pursuit step leaves the enemy where it is when it has no
    target, when the target is inactive and when it is at the target's
    position; otherwise it only moves the enemy, by [velocidad * dt]
    straight toward the target, so that the distance [m] to the target
    becomes [|m - velocidad * dt|]. *)
Theorem perseguir_objetivo_efecto (dt : R) (leer : Ref -> Figura.t)
  (e : Enemigo.t) :
  (Enemigo.objetivo e = None -> Enemigo.perseguir_objetivo dt leer e = e) /\
  (forall r, Enemigo.objetivo e = Some r ->
             Figura.activo (leer r) = false ->
             Enemigo.perseguir_objetivo dt leer e = e) /\
  (forall r, Enemigo.objetivo e = Some r ->
             Figura.posicion (leer r) = Enemigo.posicion e ->
             Enemigo.perseguir_objetivo dt leer e = e) /\
  (forall r, Enemigo.objetivo e = Some r ->
             Figura.activo (leer r) = true ->
             Figura.posicion (leer r) <> Enemigo.posicion e ->
             distancia (leer r) (Enemigo.base (Enemigo.perseguir_objetivo dt leer e))
             = Rabs (distancia (leer r) (Enemigo.base e)
                     - Enemigo.velocidad e * dt) /\
             distancia (Enemigo.base (Enemigo.perseguir_objetivo dt leer e))
                       (Enemigo.base e)
             = Rabs (Enemigo.velocidad e * dt) /\
             Enemigo.perseguir_objetivo dt leer e
             = Enemigo.con_base
                 (Figura.con_posicion
                    (Enemigo.posicion (Enemigo.perseguir_objetivo dt leer e))
                    (Enemigo.base e))
                 e).
Proof.
  split; [|split; [|split]].
  - intros Ho. unfold Enemigo.perseguir_objetivo. now rewrite Ho.
  - intros r Ho Ha. unfold Enemigo.perseguir_objetivo. now rewrite Ho, Ha.
  - intros r Ho Hp. unfold Enemigo.perseguir_objetivo. rewrite Ho, Hp.
    destruct (Figura.activo (leer r)); [|reflexivity].
    replace (Rlt_b 0 _) with false; [reflexivity|].
    symmetry. apply Rlt_b_false.
    rewrite (proj2 (magnitud_cero _)); [lra|].
    destruct (Enemigo.posicion e). unfold Vector2D.sub.
    cbn [Vector2D.x Vector2D.y]. split; ring.
  - intros r Ho Ha Hne.
    destruct (perseguir_objetivo_avanza dt leer e r Ho Ha Hne) as [-> Hm].
    unfold distancia in *.
    cbn [Enemigo.con_base Enemigo.base Enemigo.posicion Figura.con_posicion
         Figura.posicion].
    change (Figura.posicion (Enemigo.base e)) with (Enemigo.posicion e) in *.
    split; [|split; [|reflexivity]].
    + rewrite sub_avance by lra. rewrite magnitud_mul.
      set (m := Vector2D.magnitud
                  (Vector2D.sub (Figura.posicion (leer r)) (Enemigo.posicion e)))
        in *.
      rewrite <- (Rabs_right m) at 2 by lra.
      rewrite <- Rabs_mult. f_equal. field. lra.
    + replace (Vector2D.sub
                 (Vector2D.add (Enemigo.posicion e)
                    (Vector2D.mul
                       (Vector2D.normalizar
                          (Vector2D.sub (Figura.posicion (leer r))
                                        (Enemigo.posicion e)))
                       (Enemigo.velocidad e * dt)))
                 (Enemigo.posicion e))
        with (Vector2D.mul
                (Vector2D.normalizar
                   (Vector2D.sub (Figura.posicion (leer r)) (Enemigo.posicion e)))
                (Enemigo.velocidad e * dt)).
      * rewrite magnitud_mul, magnitud_normalizar by exact Hm. ring.
      * destruct (Enemigo.posicion e), (Vector2D.normalizar _).
        unfold Vector2D.sub, Vector2D.add, Vector2D.mul.
        cbn [Vector2D.x Vector2D.y]. f_equal; ring.
Qed.

Lemma perseguir_objetivo_efecto_testigo :
  distancia (Jugador.base Ejemplo.jugador_armado)
            (Enemigo.base
               (Enemigo.perseguir_objetivo 0.5
                  (fun _ => Jugador.base Ejemplo.jugador_armado)
                  Ejemplo.enemigo_inicial))
  = Rabs (distancia (Jugador.base Ejemplo.jugador_armado)
                    (Enemigo.base Ejemplo.enemigo_inicial)
          - 100.0 * 0.5) /\
  Enemigo.perseguir_objetivo 0.5 (fun _ => Jugador.base Ejemplo.jugador_armado)
    Ejemplo.enemigo_nuevo
  = Ejemplo.enemigo_nuevo.
Proof.
  split.
  - apply (proj2 (proj2 (proj2
             (perseguir_objetivo_efecto 0.5
                (fun _ => Jugador.base Ejemplo.jugador_armado)
                Ejemplo.enemigo_inicial))) ControlJuego.ref_jugador);
      [reflexivity | reflexivity |].
    cbn. intros [= H _]. lra.
  - apply (proj1 (perseguir_objetivo_efecto 0.5
                    (fun _ => Jugador.base Ejemplo.jugador_armado)
                    Ejemplo.enemigo_nuevo)).
    reflexivity.
Defined.

Lemma actualizar_invulnerabilidad_figura (dt : R) (e : Enemigo.t) :
  Figura.pantalla (Enemigo.base (Enemigo.actualizar_invulnerabilidad dt e))
  = Figura.pantalla (Enemigo.base e) /\
  Figura.radio (Enemigo.base (Enemigo.actualizar_invulnerabilidad dt e))
  = Figura.radio (Enemigo.base e) /\
  Enemigo.posicion (Enemigo.actualizar_invulnerabilidad dt e)
  = Enemigo.posicion e /\
  Enemigo.velocidad (Enemigo.actualizar_invulnerabilidad dt e)
  = Enemigo.velocidad e /\
  Enemigo.color_original (Enemigo.actualizar_invulnerabilidad dt e)
  = Enemigo.color_original e.
Proof.
  unfold Enemigo.actualizar_invulnerabilidad.
  destruct (Enemigo.color_original e) as [[c0 c1] c2] eqn:Ec.
  destruct (Rlt_b 0 (Enemigo.tiempo_invulnerable e)).
  - match goal with |- context [if ?c then _ else _] => destruct c end;
      cbn; rewrite ?Ec; repeat split.
  - cbn; rewrite ?Ec; repeat split.
Qed.

Lemma perseguir_objetivo_figura (dt : R) (leer : Ref -> Figura.t)
  (e : Enemigo.t) :
  Figura.pantalla (Enemigo.base (Enemigo.perseguir_objetivo dt leer e))
  = Figura.pantalla (Enemigo.base e) /\
  Figura.radio (Enemigo.base (Enemigo.perseguir_objetivo dt leer e))
  = Figura.radio (Enemigo.base e) /\
  Figura.color (Enemigo.base (Enemigo.perseguir_objetivo dt leer e))
  = Figura.color (Enemigo.base e) /\
  Enemigo.objetivo (Enemigo.perseguir_objetivo dt leer e) = Enemigo.objetivo e /\
  Enemigo.velocidad (Enemigo.perseguir_objetivo dt leer e) = Enemigo.velocidad e /\
  Enemigo.color_original (Enemigo.perseguir_objetivo dt leer e)
  = Enemigo.color_original e.
Proof.
  unfold Enemigo.perseguir_objetivo.
  destruct (Enemigo.objetivo e) as [r|] eqn:Eo; [|repeat split; auto].
  destruct (Figura.activo (leer r)); [|repeat split; auto].
  match goal with |- context [if ?c then _ else _] => destruct c end;
    repeat split; auto.
Qed.

Lemma Enemigo_actualizar_activo (dt : R) (leer : Ref -> Figura.t)
  (e : Enemigo.t) :
  0 < dt -> Enemigo.activo e = true ->
  Enemigo.actualizar dt leer e
  = Ok (Enemigo.con_base
          (Figura.mantener_en_pantalla
             (Enemigo.base
                (Enemigo.perseguir_objetivo dt leer
                   (Enemigo.actualizar_invulnerabilidad dt e))))
          (Enemigo.perseguir_objetivo dt leer
             (Enemigo.actualizar_invulnerabilidad dt e))).
Proof.
  intros Hdt Ha. unfold Enemigo.actualizar.
  rewrite (proj2 (Rle_b_false dt 0)) by lra. now rewrite Ha.
Qed.

(** X12: the update of an enemy raises on [dt <= 0] and leaves an inactive
    enemy as it is.  It never changes [vida], [vida_maxima], [activo],
    [radio], [objetivo], [velocidad] or [color_original]; and an active
    enemy on a screen it fits in ends at least [radio] away from every
    edge. *)
Theorem enemigo_actualizar_efecto (dt : R) (leer : Ref -> Figura.t)
  (e : Enemigo.t) :
  (dt <= 0 -> Enemigo.actualizar dt leer e = Raise ValueError) /\
  (0 < dt -> Enemigo.activo e = false -> Enemigo.actualizar dt leer e = Ok e) /\
  (forall e',
      Enemigo.actualizar dt leer e = Ok e' ->
      Enemigo.vida e' = Enemigo.vida e /\
      Enemigo.vida_maxima e' = Enemigo.vida_maxima e /\
      Enemigo.activo e' = Enemigo.activo e /\
      Figura.radio (Enemigo.base e') = Figura.radio (Enemigo.base e) /\
      Enemigo.objetivo e' = Enemigo.objetivo e /\
      Enemigo.velocidad e' = Enemigo.velocidad e /\
      Enemigo.color_original e' = Enemigo.color_original e /\
      (Enemigo.activo e = true -> cabe_en_pantalla (Enemigo.base e) ->
       dentro_de_pantalla (Enemigo.base e'))).
Proof.
  split.
  { intros Hdt. unfold Enemigo.actualizar.
    now rewrite (proj2 (Rle_b_true dt 0)) by lra. }
  split.
  { intros Hdt Ha. unfold Enemigo.actualizar.
    rewrite (proj2 (Rle_b_false dt 0)) by lra. now rewrite Ha. }
  intros e' E.
  destruct (Enemigo_actualizar_marco _ _ _ _ E) as (Hdt & Hv & Hm & Ha & _).
  split; [exact Hv|]. split; [exact Hm|]. split; [exact Ha|].
  destruct (Enemigo.activo e) eqn:Hact.
  - rewrite Enemigo_actualizar_activo in E by assumption.
    injection E as <-.
    destruct (actualizar_invulnerabilidad_figura dt e) as (I1 & I2 & _ & I4 & I5).
    destruct (actualizar_invulnerabilidad_marco dt e) as (_ & _ & _ & I6 & _).
    destruct (perseguir_objetivo_figura dt leer
                (Enemigo.actualizar_invulnerabilidad dt e))
      as (P1 & P2 & _ & P4 & P5 & P6).
    cbn [Enemigo.con_base Enemigo.base Enemigo.objetivo Enemigo.velocidad
         Enemigo.color_original].
    split; [cbn; congruence|]. split; [congruence|]. split; [congruence|].
    split; [congruence|].
    intros _ [Hw Hh]. apply mantener_en_pantalla_dentro.
    unfold cabe_en_pantalla. rewrite P1, P2, I1, I2. split; assumption.
  - unfold Enemigo.actualizar in E.
    rewrite (proj2 (Rle_b_false dt 0)) in E by lra.
    rewrite Hact in E. injection E as <-.
    repeat split; discriminate.
Qed.

Lemma enemigo_actualizar_efecto_testigo :
  Enemigo.actualizar (-1) (fun _ => Jugador.base Ejemplo.jugador_armado)
    Ejemplo.enemigo_inicial = Raise ValueError /\
  dentro_de_pantalla (Enemigo.base Ejemplo.enemigo_cercano) /\
  Enemigo.vida Ejemplo.enemigo_cercano = Enemigo.vida Ejemplo.enemigo_inicial.
Proof.
  destruct (enemigo_actualizar_efecto (-1)
              (fun _ => Jugador.base Ejemplo.jugador_armado)
              Ejemplo.enemigo_inicial) as (Hraise & _).
  destruct (enemigo_actualizar_efecto 0.5
              (fun _ => Jugador.base Ejemplo.jugador_armado)
              Ejemplo.enemigo_inicial) as (_ & _ & Hok).
  split; [apply Hraise; lra|].
  destruct (Hok _ enemigo_inicial_actualizado)
    as (Hv & _ & _ & _ & _ & _ & _ & Hdentro).
  split; [|exact Hv].
  apply Hdentro; [reflexivity | split; cbn; lia].
Defined.

(** X13: the colour the update gives an enemy.  While it is not
    invulnerable, each channel is the original one darkened by 75 per
    missing hit point out of 3, not below 0: the original colour at 3 hit
    points.  While it is invulnerable, the colour is the original one or
    the original one brightened by 100, not above 255.  With byte channels
    in [color_original] and at most 3 hit points, the channels stay
    bytes. *)
Theorem actualizar_invulnerabilidad_color (dt : R) (e : Enemigo.t)
  (c0 c1 c2 : Z) :
  Enemigo.color_original e = (c0, c1, c2) ->
  (Enemigo.tiempo_invulnerable e <= 0 ->
   Figura.color (Enemigo.base (Enemigo.actualizar_invulnerabilidad dt e))
   = (Z.max 0 (c0 - (3 - Enemigo.vida e) * 75),
      Z.max 0 (c1 - (3 - Enemigo.vida e) * 75),
      Z.max 0 (c2 - (3 - Enemigo.vida e) * 75))%Z) /\
  (Enemigo.tiempo_invulnerable e <= 0 -> Enemigo.vida e = 3%Z ->
   color_valido (c0, c1, c2) ->
   Figura.color (Enemigo.base (Enemigo.actualizar_invulnerabilidad dt e))
   = (c0, c1, c2)) /\
  (0 < Enemigo.tiempo_invulnerable e ->
   Figura.color (Enemigo.base (Enemigo.actualizar_invulnerabilidad dt e))
   = (c0, c1, c2) \/
   Figura.color (Enemigo.base (Enemigo.actualizar_invulnerabilidad dt e))
   = (Z.min 255 (c0 + 100), Z.min 255 (c1 + 100), Z.min 255 (c2 + 100))%Z) /\
  (color_valido (c0, c1, c2) -> (Enemigo.vida e <= 3)%Z ->
   color_valido
     (Figura.color (Enemigo.base (Enemigo.actualizar_invulnerabilidad dt e)))).
Proof.
  intros Ec. unfold Enemigo.actualizar_invulnerabilidad. rewrite Ec.
  destruct (Rlt_b 0 (Enemigo.tiempo_invulnerable e)) eqn:Et.
  - apply Rlt_b_true in Et.
    match goal with |- context [if ?c then _ else _] => destruct c end;
      cbn [Enemigo.con_base Enemigo.base Figura.con_color Figura.color
           Enemigo.con_tiempo_invulnerable Enemigo.color_original];
      rewrite ?Ec.
    + split; [intros; lra|]. split; [intros; lra|]. split; [now right|].
      unfold color_valido. lia.
    + split; [intros; lra|]. split; [intros; lra|]. split; [now left|].
      auto.
  - apply Rlt_b_false in Et.
    cbn [Enemigo.con_base Enemigo.base Figura.con_color Figura.color].
    split; [reflexivity|]. split.
    + intros _ Hv Hc. rewrite Hv. unfold color_valido in Hc.
      f_equal; [f_equal|]; lia.
    + split; [intros; lra|]. unfold color_valido. lia.
Qed.

Lemma actualizar_invulnerabilidad_color_testigo :
  Figura.color
    (Enemigo.base
       (Enemigo.actualizar_invulnerabilidad 0.5 Ejemplo.enemigo_nuevo))
  = Ejemplo.rojo /\
  color_valido
    (Figura.color
       (Enemigo.base
          (Enemigo.actualizar_invulnerabilidad 0.5 Ejemplo.enemigo_herido))).
Proof.
  split.
  - apply (proj1 (proj2 (actualizar_invulnerabilidad_color 0.5
                           Ejemplo.enemigo_nuevo 255 0 0 eq_refl)));
      [cbn; lra | reflexivity | unfold color_valido; lia].
  - destruct enemigo_herido_estado as (E & _ & _ & Hv).
    assert (Hc : Enemigo.color_original Ejemplo.enemigo_herido
                 = (255, 0, 0)%Z).
    { unfold Ejemplo.enemigo_herido, Enemigo.recibir_dano.
      destruct (Rle_b _ _); [|reflexivity].
      cbn [snd]. match goal with |- context [if ?c then _ else _] =>
        destruct c end; reflexivity. }
    apply (proj2 (proj2 (proj2 (actualizar_invulnerabilidad_color 0.5
                                  Ejemplo.enemigo_herido 255 0 0 Hc)))).
    + unfold color_valido; lia.
    + rewrite Hv. lia.
Defined.

Lemma llamar_enemigo_varias_vida_maxima (cs : list LlamadaEnemigo) :
  forall e,
    Enemigo.vida_maxima (llamar_enemigo_varias cs e) = Enemigo.vida_maxima e.
Proof.
  unfold llamar_enemigo_varias.
  induction cs as [|c cs IH]; intros e; cbn [fold_left]; [reflexivity|].
  rewrite IH. destruct c as [|dt o|o|]; cbn [llamar_enemigo].
  - destruct (Rle_dec (Enemigo.tiempo_invulnerable e) 0) as [Ht|Ht].
    + destruct (recibir_dano_vulnerable e Ht) as (e' & -> & _ & Hm & _).
      exact Hm.
    + now rewrite recibir_dano_invulnerable by lra.
  - destruct (Enemigo.actualizar dt (fun _ => o) e) as [e'|] eqn:E;
      [|reflexivity].
    now apply Enemigo_actualizar_marco in E.
  - reflexivity.
  - unfold Enemigo.update.
    match goal with |- context [if ?c then _ else _] => destruct c end;
      reflexivity.
Qed.

Lemma porcentaje_cotas (v m : Z) :
  (0 <= v <= m)%Z -> (0 < m)%Z ->
  0 <= IZR v / IZR m <= 1 /\
  (IZR v / IZR m = 0 <-> v = 0%Z) /\
  (IZR v / IZR m = 1 <-> v = m).
Proof.
  intros [Hv Hvm] Hm.
  apply IZR_le in Hv, Hvm. apply IZR_lt in Hm.
  assert (Hx : IZR v = IZR v / IZR m * IZR m) by (field; lra).
  assert (Hinv : 0 < / IZR m) by (apply Rinv_0_lt_compat; lra).
  split; [|split].
  - unfold Rdiv. split; [nra|].
    apply (Rmult_le_reg_r (IZR m)); [lra|]. unfold Rdiv in Hx.
    rewrite <- Hx. lra.
  - split.
    + intros H0. rewrite H0 in Hx. apply eq_IZR. lra.
    + intros ->. unfold Rdiv. lra.
  - split.
    + intros H1. rewrite H1 in Hx. apply eq_IZR. lra.
    + intros ->. field. lra.
Qed.

(** X14: [obtener_estado_vida] returns the hit points, their maximum and
    their ratio, and 0.0 for the ratio when the maximum is not positive:
    it never divides by zero.  With hit points in range the ratio is
    between 0 and 1, is 0 exactly at 0 hit points and 1 exactly at full
    hit points.  For a constructed enemy, after every sequence of calls,
    the maximum is 3 and the ratio is [vida / 3]. *)
Theorem obtener_estado_vida_porcentaje :
  (forall e : Enemigo.t,
      (Enemigo.vida_maxima e <= 0)%Z ->
      Enemigo.obtener_estado_vida e
      = (Enemigo.vida e, Enemigo.vida_maxima e, 0.0)) /\
  (forall e : Enemigo.t,
      (0 <= Enemigo.vida e <= Enemigo.vida_maxima e)%Z ->
      (0 < Enemigo.vida_maxima e)%Z ->
      fst (Enemigo.obtener_estado_vida e)
      = (Enemigo.vida e, Enemigo.vida_maxima e) /\
      0 <= snd (Enemigo.obtener_estado_vida e) <= 1 /\
      (snd (Enemigo.obtener_estado_vida e) = 0 <-> Enemigo.vida e = 0%Z) /\
      (snd (Enemigo.obtener_estado_vida e) = 1 <->
       Enemigo.vida e = Enemigo.vida_maxima e)) /\
  (forall (pantalla : pygame.Surface) (x y : R) (color : Figura.Color)
          (radio : Z) (e0 : Enemigo.t) (cs : list LlamadaEnemigo),
      Enemigo.init pantalla x y color radio = Ok e0 ->
      Enemigo.obtener_estado_vida (llamar_enemigo_varias cs e0)
      = (Enemigo.vida (llamar_enemigo_varias cs e0), 3%Z,
         IZR (Enemigo.vida (llamar_enemigo_varias cs e0)) / 3) /\
      0 <= snd (Enemigo.obtener_estado_vida (llamar_enemigo_varias cs e0)) <= 1).
Proof.
  split; [|split].
  - intros e Hm. unfold Enemigo.obtener_estado_vida.
    now rewrite (proj2 (Z.ltb_ge 0 (Enemigo.vida_maxima e))) by exact Hm.
  - intros e Hv Hm. unfold Enemigo.obtener_estado_vida.
    rewrite (proj2 (Z.ltb_lt 0 (Enemigo.vida_maxima e))) by exact Hm.
    cbn [fst snd]. split; [reflexivity|]. now apply porcentaje_cotas.
  - intros pantalla x y color radio e0 cs Hinit.
    assert (Hm0 : Enemigo.vida_maxima e0 = 3%Z).
    { unfold Enemigo.init in Hinit. destruct (radio <=? 0)%Z; [discriminate|].
      now injection Hinit as <-. }
    apply Enemigo_init_vida_en_rango in Hinit.
    destruct (llamar_enemigo_varias_vida_en_rango cs e0 (proj1 Hinit))
      as [Hr _].
    pose proof (llamar_enemigo_varias_vida_maxima cs e0) as Hm.
    rewrite Hm0 in Hm. rewrite Hm in Hr.
    unfold Enemigo.obtener_estado_vida. rewrite Hm. cbn [Z.ltb Z.compare snd].
    split; [reflexivity|]. now apply porcentaje_cotas.
Qed.

Lemma obtener_estado_vida_porcentaje_testigo :
  Enemigo.obtener_estado_vida
    (Enemigo.mk (Figura.init Ejemplo.pantalla 0 0 Ejemplo.rojo 20)
                100.0 None 0 0 0.0 Ejemplo.rojo 0)
  = (0%Z, 0%Z, 0.0) /\
  snd (Enemigo.obtener_estado_vida Ejemplo.enemigo_nuevo) = 1 /\
  0 <= snd (Enemigo.obtener_estado_vida
              (llamar_enemigo_varias Ejemplo.llamadas_de_dano
                 Ejemplo.enemigo_nuevo)) <= 1.
Proof.
  destruct obtener_estado_vida_porcentaje as (Hcero & Hrango & Hsec).
  split; [apply Hcero; cbn; lia|]. split.
  - apply (Hrango Ejemplo.enemigo_nuevo); [cbn; lia | cbn; lia | reflexivity].
  - apply (Hsec Ejemplo.pantalla 400 150 Ejemplo.rojo 20%Z
             Ejemplo.enemigo_nuevo Ejemplo.llamadas_de_dano).
    reflexivity.
Defined.

(** ** control_juego.py: respawn *)

Lemma randint_rango (a b k z : Z) :
  randint a b k = Ok z -> (a <= z <= b)%Z.
Proof.
  unfold randint. destruct (b <? a)%Z eqn:E; [discriminate|].
  apply Z.ltb_ge in E. intros [= <-].
  pose proof (Z.mod_pos_bound k (b - a + 1) ltac:(lia)). lia.
Qed.

Lemma choice_en_lista (k : nat) :
  In (choice [10; 15; 20; 25; 30]%Z k) [10; 15; 20; 25; 30]%Z.
Proof.
  unfold choice. apply nth_In. cbn [length].
  apply Nat.mod_upper_bound. discriminate.
Qed.

Lemma respawnear_enemigo_Ok (az : Azar) (s s' : ControlJuego.t) :
  ControlJuego.respawnear_enemigo az s = Ok s' ->
  exists x y,
    (50 <= x <= pygame.get_width (ControlJuego.pantalla s) - 50)%Z /\
    (50 <= y <= pygame.get_height (ControlJuego.pantalla s) - 50)%Z /\
    s' = ControlJuego.mk
           (ControlJuego.pantalla s) (ControlJuego.puntos s)
           (ControlJuego.jugador s)
           (fun r' =>
              if Nat.eqb r' (ControlJuego.siguiente s)
              then enemigo_de_respawn (ControlJuego.pantalla s) x y
                     (choice [10; 15; 20; 25; 30]%Z (azar_radio az))
              else ControlJuego.objetos s r')
           (S (ControlJuego.siguiente s))
           (ControlJuego.enemigos s ++ [ControlJuego.siguiente s])
           (ControlJuego.siguiente s)
           (ControlJuego.tiempo_enemigo s) (ControlJuego.intervalo_enemigo s)
           (ControlJuego.jugando s) (ControlJuego.tiempo_desde_ultimo_dano s)
           (ControlJuego.cooldown_dano s).
Proof.
  unfold ControlJuego.respawnear_enemigo.
  destruct (randint 50 _ (azar_x az)) as [x|] eqn:Ex; [|discriminate].
  destruct (randint 50 _ (azar_y az)) as [y|] eqn:Ey; [|discriminate].
  cbn [bind]. unfold Enemigo.init.
  pose proof (choice_radio_positivo (azar_radio az)) as Hr.
  rewrite (proj2 (Z.leb_gt _ 0)) by lia. cbn [bind].
  intros [= <-]. exists x, y.
  split; [eapply randint_rango; eassumption|].
  split; [eapply randint_rango; eassumption|]. reflexivity.
Qed.

Lemma respawnear_enemigo_pantalla_chica (az : Azar) (s : ControlJuego.t) :
  ~ pantalla_suficiente (ControlJuego.pantalla s) ->
  ControlJuego.respawnear_enemigo az s = Raise ValueError.
Proof.
  intros Hno. unfold ControlJuego.respawnear_enemigo, randint.
  destruct (pygame.get_width (ControlJuego.pantalla s) - 50 <? 50)%Z eqn:Ew;
    [reflexivity|].
  destruct (pygame.get_height (ControlJuego.pantalla s) - 50 <? 50)%Z eqn:Eh;
    [reflexivity|].
  exfalso. apply Hno. apply Z.ltb_ge in Ew, Eh. split; lia.
Qed.

(** X15: [respawnear_enemigo] raises [ValueError] on a screen narrower or
    lower than 100 and returns otherwise.  It creates one enemy: at least
    50 away from every edge, with a radius of 10, 15, 20, 25 or 30, 3 hit
    points out of 3, not invulnerable, active, with the player as target.
    That enemy becomes the tracked one and the last of the list; the other
    enemy objects, the player, the score and [jugando] are untouched. *)
Theorem respawnear_enemigo_regla (az : Azar) (s : ControlJuego.t) :
  (~ pantalla_suficiente (ControlJuego.pantalla s) ->
   ControlJuego.respawnear_enemigo az s = Raise ValueError) /\
  (pantalla_suficiente (ControlJuego.pantalla s) ->
   exists s',
     ControlJuego.respawnear_enemigo az s = Ok s' /\
     ControlJuego.enemigo s' = ControlJuego.siguiente s /\
     ControlJuego.enemigos s'
     = ControlJuego.enemigos s ++ [ControlJuego.siguiente s] /\
     ControlJuego.siguiente s' = S (ControlJuego.siguiente s) /\
     (forall r, r <> ControlJuego.siguiente s ->
                ControlJuego.leer s' r = ControlJuego.leer s r) /\
     ControlJuego.jugador s' = ControlJuego.jugador s /\
     ControlJuego.puntos s' = ControlJuego.puntos s /\
     ControlJuego.jugando s' = ControlJuego.jugando s /\
     let nuevo := ControlJuego.leer s' (ControlJuego.enemigo s') in
     50 <= Vector2D.x (Enemigo.posicion nuevo)
       <= IZR (pygame.get_width (ControlJuego.pantalla s) - 50) /\
     50 <= Vector2D.y (Enemigo.posicion nuevo)
       <= IZR (pygame.get_height (ControlJuego.pantalla s) - 50) /\
     In (Figura.radio (Enemigo.base nuevo)) [10; 15; 20; 25; 30]%Z /\
     enemigo_intacto nuevo /\
     Enemigo.vida_maxima nuevo = 3%Z /\
     Enemigo.objetivo nuevo = Some ControlJuego.ref_jugador).
Proof.
  split; [apply respawnear_enemigo_pantalla_chica|].
  intros Hp. destruct (respawnear_enemigo_total az s Hp) as [s' E].
  exists s'. split; [exact E|].
  destruct (respawnear_enemigo_Ok _ _ _ E) as (x & y & Hx & Hy & ->).
  cbn [ControlJuego.enemigo ControlJuego.enemigos ControlJuego.siguiente
       ControlJuego.jugador ControlJuego.puntos ControlJuego.jugando].
  do 3 (split; [reflexivity|]).
  split.
  { intros r Hr. unfold ControlJuego.leer. cbn [ControlJuego.objetos].
    now rewrite (proj2 (Nat.eqb_neq r (ControlJuego.siguiente s))) by exact Hr. }
  do 3 (split; [reflexivity|]).
  unfold ControlJuego.leer. cbn [ControlJuego.objetos].
  rewrite Nat.eqb_refl.
  unfold enemigo_de_respawn, enemigo_intacto.
  cbn [Enemigo.establecer_objetivo Enemigo.con_objetivo Enemigo.posicion
       Enemigo.base Enemigo.activo Enemigo.vida Enemigo.vida_maxima
       Enemigo.tiempo_invulnerable Enemigo.objetivo Figura.init
       Figura.posicion Figura.radio Figura.activo Vector2D.x Vector2D.y].
  destruct Hx as [Hx1 Hx2], Hy as [Hy1 Hy2].
  apply IZR_le in Hx1, Hx2, Hy1, Hy2.
  split; [split; assumption|]. split; [split; assumption|].
  split; [apply choice_en_lista|].
  split; [repeat split; lra|]. split; reflexivity.
Qed.

Lemma respawnear_enemigo_regla_testigo :
  exists s',
    ControlJuego.respawnear_enemigo Ejemplo.azar Ejemplo.sesion_nueva = Ok s' /\
    ControlJuego.enemigos s' = [0%nat; 1%nat] /\
    ControlJuego.enemigo s' = 1%nat /\
    enemigo_intacto (ControlJuego.leer s' 1%nat) /\
    ControlJuego.leer s' 0%nat = Ejemplo.enemigo_inicial.
Proof.
  destruct (proj2 (respawnear_enemigo_regla Ejemplo.azar Ejemplo.sesion_nueva))
    as (s' & E & He & Hl & _ & Hotros & _ & _ & _ & _ & _ & _ & Hint & _);
    [split; cbn; lia|].
  exists s'. split; [exact E|]. split; [exact Hl|]. split; [exact He|].
  split; [rewrite He in Hint; exact Hint|].
  rewrite Hotros; [reflexivity | discriminate].
Defined.

(** ** control_juego.py: events *)

Lemma disparar_total (objetivo_pos : R * R) (j : Jugador.t) :
  exists b j',
    Jugador.disparar objetivo_pos j = Ok (b, j') /\
    Jugador.base j' = Jugador.base j /\
    Jugador.cooldown_disparo j' = Jugador.cooldown_disparo j /\
    ((b = false /\ j' = j) \/
     (b = true /\ Jugador.ultimo_disparo j' = 0 /\
      length (Jugador.proyectiles j') = S (length (Jugador.proyectiles j)))).
Proof.
  destruct (Rlt_dec (Jugador.ultimo_disparo j) (Jugador.cooldown_disparo j))
    as [H|H].
  - exists false, j. rewrite disparar_en_cooldown by exact H.
    do 3 (split; [reflexivity|]). left. split; reflexivity.
  - destruct (disparar_listo j objetivo_pos)
      as (p & j' & E & Hps & Hu & Hb & Hc & _); [lra|].
    exists true, j'. split; [exact E|]. split; [exact Hb|]. split; [exact Hc|].
    right. split; [reflexivity|]. split; [exact Hu|].
    rewrite Hps, length_app. cbn. lia.
Qed.

Lemma manejar_eventos_forma (eventos : list ControlJuego.Evento) :
  forall s, exists j',
    ControlJuego.manejar_eventos eventos s
    = Ok (ControlJuego.mk
            (ControlJuego.pantalla s) (ControlJuego.puntos s) j'
            (ControlJuego.objetos s) (ControlJuego.siguiente s)
            (ControlJuego.enemigos s) (ControlJuego.enemigo s)
            (ControlJuego.tiempo_enemigo s) (ControlJuego.intervalo_enemigo s)
            (ControlJuego.jugando s && negb (existsb es_QUIT eventos))
            (ControlJuego.tiempo_desde_ultimo_dano s)
            (ControlJuego.cooldown_dano s)) /\
    Jugador.base j' = Jugador.base (ControlJuego.jugador s) /\
    Jugador.cooldown_disparo j'
    = Jugador.cooldown_disparo (ControlJuego.jugador s) /\
    (existsb es_clic_izquierdo eventos = false -> j' = ControlJuego.jugador s) /\
    (Jugador.ultimo_disparo (ControlJuego.jugador s)
     < Jugador.cooldown_disparo (ControlJuego.jugador s) ->
     j' = ControlJuego.jugador s) /\
    (0 < Jugador.cooldown_disparo (ControlJuego.jugador s) ->
     (length (Jugador.proyectiles j')
      <= S (length (Jugador.proyectiles (ControlJuego.jugador s))))%nat /\
     (length (Jugador.proyectiles (ControlJuego.jugador s))
      <= length (Jugador.proyectiles j'))%nat).
Proof.
  induction eventos as [|ev eventos IH]; intros s;
    cbn [ControlJuego.manejar_eventos existsb].
  - exists (ControlJuego.jugador s). rewrite andb_true_r.
    destruct s. cbn. repeat split; auto.
  - destruct ev as [|button pos|]; cbn [es_QUIT es_clic_izquierdo bind orb negb].
    + destruct (IH (ControlJuego.con_jugando false s))
        as (j' & E & Hb & Hc & H1 & H2 & H3).
      exists j'. rewrite E. cbn in *. rewrite andb_false_r.
      repeat split; auto; now apply H3.
    + destruct (button =? 1)%Z; cbn [bind orb].
      * destruct (disparar_total (IZR (fst pos), IZR (snd pos))
                    (ControlJuego.jugador s))
          as (b & j1 & E1 & Hb1 & Hc1 & Hcasos).
        rewrite E1. cbn [bind snd].
        destruct (IH (ControlJuego.con_jugador j1 s))
          as (j' & E & Hb & Hc & H1 & H2 & H3).
        exists j'. rewrite E. cbn in *.
        split; [reflexivity|]. split; [congruence|]. split; [congruence|].
        split; [discriminate|].
        destruct Hcasos as [[-> ->] | (-> & Hu & Hlen)].
        -- split; [exact H2|]. exact H3.
        -- split.
           ++ intros Hcool.
              rewrite disparar_en_cooldown in E1 by exact Hcool. discriminate.
           ++ intros Hpos. rewrite H2 by (rewrite Hu, Hc1; exact Hpos).
              rewrite Hlen. split; lia.
      * destruct (IH s) as (j' & E & Hb & Hc & H1 & H2 & H3).
        exists j'. rewrite E.
        exact (conj eq_refl (conj Hb (conj Hc (conj H1 (conj H2 H3))))).
    + destruct (IH s) as (j' & E & Hb & Hc & H1 & H2 & H3).
      exists j'. rewrite E.
      exact (conj eq_refl (conj Hb (conj Hc (conj H1 (conj H2 H3))))).
Qed.

(** X16: [manejar_eventos] never raises.  It leaves the score, the
    enemies and the timers alone; [jugando] stays as it is unless a QUIT
    is among the events, and is false then; the player keeps its position;
    without a left click, and also while the player's cooldown runs, the
    player is unchanged; and, the cooldown being positive, one call adds
    at most one projectile, however many left clicks there are. *)
Theorem manejar_eventos_efecto (eventos : list ControlJuego.Evento)
  (s : ControlJuego.t) :
  exists s',
    ControlJuego.manejar_eventos eventos s = Ok s' /\
    ControlJuego.jugando s'
    = ControlJuego.jugando s && negb (existsb es_QUIT eventos) /\
    ControlJuego.puntos s' = ControlJuego.puntos s /\
    ControlJuego.objetos s' = ControlJuego.objetos s /\
    ControlJuego.enemigos s' = ControlJuego.enemigos s /\
    ControlJuego.enemigo s' = ControlJuego.enemigo s /\
    ControlJuego.tiempo_enemigo s' = ControlJuego.tiempo_enemigo s /\
    ControlJuego.tiempo_desde_ultimo_dano s'
    = ControlJuego.tiempo_desde_ultimo_dano s /\
    Jugador.base (ControlJuego.jugador s')
    = Jugador.base (ControlJuego.jugador s) /\
    (existsb es_clic_izquierdo eventos = false ->
     ControlJuego.jugador s' = ControlJuego.jugador s) /\
    (Jugador.ultimo_disparo (ControlJuego.jugador s)
     < Jugador.cooldown_disparo (ControlJuego.jugador s) ->
     ControlJuego.jugador s' = ControlJuego.jugador s) /\
    (0 < Jugador.cooldown_disparo (ControlJuego.jugador s) ->
     (length (Jugador.proyectiles (ControlJuego.jugador s'))
      <= S (length (Jugador.proyectiles (ControlJuego.jugador s))))%nat).
Proof.
  destruct (manejar_eventos_forma eventos s) as (j' & E & Hb & _ & H1 & H2 & H3).
  eexists. split; [exact E|].
  cbn [ControlJuego.jugando ControlJuego.puntos ControlJuego.objetos
       ControlJuego.enemigos ControlJuego.enemigo ControlJuego.tiempo_enemigo
       ControlJuego.tiempo_desde_ultimo_dano ControlJuego.jugador].
  do 7 (split; [reflexivity|]).
  split; [exact Hb|]. split; [exact H1|]. split; [exact H2|].
  intros Hpos. now apply H3.
Qed.

Lemma manejar_eventos_efecto_testigo :
  exists s',
    ControlJuego.manejar_eventos
      [ControlJuego.MOUSEBUTTONDOWN 1 (0, 300)%Z;
       ControlJuego.MOUSEBUTTONDOWN 1 (0, 300)%Z; ControlJuego.QUIT]
      (ControlJuego.con_jugador Ejemplo.jugador_listo Ejemplo.sesion_nueva)
    = Ok s' /\
    ControlJuego.jugando s' = false /\
    (length (Jugador.proyectiles (ControlJuego.jugador s')) <= 1)%nat.
Proof.
  destruct (manejar_eventos_efecto
              [ControlJuego.MOUSEBUTTONDOWN 1 (0, 300)%Z;
               ControlJuego.MOUSEBUTTONDOWN 1 (0, 300)%Z; ControlJuego.QUIT]
              (ControlJuego.con_jugador Ejemplo.jugador_listo
                 Ejemplo.sesion_nueva))
    as (s' & E & Hj & _ & _ & _ & _ & _ & _ & _ & _ & _ & Huno).
  exists s'. split; [exact E|]. split; [exact Hj|].
  apply Huno. cbn. lra.
Defined.

(** ** control_juego.py: the end of a frame *)

Lemma respawnear_enemigo_campos (az : Azar) (s s' : ControlJuego.t) :
  ControlJuego.respawnear_enemigo az s = Ok s' ->
  exists nuevo,
    enemigo_intacto nuevo /\
    ControlJuego.enemigo s' = ControlJuego.siguiente s /\
    ControlJuego.enemigos s'
    = ControlJuego.enemigos s ++ [ControlJuego.siguiente s] /\
    (forall r, ControlJuego.leer s' r
               = if Nat.eqb r (ControlJuego.siguiente s) then nuevo
                 else ControlJuego.leer s r) /\
    ControlJuego.intervalo_enemigo s' = ControlJuego.intervalo_enemigo s /\
    ControlJuego.tiempo_enemigo s' = ControlJuego.tiempo_enemigo s.
Proof.
  intros E. apply respawnear_enemigo_Ok in E.
  destruct E as (x & y & _ & _ & ->).
  eexists. split; [|repeat split].
  unfold enemigo_intacto, enemigo_de_respawn.
  cbn [Enemigo.establecer_objetivo Enemigo.con_objetivo Enemigo.activo
       Enemigo.base Enemigo.vida Enemigo.tiempo_invulnerable Figura.init
       Figura.activo].
  repeat split. lra.
Qed.

(** Steps 6 to 8 of [actualizar], on the session [s1] that step 5 leaves. *)
Lemma fin_de_cuadro (dt : R) (az2 : Azar) (s1 s' : ControlJuego.t) :
  (let self2 :=
     if (ControlJuego.puntos s1 <=? 0)%Z
     then ControlJuego.con_puntos 0 (ControlJuego.con_jugando false s1)
     else s1 in
   let self3 :=
     ControlJuego.con_enemigos
       (filter (fun r => Enemigo.activo (ControlJuego.leer self2 r))
               (ControlJuego.enemigos self2))
       self2 in
   let self4 :=
     ControlJuego.con_tiempo_enemigo (ControlJuego.tiempo_enemigo self3 + dt)
       self3 in
   if Rle_b (ControlJuego.intervalo_enemigo self4)
            (ControlJuego.tiempo_enemigo self4)
   then
     self5 <- ControlJuego.respawnear_enemigo az2 self4 ;;
     Ok (ControlJuego.con_tiempo_enemigo 0.0 self5)
   else Ok self4) = Ok s' ->
  Enemigo.activo (ControlJuego.leer s1 (ControlJuego.enemigo s1)) = true ->
  Forall (fun r => Enemigo.activo (ControlJuego.leer s' r) = true)
         (ControlJuego.enemigos s') /\
  Enemigo.activo (ControlJuego.leer s' (ControlJuego.enemigo s')) = true /\
  (In (ControlJuego.enemigo s1) (ControlJuego.enemigos s1) ->
   In (ControlJuego.enemigo s') (ControlJuego.enemigos s')) /\
  (forall r, ControlJuego.leer s' r = ControlJuego.leer s1 r \/
             enemigo_intacto (ControlJuego.leer s' r)) /\
  (ControlJuego.tiempo_enemigo s1 + dt < ControlJuego.intervalo_enemigo s1 ->
   ControlJuego.tiempo_enemigo s' = ControlJuego.tiempo_enemigo s1 + dt /\
   ControlJuego.enemigo s' = ControlJuego.enemigo s1 /\
   ControlJuego.enemigos s'
   = filter (fun r => Enemigo.activo (ControlJuego.leer s1 r))
            (ControlJuego.enemigos s1)) /\
  (ControlJuego.intervalo_enemigo s1 <= ControlJuego.tiempo_enemigo s1 + dt ->
   ControlJuego.tiempo_enemigo s' = 0 /\
   ControlJuego.enemigos s'
   = filter (fun r => Enemigo.activo (ControlJuego.leer s1 r))
            (ControlJuego.enemigos s1) ++ [ControlJuego.enemigo s'] /\
   enemigo_intacto (ControlJuego.leer s' (ControlJuego.enemigo s'))).
Proof.
  cbv zeta.
  set (self2 := if (ControlJuego.puntos s1 <=? 0)%Z then _ else _).
  set (self3 := ControlJuego.con_enemigos _ self2).
  set (self4 := ControlJuego.con_tiempo_enemigo _ self3).
  set (vivos := filter (fun r => Enemigo.activo (ControlJuego.leer s1 r))
                       (ControlJuego.enemigos s1)).
  assert (F : ControlJuego.objetos self2 = ControlJuego.objetos s1 /\
              ControlJuego.enemigos self2 = ControlJuego.enemigos s1 /\
              ControlJuego.enemigo self2 = ControlJuego.enemigo s1 /\
              ControlJuego.tiempo_enemigo self2 = ControlJuego.tiempo_enemigo s1 /\
              ControlJuego.intervalo_enemigo self2
              = ControlJuego.intervalo_enemigo s1)
    by (subst self2; destruct (ControlJuego.puntos s1 <=? 0)%Z; repeat split).
  destruct F as (Fo & Fl & Fe & Ft & Fi).
  assert (G : (forall r, ControlJuego.leer self4 r = ControlJuego.leer s1 r) /\
              ControlJuego.enemigos self4 = vivos /\
              ControlJuego.enemigo self4 = ControlJuego.enemigo s1 /\
              ControlJuego.tiempo_enemigo self4
              = ControlJuego.tiempo_enemigo s1 + dt /\
              ControlJuego.intervalo_enemigo self4
              = ControlJuego.intervalo_enemigo s1).
  { subst self4 self3 vivos. unfold ControlJuego.leer.
    cbn [ControlJuego.con_enemigos ControlJuego.con_tiempo_enemigo
         ControlJuego.objetos ControlJuego.enemigos ControlJuego.enemigo
         ControlJuego.tiempo_enemigo ControlJuego.intervalo_enemigo].
    rewrite Fo, Fl, Fe, Ft, Fi. repeat split. }
  destruct G as (Gleer & Gl & Ge & Gt & Gi).
  clearbody self4. clear self3 self2 Fo Fl Fe Ft Fi.
  assert (Hvivos : forall r, In r vivos ->
                             Enemigo.activo (ControlJuego.leer s1 r) = true)
    by (intros r Hr; apply filter_In in Hr; tauto).
  rewrite Gi, Gt. intros E Hprim.
  destruct (Rle_b (ControlJuego.intervalo_enemigo s1)
                  (ControlJuego.tiempo_enemigo s1 + dt)) eqn:Eint.
  - apply Rle_b_true in Eint.
    destruct (ControlJuego.respawnear_enemigo az2 self4) as [s5|] eqn:E5;
      [|discriminate].
    cbn [bind] in E. injection E as <-.
    apply respawnear_enemigo_campos in E5.
    destruct E5 as (nuevo & Hn & He5 & Hl5 & Hleer5 & Hi5 & _).
    change (ControlJuego.leer (ControlJuego.con_tiempo_enemigo 0.0 s5))
      with (ControlJuego.leer s5).
    cbn [ControlJuego.con_tiempo_enemigo ControlJuego.enemigos
         ControlJuego.enemigo ControlJuego.tiempo_enemigo
         ControlJuego.intervalo_enemigo].
    rewrite He5, Hl5, Gl.
    assert (Hult : ControlJuego.leer s5 (ControlJuego.siguiente self4) = nuevo)
      by (now rewrite Hleer5, Nat.eqb_refl).
    rewrite Hult.
    split.
    { apply Forall_forall. intros r Hr. rewrite Hleer5.
      destruct (Nat.eqb r (ControlJuego.siguiente self4)) eqn:Er;
        [apply Hn|].
      apply in_app_or in Hr. destruct Hr as [Hr | [<- | []]].
      - rewrite Gleer. now apply Hvivos.
      - now rewrite Nat.eqb_refl in Er. }
    split; [apply Hn|].
    split; [intros _; apply in_or_app; right; now left|].
    split.
    { intros r. rewrite Hleer5.
      destruct (Nat.eqb r (ControlJuego.siguiente self4));
        [now right | left; apply Gleer]. }
    split; [intros; lra|].
    intros _. split; [lra|]. split; [reflexivity | exact Hn].
  - apply Rle_b_false in Eint. injection E as <-.
    rewrite Gl, Ge, Gt, Gleer.
    split.
    { apply Forall_forall. intros r Hr. rewrite Gleer. now apply Hvivos. }
    split; [exact Hprim|].
    split.
    { intros Hin. apply filter_In. split; [exact Hin | exact Hprim]. }
    split; [intros r; left; apply Gleer|].
    split; [intros _; repeat split | intros; lra].
Qed.

(** Steps 5 to 8 of [actualizar]: what they make of the enemies and of the
    spawn timer. *)
Lemma desde_respawn_enemigos (dt : R) (az1 az2 : Azar) (s s' : ControlJuego.t) :
  ControlJuego.desde_respawn dt az1 az2 s = Ok s' ->
  Forall (fun r => Enemigo.activo (ControlJuego.leer s' r) = true)
         (ControlJuego.enemigos s') /\
  Enemigo.activo (ControlJuego.leer s' (ControlJuego.enemigo s')) = true /\
  (Enemigo.activo (ControlJuego.leer s (ControlJuego.enemigo s)) = false \/
   In (ControlJuego.enemigo s) (ControlJuego.enemigos s) ->
   In (ControlJuego.enemigo s') (ControlJuego.enemigos s')) /\
  (forall r, ControlJuego.leer s' r = ControlJuego.leer s r \/
             enemigo_intacto (ControlJuego.leer s' r)) /\
  (ControlJuego.tiempo_enemigo s + dt < ControlJuego.intervalo_enemigo s ->
   ControlJuego.tiempo_enemigo s' = ControlJuego.tiempo_enemigo s + dt) /\
  (ControlJuego.intervalo_enemigo s <= ControlJuego.tiempo_enemigo s + dt ->
   ControlJuego.tiempo_enemigo s' = 0 /\
   (exists l, ControlJuego.enemigos s' = l ++ [ControlJuego.enemigo s']) /\
   enemigo_intacto (ControlJuego.leer s' (ControlJuego.enemigo s'))) /\
  (Enemigo.activo (ControlJuego.leer s (ControlJuego.enemigo s)) = true ->
   (ControlJuego.tiempo_enemigo s + dt < ControlJuego.intervalo_enemigo s ->
    ControlJuego.enemigo s' = ControlJuego.enemigo s /\
    ControlJuego.enemigos s'
    = filter (fun r => Enemigo.activo (ControlJuego.leer s r))
             (ControlJuego.enemigos s)) /\
   (ControlJuego.intervalo_enemigo s <= ControlJuego.tiempo_enemigo s + dt ->
    ControlJuego.enemigos s'
    = filter (fun r => Enemigo.activo (ControlJuego.leer s r))
             (ControlJuego.enemigos s) ++ [ControlJuego.enemigo s'])).
Proof.
  unfold ControlJuego.desde_respawn.
  destruct (Enemigo.activo (ControlJuego.leer s (ControlJuego.enemigo s)))
    eqn:Hact; cbn [negb].
  - unfold bind at 1. intros E. apply fin_de_cuadro in E; [|exact Hact].
    destruct E as (A & B & C & D & T1 & T2).
    split; [exact A|]. split; [exact B|].
    split; [intros [Hf | Hin]; [discriminate | auto]|].
    split; [exact D|].
    split; [intros H; now apply T1|].
    split.
    { intros H. destruct (T2 H) as (T & L & I). split; [exact T|].
      split; [eauto | exact I]. }
    intros _. split.
    + intros H. destruct (T1 H) as (_ & T & L). auto.
    + intros H. now destruct (T2 H) as (_ & L & _).
  - destruct (ControlJuego.respawnear_enemigo az1 s) as [s1|] eqn:E1;
      [|discriminate].
    unfold bind at 1. intros E.
    apply respawnear_enemigo_campos in E1.
    destruct E1 as (nuevo & Hn & He1 & Hl1 & Hleer1 & Hi1 & Ht1).
    assert (Hult : ControlJuego.leer s1 (ControlJuego.enemigo s1) = nuevo)
      by (now rewrite He1, Hleer1, Nat.eqb_refl).
    apply fin_de_cuadro in E; [|rewrite Hult; apply Hn].
    destruct E as (A & B & C & D & T1 & T2).
    rewrite Hi1, Ht1 in T1, T2.
    split; [exact A|]. split; [exact B|].
    split.
    { intros _. apply C. rewrite He1, Hl1. apply in_or_app. right. now left. }
    split.
    { intros r. destruct (D r) as [Hr | Hr]; [|now right].
      rewrite Hr, Hleer1.
      destruct (Nat.eqb r (ControlJuego.siguiente s));
        [right; exact Hn | now left]. }
    split; [intros H; now apply T1|].
    split.
    { intros H. destruct (T2 H) as (T & L & I). split; [exact T|].
      split; [eauto | exact I]. }
    discriminate.
Qed.

(** The two player-enemy passes change nothing but the score and the damage
    timer. *)
Lemma contacto_forma (s : ControlJuego.t) :
  exists pt td,
    ControlJuego.contacto s
    = ControlJuego.con_tiempo_desde_ultimo_dano td (ControlJuego.con_puntos pt s).
Proof.
  assert (Hd : forall r s0, exists pt td,
             ControlJuego.dano_por_contacto r s0
             = ControlJuego.con_tiempo_desde_ultimo_dano td
                 (ControlJuego.con_puntos pt s0)).
  { intros r s0.
    destruct (dano_por_contacto_casos r s0) as [-> | (-> & _)].
    - exists (ControlJuego.puntos s0), (ControlJuego.tiempo_desde_ultimo_dano s0).
      now destruct s0.
    - eexists _, _. reflexivity. }
  assert (Hl : forall ids s0, exists pt td,
             ControlJuego.colisiones_jugador_enemigos ids s0
             = ControlJuego.con_tiempo_desde_ultimo_dano td
                 (ControlJuego.con_puntos pt s0)).
  { induction ids as [|r ids IH]; intros s0; cbn [ControlJuego.colisiones_jugador_enemigos].
    - exists (ControlJuego.puntos s0), (ControlJuego.tiempo_desde_ultimo_dano s0).
      now destruct s0.
    - destruct (Hd r s0) as (pt & td & ->).
      destruct (IH (ControlJuego.con_tiempo_desde_ultimo_dano td
                      (ControlJuego.con_puntos pt s0))) as (pt' & td' & ->).
      exists pt', td'. reflexivity. }
  unfold ControlJuego.contacto, ControlJuego.verificar_colision_jugador_enemigo.
  destruct (Hd (ControlJuego.enemigo s) s) as (pt & td & ->).
  destruct (Hl (ControlJuego.enemigos
                  (ControlJuego.con_tiempo_desde_ultimo_dano td
                     (ControlJuego.con_puntos pt s)))
               (ControlJuego.con_tiempo_desde_ultimo_dano td
                  (ControlJuego.con_puntos pt s))) as (pt' & td' & ->).
  exists pt', td'. reflexivity.
Qed.

(** Steps 1 to 4 of [actualizar] leave the list of enemies, the tracked
    enemy and the spawn timer as they are. *)
Lemma hasta_contacto_enemigos (dt : R) (s s1 : ControlJuego.t) :
  0 < dt ->
  ControlJuego.hasta_proyectiles dt s = Ok s1 ->
  ControlJuego.enemigos (ControlJuego.contacto s1) = ControlJuego.enemigos s /\
  ControlJuego.enemigo (ControlJuego.contacto s1) = ControlJuego.enemigo s /\
  ControlJuego.tiempo_enemigo (ControlJuego.contacto s1)
  = ControlJuego.tiempo_enemigo s /\
  ControlJuego.intervalo_enemigo (ControlJuego.contacto s1)
  = ControlJuego.intervalo_enemigo s /\
  (forall r, ControlJuego.leer (ControlJuego.contacto s1) r
             = ControlJuego.leer s1 r).
Proof.
  intros Hdt E1.
  destruct (hasta_proyectiles_marco dt s Hdt)
    as (s1' & h & pt & ps & E1' & Es1 & _).
  rewrite E1 in E1'. injection E1' as <-.
  destruct (contacto_forma s1) as (pt' & td & ->).
  rewrite Es1. repeat split.
Qed.

(** X17: a frame of a running session ends with no inactive enemy in
    [enemigos] and with an active tracked enemy, which is in [enemigos] if
    the tracked enemy was there when the frame began. *)
Theorem actualizar_purga_enemigos (dt : R) (az1 az2 : Azar)
  (s s' : ControlJuego.t) :
  ControlJuego.jugando s = true ->
  ControlJuego.actualizar dt az1 az2 s = Ok s' ->
  Forall (fun r => Enemigo.activo (ControlJuego.leer s' r) = true)
         (ControlJuego.enemigos s') /\
  Enemigo.activo (ControlJuego.leer s' (ControlJuego.enemigo s')) = true /\
  (In (ControlJuego.enemigo s) (ControlJuego.enemigos s) ->
   In (ControlJuego.enemigo s') (ControlJuego.enemigos s')).
Proof.
  intros Hj E. pose proof (actualizar_Ok_dt _ _ _ _ _ E) as Hdt.
  destruct (actualizar_en_curso _ _ _ _ _ Hj E) as (s1 & ps & E1 & E2 & _).
  destruct (hasta_contacto_enemigos dt s s1 Hdt E1) as (Hl & He & _).
  apply desde_respawn_enemigos in E2.
  destruct E2 as (A & B & C & _).
  rewrite Hl, He in C. auto.
Qed.

Lemma actualizar_purga_enemigos_testigo :
  exists s',
    ControlJuego.actualizar 1 Ejemplo.azar Ejemplo.azar Ejemplo.sesion_nueva
    = Ok s' /\
    Forall (fun r => Enemigo.activo (ControlJuego.leer s' r) = true)
           (ControlJuego.enemigos s') /\
    Enemigo.activo (ControlJuego.leer s' (ControlJuego.enemigo s')) = true.
Proof.
  destruct (actualizar_total 1 Ejemplo.azar Ejemplo.azar Ejemplo.sesion_nueva)
    as [s' E]; [lra | split; cbn; lia |].
  exists s'. split; [exact E|].
  destruct (actualizar_purga_enemigos 1 Ejemplo.azar Ejemplo.azar
              Ejemplo.sesion_nueva s')
    as (A & B & _); [reflexivity | exact E |].
  split; [exact A | exact B].
Defined.

(** X18: in a frame of a running session the spawn timer advances by [dt]
    while that stays below [intervalo_enemigo]; otherwise it is reset to 0
    and a new enemy, never hit, becomes the tracked enemy and the last of
    [enemigos].  So a timer that was not negative stays so, and below a
    positive interval. *)
Theorem temporizador_de_enemigos (dt : R) (az1 az2 : Azar)
  (s s' : ControlJuego.t) :
  ControlJuego.jugando s = true ->
  ControlJuego.actualizar dt az1 az2 s = Ok s' ->
  ControlJuego.intervalo_enemigo s' = ControlJuego.intervalo_enemigo s /\
  (ControlJuego.tiempo_enemigo s + dt < ControlJuego.intervalo_enemigo s ->
   ControlJuego.tiempo_enemigo s' = ControlJuego.tiempo_enemigo s + dt) /\
  (ControlJuego.intervalo_enemigo s <= ControlJuego.tiempo_enemigo s + dt ->
   ControlJuego.tiempo_enemigo s' = 0 /\
   (exists l, ControlJuego.enemigos s' = l ++ [ControlJuego.enemigo s']) /\
   enemigo_intacto (ControlJuego.leer s' (ControlJuego.enemigo s'))) /\
  (0 <= ControlJuego.tiempo_enemigo s -> 0 <= ControlJuego.tiempo_enemigo s') /\
  (0 < ControlJuego.intervalo_enemigo s ->
   ControlJuego.tiempo_enemigo s' < ControlJuego.intervalo_enemigo s').
Proof.
  intros Hj E. pose proof (actualizar_Ok_dt _ _ _ _ _ E) as Hdt.
  destruct (actualizar_en_curso _ _ _ _ _ Hj E) as (s1 & ps & E1 & E2 & _).
  destruct (hasta_contacto_enemigos dt s s1 Hdt E1) as (_ & _ & Ht & Hi & _).
  pose proof (desde_respawn_marco _ _ _ _ _ E2) as (_ & _ & _ & _ & Hi' & _).
  apply desde_respawn_enemigos in E2.
  destruct E2 as (_ & _ & _ & _ & T1 & T2 & _).
  rewrite Ht, Hi in T1, T2. rewrite Hi in Hi'.
  split; [exact Hi'|]. split; [exact T1|]. split; [exact T2|].
  rewrite Hi'.
  destruct (Rlt_dec (ControlJuego.tiempo_enemigo s + dt)
                    (ControlJuego.intervalo_enemigo s)) as [H | H].
  - rewrite (T1 H). split; intros; lra.
  - destruct T2 as (-> & _); [lra|]. split; intros; lra.
Qed.

Lemma temporizador_de_enemigos_testigo :
  exists s',
    ControlJuego.actualizar 1 Ejemplo.azar Ejemplo.azar Ejemplo.sesion_nueva
    = Ok s' /\
    ControlJuego.tiempo_enemigo s' = 1 /\
    ControlJuego.intervalo_enemigo s' = 5.
Proof.
  destruct (actualizar_total 1 Ejemplo.azar Ejemplo.azar Ejemplo.sesion_nueva)
    as [s' E]; [lra | split; cbn; lia |].
  exists s'. split; [exact E|].
  destruct (temporizador_de_enemigos 1 Ejemplo.azar Ejemplo.azar
              Ejemplo.sesion_nueva s')
    as (Hi & T1 & _); [reflexivity | exact E |].
  split.
  - rewrite T1.
    + change (ControlJuego.tiempo_enemigo Ejemplo.sesion_nueva) with 0.0. lra.
    + change (ControlJuego.tiempo_enemigo Ejemplo.sesion_nueva) with 0.0.
      change (ControlJuego.intervalo_enemigo Ejemplo.sesion_nueva) with 5.0.
      lra.
  - rewrite Hi.
    change (ControlJuego.intervalo_enemigo Ejemplo.sesion_nueva) with 5.0. lra.
Defined.

(** ** control_juego.py: the sessions the program reaches *)

Lemma filter_todos {A : Type} (f : A -> bool) (l : list A) :
  Forall (fun x => f x = true) l -> filter f l = l.
Proof.
  induction 1 as [|x l Hx _ IH]; cbn [filter]; [reflexivity|].
  now rewrite Hx, IH.
Qed.

Lemma Enemigo_actualizar_intacto (dt : R) (leer : Ref -> Figura.t)
  (e e' : Enemigo.t) :
  enemigo_intacto e -> Enemigo.actualizar dt leer e = Ok e' ->
  enemigo_intacto e'.
Proof.
  intros (A & V & T) E. apply Enemigo_actualizar_marco in E.
  destruct E as (_ & Ev & _ & Ea & Et).
  unfold enemigo_intacto. rewrite Ea, Ev, Et, A, V, T.
  replace (Rlt_b 0 0) with false by (symmetry; apply Rlt_b_false; lra).
  auto.
Qed.

Lemma actualizar_enemigos_intactos (dt : R) (ids : list Ref) :
  forall s s',
    (forall r, enemigo_intacto (ControlJuego.leer s r)) ->
    ControlJuego.actualizar_enemigos dt ids s = Ok s' ->
    forall r, enemigo_intacto (ControlJuego.leer s' r).
Proof.
  induction ids as [|r ids IH]; intros s s' Hs;
    cbn [ControlJuego.actualizar_enemigos].
  - intros [= <-]. exact Hs.
  - destruct (Hs r) as (Ha & _). rewrite Ha.
    destruct (Enemigo.actualizar dt (ControlJuego.leer_objetivo s)
                (ControlJuego.leer s r)) as [e|] eqn:Ee; [|discriminate].
    cbn [bind]. apply IH. intros r'.
    unfold ControlJuego.leer, ControlJuego.escribir.
    cbn [ControlJuego.objetos ControlJuego.con_objetos].
    destruct (Nat.eqb r' r); [|apply Hs].
    eapply Enemigo_actualizar_intacto; [apply Hs | exact Ee].
Qed.

(** A frame of a running session whose player has no projectile and whose
    enemy objects were never hit. *)
Lemma cuadro_sin_proyectiles (dt : R) (az1 az2 : Azar) (s s' : ControlJuego.t) :
  ControlJuego.jugando s = true ->
  Jugador.proyectiles (ControlJuego.jugador s) = [] ->
  (forall r, enemigo_intacto (ControlJuego.leer s r)) ->
  0 < ControlJuego.cooldown_dano s ->
  ControlJuego.actualizar dt az1 az2 s = Ok s' ->
  ControlJuego.jugador s' = ControlJuego.jugador s /\
  (forall r, enemigo_intacto (ControlJuego.leer s' r)) /\
  (exists p,
      (p = ControlJuego.puntos s \/ p = (ControlJuego.puntos s - 2)%Z) /\
      ControlJuego.puntos s' = (if (p <=? 0)%Z then 0%Z else p) /\
      ControlJuego.jugando s' = (if (p <=? 0)%Z then false else true)) /\
  (ControlJuego.tiempo_enemigo s + dt < ControlJuego.intervalo_enemigo s ->
   ControlJuego.tiempo_enemigo s' = ControlJuego.tiempo_enemigo s + dt /\
   ControlJuego.enemigo s' = ControlJuego.enemigo s /\
   ControlJuego.enemigos s' = ControlJuego.enemigos s) /\
  (ControlJuego.intervalo_enemigo s <= ControlJuego.tiempo_enemigo s + dt ->
   ControlJuego.tiempo_enemigo s' = 0 /\
   ControlJuego.enemigos s'
   = ControlJuego.enemigos s ++ [ControlJuego.enemigo s']) /\
  ControlJuego.intervalo_enemigo s' = ControlJuego.intervalo_enemigo s /\
  ControlJuego.cooldown_dano s' = ControlJuego.cooldown_dano s.
Proof.
  intros Hj Hp Hs Hc E. pose proof (actualizar_Ok_dt _ _ _ _ _ E) as Hdt.
  destruct (actualizar_en_curso _ _ _ _ _ Hj E)
    as (s1 & ps & E1 & E2 & Hc1 & _ & _ & Hc' & Hjug & Hps & _ & Hpt & Hjg).
  rewrite Hp in Hps. inversion Hps. subst ps.
  destruct (hasta_contacto_enemigos dt s s1 Hdt E1)
    as (Hl & He & Ht & Hi & Hleer).
  rewrite hasta_proyectiles_sin_proyectiles in E1 by assumption.
  assert (Hs1 : forall r, enemigo_intacto (ControlJuego.leer s1 r))
    by (eapply actualizar_enemigos_intactos; [|exact E1]; exact Hs).
  assert (Hp1 : ControlJuego.puntos s1 = ControlJuego.puntos s).
  { destruct (actualizar_enemigos_marco dt (ControlJuego.enemigos s) Hdt
                (ControlJuego.con_tiempo_desde_ultimo_dano
                   (ControlJuego.tiempo_desde_ultimo_dano s + dt) s))
      as (s2 & E2' & _ & Hp2).
    rewrite E1 in E2'. injection E2' as <-. exact Hp2. }
  assert (Hsc : forall r,
             enemigo_intacto (ControlJuego.leer (ControlJuego.contacto s1) r))
    by (intros r; rewrite Hleer; apply Hs1).
  assert (Hpc : ControlJuego.puntos (ControlJuego.contacto s1)
                = ControlJuego.puntos s \/
                ControlJuego.puntos (ControlJuego.contacto s1)
                = (ControlJuego.puntos s - 2)%Z).
  { rewrite <- Hp1.
    destruct (contacto_casos s1) as [-> | (-> & _)];
      [now rewrite Hc1 | now left | now right]. }
  pose proof (desde_respawn_marco _ _ _ _ _ E2) as (_ & _ & _ & _ & Hi' & _).
  apply desde_respawn_enemigos in E2.
  destruct E2 as (_ & _ & _ & D & T1 & T2 & K).
  destruct K as (K1 & K2); [apply Hsc|].
  rewrite filter_todos in K1, K2
    by (apply Forall_forall; intros r _; apply Hsc).
  rewrite Hl, He, Ht, Hi in *.
  split.
  { rewrite Hjug. destruct (ControlJuego.jugador s).
    cbn [Jugador.proyectiles] in Hp. now subst. }
  split.
  { intros r. destruct (D r) as [-> | Hr]; [apply Hsc | exact Hr]. }
  split.
  { exists (ControlJuego.puntos (ControlJuego.contacto s1)).
    split; [exact Hpc|]. split; [exact Hpt | exact Hjg]. }
  split.
  { intros H. split; [now apply T1|]. now apply K1. }
  split.
  { intros H. split; [now apply T2|]. now apply K2. }
  split; [exact Hi' | exact Hc'].
Qed.

Lemma init_invariante (pantalla : pygame.Surface) (s : ControlJuego.t) :
  ControlJuego.init pantalla = Ok s -> invariante_de_sesion pantalla s.
Proof.
  unfold ControlJuego.init, ControlJuego.inicializar_juego, Enemigo.init.
  cbn. intros [= <-]. unfold invariante_de_sesion, enemigo_intacto. cbn.
  split; [reflexivity|].
  split.
  { intros r. destruct r; cbn; repeat split; lra. }
  split; [now exists []|].
  split; [lia|]. split; [reflexivity|]. split; [lia|].
  repeat split; lra.
Qed.

Lemma manejar_eventos_jugador_inicial (pantalla : pygame.Surface)
  (eventos : list ControlJuego.Evento) (s : ControlJuego.t) :
  ControlJuego.jugador s = jugador_inicial pantalla ->
  ControlJuego.manejar_eventos eventos s
  = Ok (ControlJuego.con_jugando
          (ControlJuego.jugando s && negb (existsb es_QUIT eventos)) s).
Proof.
  intros Hjug.
  destruct (manejar_eventos_forma eventos s) as (j' & -> & _ & _ & _ & Hj & _).
  rewrite Hj; [now destruct s|].
  rewrite Hjug. unfold jugador_inicial, Jugador.init.
  cbn [Jugador.ultimo_disparo Jugador.cooldown_disparo]. lra.
Qed.

Lemma manejar_eventos_invariante (pantalla : pygame.Surface)
  (eventos : list ControlJuego.Evento) (s s' : ControlJuego.t) :
  invariante_de_sesion pantalla s ->
  ControlJuego.manejar_eventos eventos s = Ok s' ->
  invariante_de_sesion pantalla s'.
Proof.
  intros (I1 & I2 & I3 & I4 & I5 & I6 & I7 & I8 & I9) E.
  rewrite (manejar_eventos_jugador_inicial pantalla) in E by exact I1.
  injection E as <-. unfold invariante_de_sesion.
  split; [exact I1|]. split; [exact I2|]. split; [exact I3|].
  split; [exact I4|]. split; [exact I5|].
  split; [|auto].
  cbn [ControlJuego.jugando ControlJuego.con_jugando ControlJuego.puntos].
  intros H. apply andb_true_iff in H. now apply I6.
Qed.

Lemma actualizar_invariante (pantalla : pygame.Surface) (dt : R)
  (az1 az2 : Azar) (s s' : ControlJuego.t) :
  invariante_de_sesion pantalla s ->
  ControlJuego.actualizar dt az1 az2 s = Ok s' ->
  invariante_de_sesion pantalla s'.
Proof.
  intros Hinv E. pose proof (actualizar_Ok_dt _ _ _ _ _ E) as Hdt.
  destruct (ControlJuego.jugando s) eqn:Hj.
  - destruct Hinv as (I1 & I2 & (l & I3) & I4 & I5 & I6 & I7 & I8 & I9).
    specialize (I6 Hj).
    destruct (cuadro_sin_proyectiles dt az1 az2 s s')
      as (J1 & J2 & (p & Hp & Hp' & Hj') & T1 & T2 & Hi & Hc);
      [exact Hj | now rewrite I1 | exact I2 | lra | exact E |].
    unfold invariante_de_sesion. rewrite J1, Hp', Hj', Hi, Hc.
    split; [exact I1|]. split; [exact J2|].
    assert (Hpar : Z.even p = true).
    { destruct Hp as [-> | ->]; [exact I5|]. now rewrite Z.even_sub, I5. }
    split.
    { destruct (Rlt_dec (ControlJuego.tiempo_enemigo s + dt)
                        (ControlJuego.intervalo_enemigo s)) as [H | H].
      - destruct (T1 H) as (_ & -> & ->). eauto.
      - destruct T2 as (_ & ->); [lra | eauto]. }
    split.
    { destruct (p <=? 0)%Z eqn:El; [lia|]. apply Z.leb_gt in El. lia. }
    split; [now destruct (p <=? 0)%Z|].
    split.
    { destruct (p <=? 0)%Z eqn:El; [discriminate|]. apply Z.leb_gt in El.
      intros _. exact El. }
    split; [exact I7|]. split; [exact I8|].
    destruct (Rlt_dec (ControlJuego.tiempo_enemigo s + dt)
                      (ControlJuego.intervalo_enemigo s)) as [H | H].
    + destruct (T1 H) as (-> & _). lra.
    + destruct T2 as (-> & _); lra.
  - rewrite actualizar_terminada in E by assumption.
    injection E as <-. exact Hinv.
Qed.

Lemma alcanzable_invariante_de_sesion (pantalla : pygame.Surface)
  (s : ControlJuego.t) :
  alcanzable pantalla s -> invariante_de_sesion pantalla s.
Proof.
  induction 1 as [s E | s eventos s' _ IH E | s dt az1 az2 s' _ IH E].
  - now apply init_invariante.
  - eapply manejar_eventos_invariante; eassumption.
  - eapply actualizar_invariante; eassumption.
Qed.

(** X19: in every session the program reaches, the player is still the
    object [inicializar_juego] created: it has not moved, it holds no
    projectile and its [ultimo_disparo] is 0.  So [disparar] returns False
    on it wherever the click is, and [manejar_eventos] changes nothing but
    [jugando], which it clears when a QUIT event is among the events. *)
Theorem jugador_de_sesion_alcanzable (pantalla : pygame.Surface)
  (s : ControlJuego.t) :
  alcanzable pantalla s ->
  ControlJuego.jugador s = jugador_inicial pantalla /\
  (forall objetivo_pos : R * R,
      Jugador.disparar objetivo_pos (ControlJuego.jugador s)
      = Ok (false, ControlJuego.jugador s)) /\
  (forall eventos : list ControlJuego.Evento,
      ControlJuego.manejar_eventos eventos s
      = Ok (ControlJuego.con_jugando
              (ControlJuego.jugando s && negb (existsb es_QUIT eventos)) s)).
Proof.
  intros Hs. apply alcanzable_invariante_de_sesion in Hs.
  destruct Hs as (I1 & _).
  split; [exact I1|]. split.
  - intros objetivo_pos. apply disparar_en_cooldown.
    rewrite I1. unfold jugador_inicial, Jugador.init.
    cbn [Jugador.ultimo_disparo Jugador.cooldown_disparo]. lra.
  - intros eventos. now apply (manejar_eventos_jugador_inicial pantalla).
Qed.

Lemma jugador_de_sesion_alcanzable_testigo :
  Jugador.disparar (0, 0) (ControlJuego.jugador Ejemplo.sesion_nueva)
  = Ok (false, ControlJuego.jugador Ejemplo.sesion_nueva).
Proof.
  apply (jugador_de_sesion_alcanzable Ejemplo.pantalla Ejemplo.sesion_nueva).
  constructor. reflexivity.
Defined.

(** X20: in every session the program reaches, the score is an even number
    from 0 to 10, positive while the session runs; a frame never raises it:
    it leaves it or takes exactly 2 off. *)
Theorem puntos_de_sesion_alcanzable (pantalla : pygame.Surface)
  (s : ControlJuego.t) :
  alcanzable pantalla s ->
  (0 <= ControlJuego.puntos s <= 10)%Z /\
  Z.even (ControlJuego.puntos s) = true /\
  (ControlJuego.jugando s = true -> (0 < ControlJuego.puntos s)%Z) /\
  (forall (dt : R) (az1 az2 : Azar) (s' : ControlJuego.t),
      ControlJuego.actualizar dt az1 az2 s = Ok s' ->
      ControlJuego.puntos s' = ControlJuego.puntos s \/
      ControlJuego.puntos s' = (ControlJuego.puntos s - 2)%Z).
Proof.
  intros Hs. apply alcanzable_invariante_de_sesion in Hs.
  destruct Hs as (I1 & I2 & _ & I4 & I5 & I6 & I7 & _).
  split; [exact I4|]. split; [exact I5|]. split; [exact I6|].
  intros dt az1 az2 s' E. pose proof (actualizar_Ok_dt _ _ _ _ _ E) as Hdt.
  destruct (ControlJuego.jugando s) eqn:Hj.
  - specialize (I6 eq_refl).
    destruct (cuadro_sin_proyectiles dt az1 az2 s s')
      as (_ & _ & (p & Hp & -> & _) & _);
      [exact Hj | now rewrite I1 | exact I2 | lra | exact E |].
    apply Z.even_spec in I5. destruct I5 as (k & Hk).
    destruct Hp as [-> | ->].
    + left. destruct (ControlJuego.puntos s <=? 0)%Z eqn:El; [lia | reflexivity].
    + right. destruct (ControlJuego.puntos s - 2 <=? 0)%Z eqn:El;
        [apply Z.leb_le in El; lia | reflexivity].
  - rewrite actualizar_terminada in E by assumption.
    injection E as <-. now left.
Qed.

Lemma puntos_de_sesion_alcanzable_testigo :
  (0 <= ControlJuego.puntos Ejemplo.sesion_nueva <= 10)%Z /\
  Z.even (ControlJuego.puntos Ejemplo.sesion_nueva) = true.
Proof.
  destruct (puntos_de_sesion_alcanzable Ejemplo.pantalla Ejemplo.sesion_nueva)
    as (A & B & _); [constructor; reflexivity|].
  split; [exact A | exact B].
Defined.

(** X21: in every session the program reaches, no enemy of [enemigos] was
    ever hit (each is active with 3 hit points and no invulnerability time),
    the tracked enemy is the last of [enemigos], and the spawn timer is
    below the interval of 5 seconds; a frame removes no enemy: it leaves
    [enemigos] as it is or appends the new tracked enemy. *)
Theorem enemigos_de_sesion_alcanzable (pantalla : pygame.Surface)
  (s : ControlJuego.t) :
  alcanzable pantalla s ->
  Forall (fun r => enemigo_intacto (ControlJuego.leer s r))
         (ControlJuego.enemigos s) /\
  (exists l, ControlJuego.enemigos s = l ++ [ControlJuego.enemigo s]) /\
  ControlJuego.intervalo_enemigo s = 5 /\
  0 <= ControlJuego.tiempo_enemigo s < 5 /\
  (forall (dt : R) (az1 az2 : Azar) (s' : ControlJuego.t),
      ControlJuego.actualizar dt az1 az2 s = Ok s' ->
      ControlJuego.enemigos s' = ControlJuego.enemigos s \/
      ControlJuego.enemigos s'
      = ControlJuego.enemigos s ++ [ControlJuego.enemigo s']).
Proof.
  intros Hs. apply alcanzable_invariante_de_sesion in Hs.
  destruct Hs as (I1 & I2 & I3 & _ & _ & _ & I7 & I8 & I9).
  split; [apply Forall_forall; intros r _; apply I2|].
  split; [exact I3|]. split; [exact I8|]. split; [exact I9|].
  intros dt az1 az2 s' E. pose proof (actualizar_Ok_dt _ _ _ _ _ E) as Hdt.
  destruct (ControlJuego.jugando s) eqn:Hj.
  - destruct (cuadro_sin_proyectiles dt az1 az2 s s')
      as (_ & _ & _ & T1 & T2 & _);
      [exact Hj | now rewrite I1 | exact I2 | lra | exact E |].
    destruct (Rlt_dec (ControlJuego.tiempo_enemigo s + dt)
                      (ControlJuego.intervalo_enemigo s)) as [H | H].
    + left. now apply T1.
    + right. apply T2. lra.
  - rewrite actualizar_terminada in E by assumption.
    injection E as <-. now left.
Qed.

Lemma enemigos_de_sesion_alcanzable_testigo :
  Forall (fun r => enemigo_intacto (ControlJuego.leer Ejemplo.sesion_nueva r))
         (ControlJuego.enemigos Ejemplo.sesion_nueva) /\
  ControlJuego.intervalo_enemigo Ejemplo.sesion_nueva = 5.
Proof.
  destruct (enemigos_de_sesion_alcanzable Ejemplo.pantalla Ejemplo.sesion_nueva)
    as (A & _ & B & _); [constructor; reflexivity|].
  split; [exact A | exact B].
Defined.

(** ** control_juego.py: contact damage, exactly *)

Lemma colisiones_jugador_enemigos_exacto (ids : list Ref) (s : ControlJuego.t) :
  0 < ControlJuego.cooldown_dano s ->
  ControlJuego.colisiones_jugador_enemigos ids s
  = if Rle_b (ControlJuego.cooldown_dano s)
             (ControlJuego.tiempo_desde_ultimo_dano s)
       && existsb (fun r => colision (ControlJuego.jugador s)
                                     (ControlJuego.leer s r)) ids
    then descontado s else s.
Proof.
  intros Hc.
  induction ids as [|r ids IH];
    cbn [ControlJuego.colisiones_jugador_enemigos existsb].
  - now rewrite andb_false_r.
  - unfold ControlJuego.dano_por_contacto.
    destruct (colision (ControlJuego.jugador s) (ControlJuego.leer s r));
      cbn [andb orb]; [|exact IH].
    destruct (Rle_b (ControlJuego.cooldown_dano s)
                    (ControlJuego.tiempo_desde_ultimo_dano s)) eqn:Et;
      cbn [andb].
    + exact (colisiones_jugador_enemigos_descontado ids s Hc).
    + rewrite IH, ?Et. reflexivity.
Qed.

(** X22: when [cooldown_dano] is positive, the two player-enemy passes of a
    frame amount to one test: if the damage timer has reached the cooldown
    and the player collides with the tracked enemy or with some enemy of
    [enemigos], 2 is taken off the score once and the timer is reset;
    otherwise nothing changes. *)
Theorem contacto_exacto (s : ControlJuego.t) :
  0 < ControlJuego.cooldown_dano s ->
  ControlJuego.contacto s
  = if Rle_b (ControlJuego.cooldown_dano s)
             (ControlJuego.tiempo_desde_ultimo_dano s)
       && (colision (ControlJuego.jugador s)
                    (ControlJuego.leer s (ControlJuego.enemigo s))
           || existsb (fun r => colision (ControlJuego.jugador s)
                                         (ControlJuego.leer s r))
                      (ControlJuego.enemigos s))
    then descontado s else s.
Proof.
  intros Hc.
  unfold ControlJuego.contacto, ControlJuego.verificar_colision_jugador_enemigo,
    ControlJuego.dano_por_contacto.
  destruct (colision (ControlJuego.jugador s)
                     (ControlJuego.leer s (ControlJuego.enemigo s)));
    cbn [andb orb].
  - destruct (Rle_b (ControlJuego.cooldown_dano s)
                    (ControlJuego.tiempo_desde_ultimo_dano s)) eqn:Et;
      cbn [andb].
    + exact (colisiones_jugador_enemigos_descontado
               (ControlJuego.enemigos s) s Hc).
    + rewrite colisiones_jugador_enemigos_exacto by exact Hc.
      now rewrite ?Et.
  - now apply colisiones_jugador_enemigos_exacto.
Qed.

Lemma contacto_exacto_testigo :
  ControlJuego.contacto Ejemplo.sesion_nueva
  = if Rle_b (ControlJuego.cooldown_dano Ejemplo.sesion_nueva)
             (ControlJuego.tiempo_desde_ultimo_dano Ejemplo.sesion_nueva)
       && (colision (ControlJuego.jugador Ejemplo.sesion_nueva)
                    (ControlJuego.leer Ejemplo.sesion_nueva
                       (ControlJuego.enemigo Ejemplo.sesion_nueva))
           || existsb (fun r => colision (ControlJuego.jugador Ejemplo.sesion_nueva)
                                         (ControlJuego.leer Ejemplo.sesion_nueva r))
                      (ControlJuego.enemigos Ejemplo.sesion_nueva))
    then descontado Ejemplo.sesion_nueva else Ejemplo.sesion_nueva.
Proof.
  apply (contacto_exacto Ejemplo.sesion_nueva).
  change (ControlJuego.cooldown_dano Ejemplo.sesion_nueva) with 1.0. lra.
Defined.

(** ** control_juego.py: the score of a frame *)

Lemma cuantos_activos_cons (p : Proyectil.t) (ps : list Proyectil.t) :
  cuantos_activos (p :: ps)
  = ((if Proyectil.activo p then 1 else 0) + cuantos_activos ps)%Z.
Proof.
  unfold cuantos_activos. cbn [filter].
  destruct (Proyectil.activo p); cbn [length]; lia.
Qed.

Lemma cuantos_activos_no_negativo (ps : list Proyectil.t) :
  (0 <= cuantos_activos ps)%Z.
Proof. unfold cuantos_activos. lia. Qed.

Lemma golpear_puntos (r : Ref) (s : ControlJuego.t) :
  ControlJuego.puntos (ControlJuego.golpear r s) = ControlJuego.puntos s \/
  ControlJuego.puntos (ControlJuego.golpear r s)
  = (ControlJuego.puntos s + 2)%Z.
Proof.
  unfold ControlJuego.golpear.
  destruct (Enemigo.recibir_dano (ControlJuego.leer s r)) as [[|] e]; cbn; auto.
Qed.

Lemma colision_proyectil_activo (p : Proyectil.t) (e : Enemigo.t) :
  colision p e = true -> Proyectil.activo p = true.
Proof.
  unfold colision. intros H. apply Figura_colision_spec in H. exact (proj1 H).
Qed.

Section PuntosDelBucle.

Variable cuerpo : Proyectil.t -> ControlJuego.t -> Proyectil.t * ControlJuego.t.

(** The body scores at most 2, and only by deactivating its projectile. *)
Hypothesis cuerpo_puntos : forall p s,
  (ControlJuego.puntos s <= ControlJuego.puntos (snd (cuerpo p s))
   <= ControlJuego.puntos s
      + 2 * (cuantos_activos [p] - cuantos_activos [fst (cuerpo p s)]))%Z.

Lemma para_cada_proyectil_puntos (ps : list Proyectil.t) :
  forall s,
    (ControlJuego.puntos s
     <= ControlJuego.puntos (snd (ControlJuego.para_cada_proyectil cuerpo ps s))
     <= ControlJuego.puntos s
        + 2 * (cuantos_activos ps
               - cuantos_activos
                   (fst (ControlJuego.para_cada_proyectil cuerpo ps s))))%Z.
Proof.
  induction ps as [|p ps IH]; intros s; cbn [ControlJuego.para_cada_proyectil].
  - cbn [fst snd]. lia.
  - pose proof (cuerpo_puntos p s) as H.
    destruct (cuerpo p s) as [p1 s1]. cbn [fst snd] in H.
    pose proof (IH s1) as H1.
    destruct (ControlJuego.para_cada_proyectil cuerpo ps s1) as [ps1 s2].
    cbn [fst snd] in *.
    rewrite (cuantos_activos_cons p ps), (cuantos_activos_cons p1 ps1).
    rewrite !cuantos_activos_cons in H. lia.
Qed.

Lemma sobre_proyectiles_puntos (s : ControlJuego.t) :
  (ControlJuego.puntos s
   <= ControlJuego.puntos (ControlJuego.sobre_proyectiles cuerpo s)
   <= ControlJuego.puntos s
      + 2 * (cuantos_activos (Jugador.proyectiles (ControlJuego.jugador s))
             - cuantos_activos
                 (Jugador.proyectiles
                    (ControlJuego.jugador
                       (ControlJuego.sobre_proyectiles cuerpo s)))))%Z.
Proof.
  unfold ControlJuego.sobre_proyectiles.
  pose proof (para_cada_proyectil_puntos
                (Jugador.proyectiles (ControlJuego.jugador s)) s) as H.
  destruct (ControlJuego.para_cada_proyectil cuerpo _ s) as [ps1 s1].
  exact H.
Qed.

End PuntosDelBucle.

Lemma cuerpo_verificar_puntos (p : Proyectil.t) (s : ControlJuego.t) :
  let r :=
    if colision p (ControlJuego.leer s (ControlJuego.enemigo s))
    then (Proyectil.desactivar p,
          ControlJuego.golpear (ControlJuego.enemigo s) s)
    else (p, s) in
  (ControlJuego.puntos s <= ControlJuego.puntos (snd r)
   <= ControlJuego.puntos s
      + 2 * (cuantos_activos [p] - cuantos_activos [fst r]))%Z.
Proof.
  cbv zeta.
  destruct (colision p (ControlJuego.leer s (ControlJuego.enemigo s))) eqn:Ec;
    cbn [fst snd]; [|lia].
  apply colision_proyectil_activo in Ec.
  rewrite !cuantos_activos_cons, Ec.
  change (Proyectil.activo (Proyectil.desactivar p)) with false.
  destruct (golpear_puntos (ControlJuego.enemigo s) s) as [-> | ->]; lia.
Qed.

Lemma proyectil_contra_enemigos_puntos (ids : list Ref) :
  forall p s,
    (ControlJuego.puntos s
     <= ControlJuego.puntos (snd (ControlJuego.proyectil_contra_enemigos ids p s))
     <= ControlJuego.puntos s
        + 2 * (cuantos_activos [p]
               - cuantos_activos
                   [fst (ControlJuego.proyectil_contra_enemigos ids p s)]))%Z.
Proof.
  induction ids as [|r ids IH]; intros p s;
    cbn [ControlJuego.proyectil_contra_enemigos].
  - cbn [fst snd]. lia.
  - match goal with
    | |- context [ControlJuego.proyectil_contra_enemigos ids ?p1 ?s1] =>
        pose proof (IH p1 s1) as H;
        destruct (ControlJuego.proyectil_contra_enemigos ids p1 s1)
          as [p2 s2]
    end.
    cbn [fst snd] in *. rewrite !cuantos_activos_cons in *.
    change (Proyectil.activo (Proyectil.desactivar p)) with false in H.
    destruct (colision p (ControlJuego.leer s r)) eqn:Ec.
    + apply colision_proyectil_activo in Ec. rewrite Ec.
      destruct (golpear_puntos r s) as [E | E]; rewrite E in H;
        destruct (Proyectil.activo p2); lia.
    + destruct (Proyectil.activo p), (Proyectil.activo p2); lia.
Qed.

(** Steps 1 to 3 of [actualizar] never lower the score, and raise it by at
    most 2 for each projectile they deactivate. *)
Lemma hasta_proyectiles_puntos (dt : R) (s s1 : ControlJuego.t) :
  0 < dt ->
  ControlJuego.hasta_proyectiles dt s = Ok s1 ->
  (ControlJuego.puntos s <= ControlJuego.puntos s1
   <= ControlJuego.puntos s
      + 2 * (cuantos_activos (Jugador.proyectiles (ControlJuego.jugador s))
             - cuantos_activos
                 (Jugador.proyectiles (ControlJuego.jugador s1))))%Z.
Proof.
  intros Hdt. unfold ControlJuego.hasta_proyectiles.
  set (s0 := ControlJuego.con_tiempo_desde_ultimo_dano _ s).
  destruct (actualizar_enemigos_marco dt (ControlJuego.enemigos s0) Hdt s0)
    as (s2 & E2 & (h & pt & Es2) & Hp2).
  rewrite E2. cbn [bind]. intros [= <-].
  assert (Hj2 : ControlJuego.jugador s2 = ControlJuego.jugador s)
    by (rewrite Es2; reflexivity).
  change (ControlJuego.puntos s0) with (ControlJuego.puntos s) in Hp2.
  unfold ControlJuego.verificar_colisiones_proyectiles,
    ControlJuego.colisiones_proyectiles_enemigos.
  match goal with
  | |- context [ControlJuego.sobre_proyectiles ?c2
                  (ControlJuego.sobre_proyectiles ?c1 s2)] =>
      pose proof (sobre_proyectiles_puntos c1 cuerpo_verificar_puntos s2) as H1;
      set (s3 := ControlJuego.sobre_proyectiles c1 s2) in *;
      pose proof (sobre_proyectiles_puntos c2
                    (fun p s => proyectil_contra_enemigos_puntos
                                  (ControlJuego.enemigos s) p s) s3) as H3
  end.
  rewrite Hj2, Hp2 in H1. lia.
Qed.

(** X23: in a frame of a running session with a positive [cooldown_dano],
    the score falls by at most 2, and, when it was not negative, rises by
    at most 2 for each active projectile of the player. *)
Theorem puntos_por_cuadro (dt : R) (az1 az2 : Azar) (s s' : ControlJuego.t) :
  ControlJuego.jugando s = true ->
  0 < ControlJuego.cooldown_dano s ->
  ControlJuego.actualizar dt az1 az2 s = Ok s' ->
  (ControlJuego.puntos s - 2 <= ControlJuego.puntos s')%Z /\
  ((0 <= ControlJuego.puntos s)%Z ->
   (ControlJuego.puntos s'
    <= ControlJuego.puntos s
       + 2 * cuantos_activos
               (Jugador.proyectiles (ControlJuego.jugador s)))%Z).
Proof.
  intros Hj Hc E. pose proof (actualizar_Ok_dt _ _ _ _ _ E) as Hdt.
  destruct (actualizar_en_curso _ _ _ _ _ Hj E)
    as (s1 & ps & E1 & _ & Hc1 & _ & _ & _ & _ & _ & _ & -> & _).
  pose proof (hasta_proyectiles_puntos dt s s1 Hdt E1) as H1.
  pose proof (cuantos_activos_no_negativo
                (Jugador.proyectiles (ControlJuego.jugador s1))) as H0.
  assert (Hpc : ControlJuego.puntos (ControlJuego.contacto s1)
                = ControlJuego.puntos s1 \/
                ControlJuego.puntos (ControlJuego.contacto s1)
                = (ControlJuego.puntos s1 - 2)%Z).
  { destruct (contacto_casos s1) as [-> | (-> & _)];
      [now rewrite Hc1 | now left | now right]. }
  destruct (ControlJuego.puntos (ControlJuego.contacto s1) <=? 0)%Z eqn:El;
    [apply Z.leb_le in El | apply Z.leb_gt in El];
    destruct Hpc as [Hpc | Hpc]; rewrite ?Hpc in *; lia.
Qed.

Lemma puntos_por_cuadro_testigo :
  exists s',
    ControlJuego.actualizar 1 Ejemplo.azar Ejemplo.azar Ejemplo.sesion_armada
    = Ok s' /\
    (ControlJuego.puntos Ejemplo.sesion_armada - 2 <= ControlJuego.puntos s')%Z.
Proof.
  destruct (actualizar_total 1 Ejemplo.azar Ejemplo.azar Ejemplo.sesion_armada)
    as [s' E]; [lra | split; cbn; lia |].
  exists s'. split; [exact E|].
  apply (puntos_por_cuadro 1 Ejemplo.azar Ejemplo.azar Ejemplo.sesion_armada s');
    [reflexivity | | exact E].
  change (ControlJuego.cooldown_dano Ejemplo.sesion_armada) with 1.0. lra.
Defined.

(** ** enemigo.py: the sprite-style [update] *)

Lemma int_de_float_100_60 : int_de_float (100 / 60) = 1%Z.
Proof.
  unfold int_de_float.
  destruct (Rle_dec 0 (100 / 60)) as [_ | H]; [|exfalso; apply H; lra].
  symmetry. apply Int_part_spec. lra.
Qed.

Lemma update_un_paso (e : Enemigo.t) :
  Enemigo.velocidad e = 100 ->
  Enemigo.rect_y (Enemigo.update e) = Enemigo.rect_y e + 1 /\
  Enemigo.activo (Enemigo.update e)
  = Enemigo.activo e && Rle_b (Enemigo.rect_y e + 1) 600 /\
  Enemigo.velocidad (Enemigo.update e) = 100 /\
  Enemigo.posicion (Enemigo.update e) = Enemigo.posicion e /\
  Enemigo.vida (Enemigo.update e) = Enemigo.vida e /\
  Enemigo.tiempo_invulnerable (Enemigo.update e)
  = Enemigo.tiempo_invulnerable e.
Proof.
  intros Hv. unfold Enemigo.update. rewrite Hv, int_de_float_100_60.
  cbn [Enemigo.rect_y Enemigo.con_rect_y].
  destruct (Rlt_b 600 (Enemigo.rect_y e + 1)) eqn:E.
  - apply Rlt_b_true in E.
    replace (Rle_b (Enemigo.rect_y e + 1) 600) with false
      by (symmetry; apply Rle_b_false; lra).
    rewrite andb_false_r. cbn. repeat split; assumption.
  - apply Rlt_b_false in E.
    replace (Rle_b (Enemigo.rect_y e + 1) 600) with true
      by (symmetry; apply Rle_b_true; lra).
    rewrite andb_true_r. cbn. repeat split; assumption.
Qed.

Lemma update_varias (e : Enemigo.t) (n : nat) :
  Enemigo.velocidad e = 100 ->
  Enemigo.rect_y (Nat.iter n Enemigo.update e) = Enemigo.rect_y e + INR n /\
  Enemigo.activo (Nat.iter n Enemigo.update e)
  = Enemigo.activo e
    && (Nat.eqb n 0 || Rle_b (Enemigo.rect_y e + INR n) 600) /\
  Enemigo.velocidad (Nat.iter n Enemigo.update e) = 100 /\
  Enemigo.posicion (Nat.iter n Enemigo.update e) = Enemigo.posicion e /\
  Enemigo.vida (Nat.iter n Enemigo.update e) = Enemigo.vida e /\
  Enemigo.tiempo_invulnerable (Nat.iter n Enemigo.update e)
  = Enemigo.tiempo_invulnerable e.
Proof.
  intros Hv. induction n as [|n IH].
  - cbn [Nat.iter nat_rect Nat.eqb orb INR].
    rewrite andb_true_r, Rplus_0_r. repeat split; assumption.
  - change (Nat.iter (S n) Enemigo.update e)
      with (Enemigo.update (Nat.iter n Enemigo.update e)).
    destruct IH as (Hy & Ha & Hv' & Hp & Hvi & Ht).
    destruct (update_un_paso _ Hv') as (Uy & Ua & Uv & Up & Uvi & Ut).
    rewrite Uy, Ua, Uv, Up, Uvi, Ut, Hy, Ha, Hp, Hvi, Ht, S_INR.
    cbn [Nat.eqb orb].
    split; [lra|].
    split; [|repeat split].
    pose proof (pos_INR n) as Hn.
    replace (Enemigo.rect_y e + INR n + 1) with (Enemigo.rect_y e + (INR n + 1))
      by lra.
    destruct (Rle_b (Enemigo.rect_y e + (INR n + 1)) 600) eqn:E.
    + apply Rle_b_true in E.
      replace (Rle_b (Enemigo.rect_y e + INR n) 600) with true
        by (symmetry; apply Rle_b_true; lra).
      now rewrite orb_true_r, !andb_true_r.
    + now rewrite !andb_false_r.
Qed.

(** X24: each call of [update] on an enemy with the [velocidad] of the
    constructor, whose [rect.y] is a whole number as a [pygame.Rect] keeps
    it, moves its [rect] down by [int(100 / 60)], which is 1, and leaves
    position, hit points and invulnerability time alone; after [n + 1]
    calls the enemy is active exactly when it was active before and its
    [rect.y] has not gone beyond 600. *)
Theorem update_efecto (e : Enemigo.t) (n : nat) :
  Enemigo.velocidad e = 100 ->
  (exists z : Z, Enemigo.rect_y e = IZR z) ->
  Enemigo.rect_y (Nat.iter (S n) Enemigo.update e)
  = Enemigo.rect_y e + INR (S n) /\
  Enemigo.activo (Nat.iter (S n) Enemigo.update e)
  = Enemigo.activo e && Rle_b (Enemigo.rect_y e + INR (S n)) 600 /\
  Enemigo.posicion (Nat.iter (S n) Enemigo.update e) = Enemigo.posicion e /\
  Enemigo.vida (Nat.iter (S n) Enemigo.update e) = Enemigo.vida e /\
  Enemigo.tiempo_invulnerable (Nat.iter (S n) Enemigo.update e)
  = Enemigo.tiempo_invulnerable e.
Proof.
  intros Hv _.
  destruct (update_varias e (S n) Hv) as (Hy & Ha & _ & Hp & Hvi & Ht).
  cbn [Nat.eqb orb] in Ha. auto.
Qed.

Lemma update_efecto_testigo :
  Enemigo.rect_y (Nat.iter 1 Enemigo.update Ejemplo.enemigo_nuevo)
  = Enemigo.rect_y Ejemplo.enemigo_nuevo + INR 1.
Proof.
  apply (update_efecto Ejemplo.enemigo_nuevo 0).
  - change (Enemigo.velocidad Ejemplo.enemigo_nuevo) with 100.0. lra.
  - exists 150%Z. reflexivity.
Defined.


(** ** jugador.py and proyectil.py: the first update of a shot *)

Lemma disparar_proyectil (objetivo_pos : R * R) (j j' : Jugador.t) :
  Jugador.disparar objetivo_pos j = Ok (true, j') ->
  Jugador.proyectiles j'
  = Jugador.proyectiles j
    ++ [Proyectil.mk
          (Figura.init (Figura.pantalla (Jugador.base j))
                       (Vector2D.x (Jugador.posicion j))
                       (Vector2D.y (Jugador.posicion j)) (255, 255, 0)%Z 5)
          Proyectil.velocidad_por_defecto
          (Vector2D.normalizar
             (Vector2D.sub (Vector2D.mk (fst objetivo_pos) (snd objetivo_pos))
                           (Jugador.posicion j)))
          2].
Proof.
  unfold Jugador.disparar.
  destruct (Rlt_b (Jugador.ultimo_disparo j) (Jugador.cooldown_disparo j));
    [discriminate|].
  rewrite Proyectil_init_por_defecto. cbn [bind]. intros [= <-]. reflexivity.
Qed.

(** X25: the projectile of a successful shot starts at the player, active.
    Its first update, with [dt > 0], puts it 300 * dt along the unit vector
    from the player to the click, so that its distance to the click, [m]
    at the start, is [|m - 300 * dt|]; fired at the player's own position
    it stays where it is. *)
Theorem disparo_hacia_el_clic (objetivo_pos : R * R) (j j' : Jugador.t)
  (dt : R) :
  Jugador.disparar objetivo_pos j = Ok (true, j') ->
  0 < dt ->
  exists proyectil p',
    Jugador.proyectiles j' = Jugador.proyectiles j ++ [proyectil] /\
    Proyectil.posicion proyectil = Jugador.posicion j /\
    Proyectil.activo proyectil = true /\
    Proyectil.actualizar dt proyectil = Ok p' /\
    let objetivo := Vector2D.mk (fst objetivo_pos) (snd objetivo_pos) in
    Proyectil.posicion p'
    = Vector2D.add (Jugador.posicion j)
        (Vector2D.mul
           (Vector2D.normalizar (Vector2D.sub objetivo (Jugador.posicion j)))
           (300 * dt)) /\
    (objetivo <> Jugador.posicion j ->
     Vector2D.magnitud (Vector2D.sub objetivo (Proyectil.posicion p'))
     = Rabs (Vector2D.magnitud (Vector2D.sub objetivo (Jugador.posicion j))
             - 300 * dt)) /\
    (objetivo = Jugador.posicion j ->
     Proyectil.posicion p' = Jugador.posicion j).
Proof.
  intros E Hdt. apply disparar_proyectil in E.
  set (objetivo := Vector2D.mk (fst objetivo_pos) (snd objetivo_pos)) in *.
  set (p := Proyectil.mk _ _ _ _) in E.
  assert (Hp : Proyectil.posicion p = Jugador.posicion j).
  { subst p. unfold Proyectil.posicion, Jugador.posicion.
    cbn [Proyectil.base Figura.init Figura.posicion].
    now destruct (Figura.posicion (Jugador.base j)). }
  assert (Hd : Proyectil.direccion p
               = Vector2D.normalizar
                   (Vector2D.sub objetivo (Jugador.posicion j)))
    by reflexivity.
  assert (Hv : Proyectil.velocidad p = 300) by reflexivity.
  assert (Ha : Proyectil.activo p = true) by reflexivity.
  clearbody p.
  destruct (Proyectil_actualizar_activo dt p Hdt Ha)
    as (p' & Ep & Hpos & _).
  exists p, p'. split; [exact E|]. split; [exact Hp|].
  split; [exact Ha|]. split; [exact Ep|].
  cbv zeta. rewrite Hpos, Hp, Hd, Hv.
  split; [reflexivity|].
  split.
  - intros Hne. apply magnitud_sub_positiva in Hne.
    rewrite sub_avance by lra. rewrite magnitud_mul.
    set (m := Vector2D.magnitud (Vector2D.sub objetivo (Jugador.posicion j)))
      in *.
    rewrite <- (Rabs_right m) at 2 by lra.
    rewrite <- Rabs_mult. f_equal. field. lra.
  - intros ->. rewrite normalizar_cero.
    + destruct (Jugador.posicion j).
      unfold Vector2D.add, Vector2D.mul. cbn [Vector2D.x Vector2D.y].
      f_equal; ring.
    + apply magnitud_cero. destruct (Jugador.posicion j).
      unfold Vector2D.sub. cbn [Vector2D.x Vector2D.y]. split; ring.
Qed.

Lemma disparo_hacia_el_clic_testigo :
  exists proyectil p',
    Jugador.proyectiles Ejemplo.jugador_armado
    = Jugador.proyectiles Ejemplo.jugador_listo ++ [proyectil] /\
    Proyectil.posicion proyectil = Jugador.posicion Ejemplo.jugador_listo /\
    Proyectil.actualizar 0.5 proyectil = Ok p'.
Proof.
  destruct (disparo_hacia_el_clic (0, 300) Ejemplo.jugador_listo
              Ejemplo.jugador_armado 0.5 jugador_armado_alcanzado)
    as (proyectil & p' & A & B & _ & C & _); [lra|].
  exists proyectil, p'. split; [exact A|]. split; [exact B | exact C].
Defined.
